(** * reversehttp: the reverse-HTTP long-poll tunnel, embedded and verified

    The development follows the Go package [reversehttp]: the session
    ([Session], [Close], [RoundTrip]), the poll handler of the server
    ([Server.ServeHTTP]), the streaming [ResponseWriter] of the client and
    the client loop [ConnectAndServe].

    Go values are embedded as follows.
    - [string] and [[]byte] are both sequences of 8-bit bytes: [string].
    - [time.Duration] is a signed count of nanoseconds: [Z].  The code only
      compares and assigns durations, so no wrap-around is involved.
    - [http.Header] is a [map[string][]string]: [gmap string (list string)].
    - Channels are explicit state (who is blocked, what was received,
      whether the channel is closed); a goroutine that panics or blocks for
      ever is an [outcome] of the step that does so.
    - Pointers ([*Session] in the session table, the reply channel shared by
      an originator and the poll handler) are indices into a store. *)

From Stdlib Require Import ZArith Ascii String.
From stdpp Require Import base option list strings gmap pretty sorting.

Local Open Scope Z_scope.

(** ** Outcomes of a step of a goroutine *)

(** A step of a goroutine either completes with a value, or cannot go on
    (a send that no goroutine will ever receive, or a lock that is held:
    [on] says which), or panics. *)
Inductive outcome (A : Type) : Type :=
  | Done (a : A)
  | Blocked (on : string)
  | Panic (msg : string).
Arguments Done {A} a.
Arguments Blocked {A} on.
Arguments Panic {A} msg.

#[global] Instance outcome_ret : MRet outcome := fun A a => Done a.
#[global] Instance outcome_bind : MBind outcome := fun A B f m =>
  match m with
  | Done a => f a
  | Blocked on => Blocked on
  | Panic msg => Panic msg
  end.
#[global] Instance outcome_fmap : FMap outcome := fun A B f m =>
  match m with
  | Done a => Done (f a)
  | Blocked on => Blocked on
  | Panic msg => Panic msg
  end.

(** ** Errors *)

(** [ErrSessionClosed] is the package's own error value; [ErrStatus] is the
    error [fmt.Errorf("%s", resp.Status)] of the client loop; [ErrLib] is any
    error returned by the standard library (codec, transport). *)
Inductive error : Type :=
  | ErrSessionClosed
  | ErrStatus (status : string)
  | ErrLib (msg : string).

Definition error_message (e : error) : string :=
  match e with
  | ErrSessionClosed => "session closed"
  | ErrStatus status => status
  | ErrLib msg => msg
  end.

#[global] Instance error_eq_dec : EqDecision error.
Proof. solve_decision. Defined.

(** ** Durations and status codes *)

Definition Duration := Z.
Definition Millisecond : Duration := 1000000.
Definition Second : Duration := 1000 * Millisecond.
Definition Minute : Duration := 60 * Second.

Definition StatusOK : Z := 200.
Definition StatusNoContent : Z := 204.
Definition StatusBadRequest : Z := 400.
Definition StatusGone : Z := 410.
Definition StatusTeapot : Z := 418.

(** ** http.Header *)

Abbreviation Header := (gmap string (list string)).

Definition is_lower (c : ascii) : bool :=
  let n := nat_of_ascii c in (97 <=? n)%nat && (n <=? 122)%nat.
Definition is_upper (c : ascii) : bool :=
  let n := nat_of_ascii c in (65 <=? n)%nat && (n <=? 90)%nat.
Definition is_digit (c : ascii) : bool :=
  let n := nat_of_ascii c in (48 <=? n)%nat && (n <=? 57)%nat.
Definition to_upper (c : ascii) : ascii :=
  if is_lower c then ascii_of_nat (nat_of_ascii c - 32) else c.
Definition to_lower (c : ascii) : ascii :=
  if is_upper c then ascii_of_nat (nat_of_ascii c + 32) else c.

Fixpoint string_forallb (f : ascii -> bool) (s : string) : bool :=
  match s with
  | EmptyString => true
  | String c s' => f c && string_forallb f s'
  end.

Fixpoint string_mem (c : ascii) (s : string) : bool :=
  match s with
  | EmptyString => false
  | String d s' => if Ascii.eqb c d then true else string_mem c s'
  end.

(** The bytes of an RFC 7230 token, which are the bytes a header key is
    made of. *)
Definition validHeaderFieldByte (c : ascii) : bool :=
  is_lower c || is_upper c || is_digit c || string_mem c "!#$%&'*+-.^_`|~".

(** The canonical form of a key: the first letter and every letter after a
    dash upper case, the others lower case. *)
Fixpoint canonical_go (upper : bool) (s : string) : string :=
  match s with
  | EmptyString => EmptyString
  | String c s' =>
      let c' := if upper then to_upper c else to_lower c in
      String c' (canonical_go (Ascii.eqb c' "-") s')
  end.

(** [textproto.CanonicalMIMEHeaderKey]: a key with a byte outside the token
    bytes is left as it is. *)
Definition CanonicalMIMEHeaderKey (key : string) : string :=
  if string_forallb validHeaderFieldByte key then canonical_go true key
  else key.

(** [Header.Add]: append the value to the values of the canonical key. *)
Definition Header_Add (h : Header) (key value : string) : Header :=
  let k := CanonicalMIMEHeaderKey key in
  <[k := default [] (h !! k) ++ [value]]> h.

(** [Header.Get]: the first value of the canonical key, [""] when the key has
    no value. *)
Definition Header_Get (h : Header) (key : string) : string :=
  match h !! CanonicalMIMEHeaderKey key with
  | Some (v :: _) => v
  | _ => ""
  end.

(** A header is present when its key has at least one value. *)
Definition Header_present (h : Header) (key : string) : bool :=
  match h !! CanonicalMIMEHeaderKey key with
  | Some (_ :: _) => true
  | _ => false
  end.

Definition CRLF : string := String "013" (String "010" EmptyString).

(** [Header.Write] puts a value on the wire with its line breaks replaced by
    spaces and trimmed of leading and trailing white space. *)
Definition newline_to_space (c : ascii) : ascii :=
  if Ascii.eqb c "010" || Ascii.eqb c "013" then " "%char else c.

Fixpoint string_map (f : ascii -> ascii) (s : string) : string :=
  match s with
  | EmptyString => EmptyString
  | String c s' => String (f c) (string_map f s')
  end.

Definition is_ascii_space (c : ascii) : bool :=
  Ascii.eqb c " " || Ascii.eqb c "009" || Ascii.eqb c "010" || Ascii.eqb c "013".

Fixpoint trim_left (s : string) : string :=
  match s with
  | String c s' => if is_ascii_space c then trim_left s' else s
  | EmptyString => EmptyString
  end.

Definition TrimString (s : string) : string :=
  String.rev (trim_left (String.rev (trim_left s))).

Definition wire_value (v : string) : string :=
  TrimString (string_map newline_to_space v).

(** [httpguts.ValidHeaderFieldName]: a non-empty token. *)
Definition ValidHeaderFieldName (key : string) : bool :=
  negb (String.eqb key "") && string_forallb validHeaderFieldByte key.

(** The fields of a header in the order [Header.Write] emits them: the keys
    that are valid field names in increasing order, the values of a key in
    their order. *)
Definition header_fields (h : Header) : list (string * string) :=
  let keys := merge_sort String.le (map fst (map_to_list h)) in
  flat_map (fun k => map (fun v => (k, wire_value v)) (default [] (h !! k)))
    (filter (fun k => ValidHeaderFieldName k = true) keys).

Definition header_line (f : string * string) : string :=
  fst f +:+ ": " +:+ snd f +:+ CRLF.

Fixpoint string_concat (l : list string) : string :=
  match l with
  | [] => ""
  | s :: l' => s +:+ string_concat l'
  end.

(** [Header.Write]: one line [Name: Value\r\n] per field. *)
Definition Header_Write (h : Header) : string :=
  string_concat (map header_line (header_fields h)).

(** ** HTTP messages *)

(** [*http.Request]; [req_Body = None] is the [nil] body. *)
Record HTTPRequest : Type := {
  req_Method : string;
  req_URL : string;
  req_Header : Header;
  req_Body : option string
}.

(** [*http.Response]; [resp_Status] is the status line without the protocol
    version, e.g. ["204 No Content"]. *)
Record HTTPResponse : Type := {
  resp_StatusCode : Z;
  resp_Status : string;
  resp_Header : Header;
  resp_Body : string
}.

(** [http.NewRequest(method, url, body)]. *)
Definition NewRequest (method url : string) (body : option string) : HTTPRequest :=
  {| req_Method := method; req_URL := url; req_Header := ∅; req_Body := body |}.

Definition req_Header_Add (r : HTTPRequest) (key value : string) : HTTPRequest :=
  {| req_Method := req_Method r; req_URL := req_URL r;
     req_Header := Header_Add (req_Header r) key value; req_Body := req_Body r |}.

(** ** The standard library functions the package calls *)

(** The durations parser and printer, the status texts and the HTTP codec
    belong to Go's standard library.  The package is verified for every
    implementation of them. *)
Class GoLib : Type := {
  (** [time.ParseDuration]: [None] is a parse error. *)
  ParseDuration : string -> option Duration;
  (** [Duration.String]. *)
  Duration_String : Duration -> string;
  (** [http.StatusText]. *)
  StatusText : Z -> string;
  (** [http.ReadResponse(bufio.NewReader(body), req)]. *)
  ReadResponse : string -> HTTPRequest -> HTTPResponse + error;
  (** [http.ReadRequest(bufio.NewReader(body))]. *)
  ReadRequest : string -> HTTPRequest + error;
  (** [req.Write(w)]: the bytes written to [w], and the error if any. *)
  Request_Write : HTTPRequest -> string * option error
}.

(** ** Channels *)

(** A reference to a [chan Response] made by [RoundTrip]. *)
Definition chan := nat.
Bind Scope nat_scope with chan.

(** [type Response struct { Err error; HTTP *http.Response }]. *)
Record Response : Type := {
  Response_Err : option error;
  Response_HTTP : option HTTPResponse
}.

(** [type Request struct { HTTP *http.Request; Response chan Response }]. *)
Record Request : Type := {
  Request_HTTP : HTTPRequest;
  Request_Response : chan
}.

(** The state of an unbuffered reply channel.  Its only receiver is the
    [RoundTrip] that made it, which receives once ([resp := <-req.Response])
    and returns: [received] holds what that receive got, and is empty while
    the originator still waits. *)
Record reply_chan : Type := {
  received : list Response;
  reply_closed : bool
}.

Definition make_reply_chan : reply_chan :=
  {| received := []; reply_closed := false |}.

(** [c <- v]: a panic on a closed channel; the hand-over to the originator
    if it still waits; blocked for ever once the originator has received,
    since nobody receives again (and on a nil channel). *)
Definition chan_send (c : chan) (v : Response) (chans : list reply_chan)
  : outcome (list reply_chan) :=
  match chans !! c with
  | None => Blocked "send on nil channel"
  | Some ch =>
      if reply_closed ch then Panic "send on closed channel"
      else match received ch with
           | [] => Done (<[c := {| received := [v]; reply_closed := false |}]> chans)
           | _ :: _ => Blocked "send without receiver"
           end
  end.

(** [close(c)]: a panic on a closed (or nil) channel; an originator that
    still waits receives the zero value. *)
Definition chan_close (c : chan) (chans : list reply_chan)
  : outcome (list reply_chan) :=
  match chans !! c with
  | None => Panic "close of nil channel"
  | Some ch =>
      if reply_closed ch then Panic "close of closed channel"
      else
        let got := match received ch with
                   | [] => [{| Response_Err := None; Response_HTTP := None |}]
                   | l => l
                   end in
        Done (<[c := {| received := got; reply_closed := true |}]> chans)
  end.

(** The state of the unbuffered channel [Requests]: the requests whose
    [RoundTrip] is blocked in [s.Requests <- req], oldest first. *)
Record request_chan : Type := {
  senders : list Request;
  requests_closed : bool
}.

Inductive received_request : Type :=
  | RecvRequest (req : Request) (rest : request_chan)
  | RecvClosed
  | RecvNotReady.

(** [req, ok := <-session.Requests] as far as it is ready. *)
Definition chan_recv (q : request_chan) : received_request :=
  match senders q with
  | req :: rest =>
      RecvRequest req {| senders := rest; requests_closed := requests_closed q |}
  | [] => if requests_closed q then RecvClosed else RecvNotReady
  end.

(** ** Session *)

(** The idle timer armed by a poll: [time.AfterFunc(d, func)] where the
    function closes and evicts the session found under the captured id. *)
Record Timer : Type := {
  timer_d : Duration;
  timer_sessionID : string
}.

Record Session : Type := {
  handlerMu : bool;
  PendingRequest : option Request;
  Requests : request_chan;
  closed : bool;
  closer : option Timer
}.

(** [&Session{closed: make(chan struct{}), Requests: make(chan Request)}]. *)
Definition newSession : Session :=
  {| handlerMu := false; PendingRequest := None;
     Requests := {| senders := []; requests_closed := false |};
     closed := false; closer := None |}.

Definition set_handlerMu (b : bool) (s : Session) : Session :=
  {| handlerMu := b; PendingRequest := PendingRequest s;
     Requests := Requests s; closed := closed s; closer := closer s |}.
Definition set_PendingRequest (p : option Request) (s : Session) : Session :=
  {| handlerMu := handlerMu s; PendingRequest := p;
     Requests := Requests s; closed := closed s; closer := closer s |}.
Definition set_Requests (q : request_chan) (s : Session) : Session :=
  {| handlerMu := handlerMu s; PendingRequest := PendingRequest s;
     Requests := q; closed := closed s; closer := closer s |}.
Definition set_closed (b : bool) (s : Session) : Session :=
  {| handlerMu := handlerMu s; PendingRequest := PendingRequest s;
     Requests := Requests s; closed := b; closer := closer s |}.
Definition set_closer (t : option Timer) (s : Session) : Session :=
  {| handlerMu := handlerMu s; PendingRequest := PendingRequest s;
     Requests := Requests s; closed := closed s; closer := t |}.

(** [Session.Close]: [close(s.closed); close(s.Requests)].  Closing a closed
    channel panics; closing [Requests] while a [RoundTrip] is blocked in its
    send makes that goroutine panic (send on closed channel). *)
Definition Close (s : Session) : outcome Session :=
  if closed s then Panic "close of closed channel"
  else
    let s1 := set_closed true s in
    if requests_closed (Requests s1) then Panic "close of closed channel"
    else match senders (Requests s1) with
         | [] => Done (set_Requests {| senders := []; requests_closed := true |} s1)
         | _ :: _ => Panic "send on closed channel"
         end.

(** Where a call of [RoundTrip] stands after its first statements: it has
    returned, or it has handed its request to the channel [Requests] and
    waits for the reply. *)
Inductive submitted : Type :=
  | Returned (resp : option HTTPResponse) (err : option error)
  | Waiting (reply : chan).

(** [Session.RoundTrip] up to [s.Requests <- req]: the non-blocking check of
    [closed], the new reply channel, the send on [Requests]. *)
Definition RoundTrip (r : HTTPRequest) (s : Session) (chans : list reply_chan)
  : outcome (submitted * Session * list reply_chan) :=
  if closed s then Done (Returned None (Some ErrSessionClosed), s, chans)
  else
    let c : chan := length chans in
    let req := {| Request_HTTP := r; Request_Response := c |} in
    if requests_closed (Requests s) then Panic "send on closed channel"
    else
      Done (Waiting c,
            set_Requests {| senders := senders (Requests s) ++ [req];
                            requests_closed := false |} s,
            chans ++ [make_reply_chan]).

(** [resp := <-req.Response; return resp.HTTP, resp.Err]: [None] while the
    originator is still blocked in the receive. *)
Definition RoundTrip_return (c : chan) (chans : list reply_chan)
  : option (option HTTPResponse * option error) :=
  match chans !! c with
  | Some ch =>
      match received ch with
      | v :: _ => Some (Response_HTTP v, Response_Err v)
      | [] => None
      end
  | None => None
  end.

(** ** Server *)

(** [OnConnect] is whether the callback is set; [doInit] whether the
    [sync.Once] has run; [sessions] maps a session id to a [*Session]. *)
Record Server : Type := {
  LongPollMinTimeout : Duration;
  LongPollMaxTimeout : Duration;
  SessionIdleTimeout : Duration;
  OnConnect : bool;
  doInit : bool;
  sessions : gmap string nat
}.

Definition set_sessions (m : gmap string nat) (s : Server) : Server :=
  {| LongPollMinTimeout := LongPollMinTimeout s;
     LongPollMaxTimeout := LongPollMaxTimeout s;
     SessionIdleTimeout := SessionIdleTimeout s;
     OnConnect := OnConnect s; doInit := doInit s; sessions := m |}.

(** [s.doInit.Do(func() {...})]: the defaults, once. *)
Definition doInit_Do (s : Server) : Server :=
  if doInit s then s
  else
    {| LongPollMinTimeout := LongPollMinTimeout s;
       LongPollMaxTimeout :=
         if LongPollMaxTimeout s =? 0 then 2 * Minute else LongPollMaxTimeout s;
       SessionIdleTimeout :=
         if SessionIdleTimeout s =? 0 then 10 * Minute else SessionIdleTimeout s;
       OnConnect := OnConnect s; doInit := true; sessions := sessions s |}.

(** The server and what its goroutines share: the sessions the table
    points to, the reply channels, and the sessions for which an [OnConnect]
    goroutine was started. *)
Record World : Type := {
  srv : Server;
  heap : list Session;
  chans : list reply_chan;
  connects : list nat
}.

Definition deref (hp : list Session) (p : nat) : outcome Session :=
  match hp !! p with
  | Some s => Done s
  | None => Panic "nil pointer dereference"
  end.

Section Package.
Context `{!GoLib}.

(** What the poll handler answers: [w.WriteHeader(code)] with the header
    map [h] as it stands and the body written so far. *)
Definition answer (code : Z) (h : Header) (body : string) : HTTPResponse :=
  {| resp_StatusCode := code;
     resp_Status := pretty code +:+ " " +:+ StatusText code;
     resp_Header := h; resp_Body := body |}.

(** *** Server.ServeHTTP, phase by phase *)

(** Session binding: the session the table has under the id of the header
    [X-Session], or a new session under the fresh id [uuid] (the value of
    [uuid.NewV4().String()]).  Returns the id, the pointer and the world. *)
Definition bind_session (uuid : string) (r : HTTPRequest) (st : World)
  : string * nat * World :=
  let s := doInit_Do (srv st) in
  let sessionID := Header_Get (req_Header r) "X-Session" in
  match sessions s !! sessionID with
  | Some p =>
      (sessionID, p,
       {| srv := s; heap := heap st; chans := chans st; connects := connects st |})
  | None =>
      let p := length (heap st) in
      (uuid, p,
       {| srv := set_sessions (<[uuid := p]> (sessions s)) s;
          heap := heap st ++ [newSession];
          chans := chans st;
          connects := if OnConnect s then connects st ++ [p] else connects st |})
  end.

(** The reply a drain delivers for the body of a poll. *)
Definition drained_reply (body : string) (pending : Request) : Response :=
  match ReadResponse body (Request_HTTP pending) with
  | inl resp => {| Response_Err := None; Response_HTTP := Some resp |}
  | inr err => {| Response_Err := Some err; Response_HTTP := None |}
  end.

(** Response drain.  The boolean tells whether the handler goes on ([true])
    or answers [400] and returns ([false]). *)
Definition drain_response (body : string) (session : Session)
    (ch : list reply_chan) : outcome (bool * Session * list reply_chan) :=
  match PendingRequest session with
  | Some pending =>
      match ReadResponse body (Request_HTTP pending) with
      | inr err =>
          ch1 ← chan_send (Request_Response pending)
                  {| Response_Err := Some err; Response_HTTP := None |} ch;
          mret (false, session, ch1)
      | inl resp =>
          ch1 ← chan_send (Request_Response pending)
                  {| Response_Err := None; Response_HTTP := Some resp |} ch;
          ch2 ← chan_close (Request_Response pending) ch1;
          mret (true, set_PendingRequest None session, ch2)
      end
  | None => mret (true, session, ch)
  end.

(** The candidate timeout: one minute, or the parsed header [X-Timeout] when
    [r.Header.Get("X-Timeout")] is not the empty string. *)
Definition candidate_timeout (reqh : Header) : option Duration :=
  let timeoutStr := Header_Get reqh "X-Timeout" in
  if decide (timeoutStr = "") then Some Minute else ParseDuration timeoutStr.

Definition warning_high (max : Duration) : string :=
  "timeout value too high, forcing to maximum " +:+ Duration_String max.
Definition warning_low (min : Duration) : string :=
  "timeout value too low, forcing to minimum " +:+ Duration_String min.

(** The two [if]s that follow the parse: cap at the maximum, then raise to
    the minimum, each with its warning. *)
Definition clamp_timeout (s : Server) (timeout : Duration) (h : Header)
  : Duration * Header :=
  let '(timeout, h) :=
    if LongPollMaxTimeout s <? timeout
    then (LongPollMaxTimeout s,
          Header_Add h "X-Warning" (warning_high (LongPollMaxTimeout s)))
    else (timeout, h) in
  if timeout <? LongPollMinTimeout s
  then (LongPollMinTimeout s,
        Header_Add h "X-Warning" (warning_low (LongPollMinTimeout s)))
  else (timeout, h).

(** Poll-timeout resolution: [inl resp] is the answer [400] on a parse
    error, [inr (timeout, h)] the wait and the header map so far. *)
Definition poll_timeout (s : Server) (reqh : Header) (h : Header)
  : HTTPResponse + Duration * Header :=
  match candidate_timeout reqh with
  | None =>
      inl (answer StatusBadRequest
             (Header_Add h "X-Error" "cannot parse duration in X-Timeout header") "")
  | Some timeout => inr (clamp_timeout s timeout h)
  end.

(** A handler suspended in its [select]: the session it holds (and whose
    lock it holds), the wait, and the header map of its answer so far. *)
Record selecting : Type := {
  sel_session : nat;
  sel_timeout : Duration;
  sel_header : Header
}.

Inductive begun : Type :=
  | Answered (resp : HTTPResponse)
  | Selecting (k : selecting).

Definition set_heap (hp : list Session) (ch : list reply_chan) (st : World)
  : World :=
  {| srv := srv st; heap := hp; chans := ch; connects := connects st |}.

(** [time.AfterFunc(s.SessionIdleTimeout, func() {...})], the function
    capturing [sessionID]. *)
Definition idle_timer (st1 : World) (sessionID : string) : option Timer :=
  Some {| timer_d := SessionIdleTimeout (srv st1); timer_sessionID := sessionID |}.

(** [ServeHTTP] from [session.handlerMu.Lock()] to the [select], for the
    session at [p] bound under [sessionID]: lock, idle-timer reset, response
    drain, timeout resolution.  A poll that finds the lock held cannot go
    on: it runs this step once the lock is free. *)
Definition poll_locked (sessionID : string) (p : nat) (r : HTTPRequest)
    (st1 : World) : outcome (begun * World) :=
  let h := Header_Add ∅ "X-Session" sessionID in
  session ← deref (heap st1) p;
  if handlerMu session then Blocked "handlerMu.Lock"
  else
    let session := set_closer (idle_timer st1 sessionID) session in
    '(go_on, session, ch) ←
       drain_response (default "" (req_Body r)) session (chans st1);
    if go_on : bool then
      match poll_timeout (srv st1) (req_Header r) h with
      | inl bad =>
          mret (Answered bad, set_heap (<[p := session]> (heap st1)) ch st1)
      | inr (timeout, h_ok) =>
          mret (Selecting {| sel_session := p; sel_timeout := timeout;
                             sel_header := h_ok |},
                set_heap (<[p := set_handlerMu true session]> (heap st1)) ch st1)
      end
    else
      mret (Answered (answer StatusBadRequest h ""),
            set_heap (<[p := session]> (heap st1)) ch st1).

(** [ServeHTTP] from its first statement to the [select], when the lock is
    taken as soon as the session is bound. *)
Definition poll_begin (uuid : string) (r : HTTPRequest) (st : World)
  : outcome (begun * World) :=
  let '(sessionID, p, st1) := bind_session uuid r st in
  poll_locked sessionID p r st1.

Inductive selected : Type :=
  | SelTimer
  | SelRequest (req : Request) (rest : request_chan)
  | SelClosed.

(** Which case of the [select] runs.  [timer_first] is the scheduler's
    part: whether [time.After(timeout)] delivers before the case on
    [Requests] is taken.  When [Requests] has neither a sender nor been
    closed, only the timer can run. *)
Definition select_case (timer_first : bool) (q : request_chan) : selected :=
  if timer_first then SelTimer
  else match chan_recv q with
       | RecvRequest req rest => SelRequest req rest
       | RecvClosed => SelClosed
       | RecvNotReady => SelTimer
       end.

(** The rendezvous: the [select] and what follows it; the lock is released
    on return. *)
Definition poll_select (timer_first : bool) (k : selecting) (st : World)
  : outcome (HTTPResponse * World) :=
  let p := sel_session k in
  session ← deref (heap st) p;
  match select_case timer_first (Requests session) with
  | SelTimer =>
      mret (answer StatusNoContent (sel_header k) "",
            set_heap (<[p := set_handlerMu false session]> (heap st)) (chans st) st)
  | SelClosed =>
      mret (answer StatusGone (sel_header k) "",
            set_heap (<[p := set_handlerMu false session]> (heap st)) (chans st) st)
  | SelRequest req rest =>
      let session := set_Requests rest session in
      let h := Header_Add (sel_header k) "Content-type" "application/x-http-request" in
      let '(written, werr) := Request_Write (Request_HTTP req) in
      match werr with
      | Some err =>
          ch1 ← chan_send (Request_Response req)
                  {| Response_Err := Some err; Response_HTTP := None |} (chans st);
          mret (answer StatusOK h written,
                set_heap (<[p := set_handlerMu false session]> (heap st)) ch1 st)
      | None =>
          mret (answer StatusOK h written,
                set_heap (<[p := set_handlerMu false
                                   (set_PendingRequest (Some req) session)]> (heap st))
                         (chans st) st)
      end
  end.

(** [Server.ServeHTTP] when nothing else runs between its first statement
    and its [select]. *)
Definition ServeHTTP (uuid : string) (timer_first : bool) (r : HTTPRequest)
    (st : World) : outcome (HTTPResponse * World) :=
  '(b, st1) ← poll_begin uuid r st;
  match b with
  | Answered resp => mret (resp, st1)
  | Selecting k => poll_select timer_first k st1
  end.

(** *** The other goroutines *)

(** An originator calls [RoundTrip] on the session at [p]. *)
Definition submit (p : nat) (r : HTTPRequest) (st : World)
  : outcome (submitted * World) :=
  session ← deref (heap st) p;
  '(res, session1, ch) ← RoundTrip r session (chans st);
  mret (res, set_heap (<[p := session1]> (heap st)) ch st).

(** Somebody calls [Close] on the session at [p]. *)
Definition close_session (p : nat) (st : World) : outcome World :=
  session ← deref (heap st) p;
  session1 ← Close session;
  mret (set_heap (<[p := session1]> (heap st)) (chans st) st).

(** The idle timer [t] fires: the function given to [time.AfterFunc] looks
    the captured id up, and closes and evicts the session it finds. *)
Definition closer_fires (t : Timer) (st : World) : outcome World :=
  match sessions (srv st) !! timer_sessionID t with
  | Some p =>
      st1 ← close_session p st;
      mret {| srv := set_sessions (delete (timer_sessionID t) (sessions (srv st1)))
                       (srv st1);
              heap := heap st1; chans := chans st1; connects := connects st1 |}
  | None => mret st
  end.

End Package.

(** *** Executions *)

(** What the goroutines of the server do, one atomic step each: an
    originator enters [RoundTrip], somebody closes a session, the idle timer
    of a session fires, a poll runs up to its [select] (binding its session
    and taking the lock at once), a poll that had bound the session at [p]
    under [sessionID] earlier and waited for the lock runs up to its
    [select], and the [select] of a suspended poll runs. *)
Inductive event : Type :=
  | EvSubmit (p : nat) (r : HTTPRequest)
  | EvClose (p : nat)
  | EvIdle (p : nat)
  | EvBegin (uuid : string) (r : HTTPRequest)
  | EvLocked (sessionID : string) (p : nat) (r : HTTPRequest)
  | EvSelect (timer_first : bool) (k : selecting).

Section Executions.
Context `{!GoLib}.

Definition step (e : event) (st : World) : outcome World :=
  match e with
  | EvSubmit p r => snd <$> submit p r st
  | EvClose p => close_session p st
  | EvIdle p =>
      session ← deref (heap st) p;
      match closer session with
      | Some t => closer_fires t st
      | None => mret st
      end
  | EvBegin uuid r => snd <$> poll_begin uuid r st
  | EvLocked sessionID p r => snd <$> poll_locked sessionID p r st
  | EvSelect timer_first k => snd <$> poll_select timer_first k st
  end.

Fixpoint run (es : list event) (st : World) : outcome World :=
  match es with
  | [] => mret st
  | e :: es' => st1 ← step e st; run es' st1
  end.

(** The steps of the goroutines other than the poll handler that holds the
    session at [p]: everything but the [select] of that handler. *)
Definition other_than (p : nat) (e : event) : Prop :=
  match e with
  | EvSelect _ k => sel_session k ≠ p
  | _ => True
  end.

(** The steps of an execution in which no poll waits for the lock between
    binding its session and locking it. *)
Definition locks_at_once (e : event) : Prop :=
  match e with
  | EvLocked _ _ _ => False
  | _ => True
  end.

End Executions.

(** ** The client *)

(** [w] is what was written to the pipe that feeds the body of the next
    POST; [header = None] is the [nil] map of a writer whose method [Header]
    was never called. *)
Record ResponseWriter : Type := {
  w : string;
  header : option Header;
  headerSent : bool
}.

(** The calls a handler makes on the [http.ResponseWriter] it is given. *)
Inductive call : Type :=
  | CallHeaderAdd (key value : string)
  | CallWriteHeader (statusCode : Z)
  | CallWrite (b : string).

Section Client.
Context `{!GoLib}.

(** [ResponseWriter.Header]: the header map, made on the first call. *)
Definition ResponseWriter_Header (rw : ResponseWriter) : Header * ResponseWriter :=
  match header rw with
  | Some h => (h, rw)
  | None => (∅, {| w := w rw; header := Some ∅; headerSent := headerSent rw |})
  end.

(** [fmt.Fprintf(rw.w, "HTTP/1.1 %d %s\r\n", statusCode, http.StatusText(statusCode))]. *)
Definition status_line (statusCode : Z) : string :=
  "HTTP/1.1 " +:+ pretty statusCode +:+ " " +:+ StatusText statusCode +:+ CRLF.

(** [ResponseWriter.WriteHeader]; writing a [nil] header map writes nothing. *)
Definition WriteHeader (statusCode : Z) (rw : ResponseWriter) : ResponseWriter :=
  if headerSent rw then rw
  else
    {| w := w rw +:+ status_line statusCode
                 +:+ Header_Write (default ∅ (header rw)) +:+ CRLF;
       header := header rw;
       headerSent := true |}.

(** [ResponseWriter.Write]: the count and error are those of the pipe, which
    takes all the bytes. *)
Definition Write (b : string) (rw : ResponseWriter)
  : (nat * option error) * ResponseWriter :=
  let rw1 := if headerSent rw then rw else WriteHeader StatusOK rw in
  ((String.length b, None),
   {| w := w rw1 +:+ b; header := header rw1; headerSent := headerSent rw1 |}).

Definition do_call (c : call) (rw : ResponseWriter) : ResponseWriter :=
  match c with
  | CallHeaderAdd key value =>
      let '(h, rw1) := ResponseWriter_Header rw in
      {| w := w rw1; header := Some (Header_Add h key value);
         headerSent := headerSent rw1 |}
  | CallWriteHeader statusCode => WriteHeader statusCode rw
  | CallWrite b => snd (Write b rw)
  end.

Definition do_calls (cs : list call) (rw : ResponseWriter) : ResponseWriter :=
  foldl (fun rw c => do_call c rw) rw cs.

(** [&ResponseWriter{w: reqBodyWriter}]. *)
Definition new_ResponseWriter : ResponseWriter :=
  {| w := ""; header := None; headerSent := false |}.

(** *** ConnectAndServe *)

(** [T] is the state of what is behind [httpClient]: the network and the
    server; [Do] is [httpClient.Do]; a handler is the calls it makes on its
    response writer, given the request. *)
Context {T : Type}.
Variable Do : HTTPRequest -> T -> (HTTPResponse + error) * T.
Variable url : string.
Variable handler : HTTPRequest -> list call.

Definition pollTimeout : Duration := Minute.

(** The first POST: [X-Timeout], no [X-Session], no body. *)
Definition first_poll : HTTPRequest :=
  req_Header_Add (NewRequest "POST" url None) "X-Timeout" (Duration_String pollTimeout).

(** The POST after a [204]: [X-Timeout], [X-Session], no body. *)
Definition next_poll (sessionID : string) : HTTPRequest :=
  req_Header_Add
    (req_Header_Add (NewRequest "POST" url None)
       "X-Timeout" (Duration_String pollTimeout))
    "X-Session" sessionID.

(** The POST that carries a response: its body is what the handler's
    goroutine writes to the pipe. *)
Definition response_poll (sessionID : string) (serverReq : HTTPRequest) : HTTPRequest :=
  let body := w (do_calls (handler serverReq) new_ResponseWriter) in
  req_Header_Add
    (req_Header_Add
       (req_Header_Add (NewRequest "POST" url (Some body))
          "X-Timeout" (Duration_String pollTimeout))
       "X-Session" sessionID)
    "Content-Type" "application/x-http-response".

Inductive next : Type :=
  | Return (err : error)
  | Post (req : HTTPRequest).

(** The tail of the loop body, reached with status [200]. *)
Definition decode_and_serve (sessionID : string) (resp : HTTPResponse) : next :=
  match ReadRequest (resp_Body resp) with
  | inr err => Return err
  | inl serverReq => Post (response_poll sessionID serverReq)
  end.

(** The body of the [for] loop up to its call of [httpClient.Do]: what it
    returns, or the request it posts next. *)
Definition iteration (resp : HTTPResponse) : next :=
  let sessionID := Header_Get (resp_Header resp) "X-Session" in
  if resp_StatusCode resp =? StatusNoContent then Post (next_poll sessionID)
  else if resp_StatusCode resp =? StatusGone then Return ErrSessionClosed
  else if negb (resp_StatusCode resp =? StatusOK) then Return (ErrStatus (resp_Status resp))
  else decode_and_serve sessionID resp.

(** The [for] loop, for at most [fuel] iterations: [None] when it still
    runs after them. *)
Fixpoint serve_loop (fuel : nat) (resp : HTTPResponse) (t : T) : option error * T :=
  match fuel with
  | O => (None, t)
  | S n =>
      match iteration resp with
      | Return err => (Some err, t)
      | Post req =>
          match Do req t with
          | (inl resp1, t1) => serve_loop n resp1 t1
          | (inr err, t1) => (Some err, t1)
          end
      end
  end.

Definition ConnectAndServe (fuel : nat) (t : T) : option error * T :=
  match Do first_poll t with
  | (inr err, t1) => (Some err, t1)
  | (inl resp, t1) => serve_loop fuel resp t1
  end.

End Client.

(** *** What a sequence of calls should put on the wire *)

(** The status of the first call that emits the headers: the code given to
    [WriteHeader], or [200] for a [Write]. *)
Fixpoint first_status (cs : list call) : option Z :=
  match cs with
  | [] => None
  | CallHeaderAdd _ _ :: cs' => first_status cs'
  | CallWriteHeader statusCode :: _ => Some statusCode
  | CallWrite _ :: _ => Some StatusOK
  end.

(** The header map when that call is made. *)
Fixpoint header_at_first (cs : list call) (h : option Header) : option Header :=
  match cs with
  | CallHeaderAdd key value :: cs' =>
      header_at_first cs' (Some (Header_Add (default ∅ h) key value))
  | _ => h
  end.

(** The bytes given to [Write], in order. *)
Fixpoint bodies (cs : list call) : string :=
  match cs with
  | [] => ""
  | CallWrite b :: cs' => b +:+ bodies cs'
  | _ :: cs' => bodies cs'
  end.

(** The header block in the words of the specification: one line
    [Name: Value\r\n] per header of the map, name and value as they were
    given to [Header().Add] (taken in the order of the names). *)
Definition spec_header_block (h : Header) : string :=
  string_concat
    (flat_map
       (fun k => map (fun v => k +:+ ": " +:+ v +:+ CRLF) (default [] (h !! k)))
       (merge_sort String.le (map fst (map_to_list h)))).

(** ** A standard library to run the package on *)

(** Small stand-ins for the functions of [GoLib], used to run the package on
    concrete polls.  They agree with Go on the strings that occur below:
    durations written as unsigned whole numbers with a unit ("200ms", "10ms",
    "1m0s"), printed as Go prints whole milliseconds and whole seconds, and
    HTTP/1.1 messages with their start line first.  [ParseDuration ""] is an
    error, as in Go. *)

Fixpoint take_while (f : ascii -> bool) (s : string) : string * string :=
  match s with
  | String c s' =>
      if f c then let '(a, b) := take_while f s' in (String c a, b)
      else (EmptyString, s)
  | EmptyString => (EmptyString, EmptyString)
  end.

Fixpoint digits_value (s : string) (acc : Z) : Z :=
  match s with
  | String c s' => digits_value s' (10 * acc + Z.of_nat (nat_of_ascii c - 48))
  | EmptyString => acc
  end.

Definition unit_value (u : string) : option Duration :=
  if decide (u = "ns") then Some 1
  else if decide (u = "us") then Some 1000
  else if decide (u = "ms") then Some Millisecond
  else if decide (u = "s") then Some Second
  else if decide (u = "m") then Some Minute
  else if decide (u = "h") then Some (60 * Minute)
  else None.

Fixpoint parse_components (fuel : nat) (s : string) (acc : Duration)
  : option Duration :=
  match fuel with
  | O => None
  | S n =>
      let '(ds, rest) := take_while is_digit s in
      if decide (ds = "") then None
      else
        let '(u, rest1) := take_while (fun c => negb (is_digit c)) rest in
        match unit_value u with
        | None => None
        | Some x =>
            let acc1 := acc + digits_value ds 0 * x in
            if decide (rest1 = "") then Some acc1
            else parse_components n rest1 acc1
        end
  end.

Definition sample_ParseDuration (s : string) : option Duration :=
  if decide (s = "0") then Some 0 else parse_components (String.length s) s 0.

Definition sample_Duration_String (d : Duration) : string :=
  if d =? 0 then "0s"
  else if (0 <? d) && (d <? Second) && (d mod Millisecond =? 0)
  then pretty (d / Millisecond) +:+ "ms"
  else if (0 <? d) && (d mod Second =? 0) then
    let h := d / (60 * Minute) in
    let m := (d mod (60 * Minute)) / Minute in
    let s := (d mod Minute) / Second in
    (if 0 <? h then pretty h +:+ "h" else "")
    +:+ (if (0 <? h) || (0 <? m) then pretty m +:+ "m" else "")
    +:+ pretty s +:+ "s"
  else pretty d +:+ "ns".

Definition sample_StatusText (code : Z) : string :=
  if code =? 200 then "OK"
  else if code =? 204 then "No Content"
  else if code =? 400 then "Bad Request"
  else if code =? 404 then "Not Found"
  else if code =? 410 then "Gone"
  else if code =? 418 then "I'm a teapot"
  else if code =? 500 then "Internal Server Error"
  else "".

Fixpoint strip_prefix (p s : string) : option string :=
  match p, s with
  | EmptyString, _ => Some s
  | String a p', String b s' => if Ascii.eqb a b then strip_prefix p' s' else None
  | String _ _, EmptyString => None
  end.

Definition not_CR (c : ascii) : bool := negb (Ascii.eqb c "013").
Definition not_space (c : ascii) : bool := negb (Ascii.eqb c " ").

(** Reads the status line [HTTP/1.1 <code> <reason>\r\n]; what follows it is
    kept as the body. *)
Definition sample_ReadResponse (body : string) (req : HTTPRequest)
  : HTTPResponse + error :=
  match strip_prefix "HTTP/1.1 " body with
  | None => inr (ErrLib "malformed HTTP response")
  | Some rest =>
      let '(status, rest1) := take_while not_CR rest in
      let '(code, _) := take_while is_digit status in
      if decide (String.length code = 3%nat) then
        inl {| resp_StatusCode := digits_value code 0; resp_Status := status;
               resp_Header := ∅;
               resp_Body := default rest1 (strip_prefix CRLF rest1) |}
      else inr (ErrLib "malformed HTTP status code")
  end.

(** Reads the request line [<method> <target> HTTP/1.1\r\n]. *)
Definition sample_ReadRequest (body : string) : HTTPRequest + error :=
  let '(line, rest) := take_while not_CR body in
  let '(method, rest1) := take_while not_space line in
  match strip_prefix " " rest1 with
  | None => inr (ErrLib "malformed HTTP request")
  | Some rest2 =>
      let '(target, rest3) := take_while not_space rest2 in
      if decide (rest3 = " HTTP/1.1") then
        inl {| req_Method := method; req_URL := target; req_Header := ∅;
               req_Body := Some (default rest (strip_prefix CRLF rest)) |}
      else inr (ErrLib "malformed HTTP request")
  end.

(** Writes the request line, the header block, the blank line and the body.
    A write to the poll's connection can fail whatever the request is; the
    method ["BROKEN"] stands for a request whose write fails after the
    request line. *)
Definition sample_Request_Write (r : HTTPRequest) : string * option error :=
  let line := req_Method r +:+ " " +:+ req_URL r +:+ " HTTP/1.1" +:+ CRLF in
  if decide (req_Method r = "BROKEN") then (line, Some (ErrLib "write: broken pipe"))
  else (line +:+ Header_Write (req_Header r) +:+ CRLF +:+ default "" (req_Body r),
        None).

Definition sampleLib : GoLib := {|
  ParseDuration := sample_ParseDuration;
  Duration_String := sample_Duration_String;
  StatusText := sample_StatusText;
  ReadResponse := sample_ReadResponse;
  ReadRequest := sample_ReadRequest;
  Request_Write := sample_Request_Write
|}.

(** *** Observations *)

(** The pending slot of the session at [p]. *)
Definition pending_at (p : nat) (st : World) : option Request :=
  heap st !! p ≫= PendingRequest.

(** What the originator that owns the reply channel [c] has received. *)
Definition received_at (c : chan) (st : World) : list Response :=
  default [] (received <$> chans st !! c).

(** The poll handler that holds the session at [p] is suspended in its
    [select]: the lock is held and the pending slot is empty. *)
Definition held (p : nat) (hp : list Session) : Prop :=
  exists session,
    hp !! p = Some session /\ handlerMu session = true
    /\ PendingRequest session = None.

(** No originator has received more than one reply. *)
Definition at_most_once (ch : list reply_chan) : Prop :=
  forall c rc, ch !! c = Some rc -> (length (received rc) <= 1)%nat.

(** A session is clear of the reply channel [c] when no request blocked in
    its [Requests] carries [c], and, if its pending slot carries [c], the
    session table [tbl] does not point to it (at [p]). *)
Definition clear_of (c : chan) (tbl : gmap string nat) (p : nat) (session : Session)
  : Prop :=
  (forall req, req ∈ senders (Requests session) -> Request_Response req <> c)
  /\ (forall req, PendingRequest session = Some req -> Request_Response req = c ->
                 forall id, tbl !! id <> Some p).

(** The reply channel [c] is orphaned: its originator still waits, and no
    goroutine can come by it any more. *)
Definition orphaned (c : chan) (st : World) : Prop :=
  (exists rc, chans st !! c = Some rc /\ received rc = [])
  /\ (forall p session,
         heap st !! p = Some session -> clear_of c (sessions (srv st)) p session).

(** The reply channels a session holds: those of the requests blocked in
    [Requests], and that of the pending request. *)
Definition session_refs (s : Session) : list chan :=
  (Request_Response <$> senders (Requests s))
  ++ (Request_Response <$> option_list (PendingRequest s)).

(** The worlds the package makes: the session table points into the store
    and gives every session one id; every reply channel is held once, and
    has been made. *)
Definition well_formed (st : World) : Prop :=
  (forall id p, sessions (srv st) !! id = Some p -> (p < length (heap st))%nat)
  /\ (forall id id' p,
         sessions (srv st) !! id = Some p -> sessions (srv st) !! id' = Some p ->
         id = id')
  /\ NoDup (concat (session_refs <$> heap st))
  /\ Forall (fun c : chan => (c < length (chans st))%nat)
       (concat (session_refs <$> heap st)).

(** The steps of an execution in which no poll that was bound to the
    session at [p] earlier is still to take its lock. *)
Definition no_stale_poll (p : nat) (e : event) : Prop :=
  match e with
  | EvLocked _ q _ => q <> p
  | _ => True
  end.

(** Only the pending slot of the session at [p] holds the reply channel
    [c]. *)
Definition sole_holder (c : chan) (p : nat) (st : World) : Prop :=
  forall q s req,
    heap st !! q = Some s -> PendingRequest s = Some req ->
    Request_Response req = c -> q = p.

(** *** Sample polls and worlds *)

Definition sample_server : Server :=
  {| LongPollMinTimeout := 50 * Millisecond;
     LongPollMaxTimeout := 150 * Millisecond;
     SessionIdleTimeout := 0;
     OnConnect := true; doInit := false; sessions := ∅ |}.

Definition world0 : World :=
  {| srv := sample_server; heap := []; chans := []; connects := [] |}.

(** A poll with the given session id, timeout header and body; an empty
    string leaves the header out. *)
Definition poll (sessionID timeoutStr : string) (body : option string) : HTTPRequest :=
  let r := NewRequest "POST" "/" body in
  let r := if decide (timeoutStr = "") then r else req_Header_Add r "X-Timeout" timeoutStr in
  if decide (sessionID = "") then r else req_Header_Add r "X-Session" sessionID.

Definition frob : HTTPRequest :=
  NewRequest "FROB" "/grob" (Some "frob the grob!").

Definition frob_request : Request :=
  {| Request_HTTP := frob; Request_Response := 0%nat |}.

(** The handler of the first poll, suspended in its [select] on the new
    session. *)
Definition first_selecting : selecting :=
  {| sel_session := 0; sel_timeout := 150 * Millisecond;
     sel_header :=
       Header_Add (Header_Add ∅ "X-Session" "s1") "X-Warning"
         "timeout value too high, forcing to maximum 150ms" |}.

(** A first poll makes the session ["s1"]; while it waits an originator
    submits [frob]; the poll takes it and answers [200]: the originator is
    now pending. *)
Definition outstanding_events : list event :=
  [EvBegin "s1" (poll "" "1m0s" None); EvSubmit 0 frob; EvSelect false first_selecting].

(** The world in which [frob] is outstanding, and the one after the idle
    timer of its session has fired. *)
Definition outstanding_world : World :=
  match @run sampleLib outstanding_events world0 with
  | Done st => st
  | _ => world0
  end.

Definition evicted_world : World :=
  match @step sampleLib (EvIdle 0) outstanding_world with
  | Done st => st
  | _ => world0
  end.

(** The world in which the first poll has bound its new session. *)
Definition bound_world : World :=
  snd (bind_session "s1" (poll "" "1m0s" None) world0).

(** The world in which the first poll waits in its [select] and [frob] has
    been submitted, and the session of that poll in it. *)
Definition submitted_world : World :=
  match @run sampleLib [EvBegin "s1" (poll "" "1m0s" None); EvSubmit 0 frob] world0 with
  | Done st => st
  | _ => world0
  end.

Definition submitted_session : Session :=
  set_Requests {| senders := [frob_request]; requests_closed := false |}
    (set_closer (Some {| timer_d := 10 * Minute; timer_sessionID := "s1" |})
       (set_handlerMu true newSession)).

(** [frob] on the wire. *)
Definition frob_wire : string := fst (sample_Request_Write frob).

(** Bodies of the poll that follows: one that is no HTTP response, and the
    response of a handler that adds [X-Foo: Bar] and writes a body. *)
Definition garbage_body : string := "garbage".

Definition frob_handler (r : HTTPRequest) : list call :=
  [CallHeaderAdd "X-Foo" "Bar"; CallWrite "asdf asdf asdf"].

Definition good_body : string :=
  w (@do_calls sampleLib (frob_handler frob) new_ResponseWriter).

(** A handler's calls with a key that is no field name and a value with
    white space around it, and the header map they build. *)
Definition odd_calls : list call :=
  [CallHeaderAdd "bad key" "x"; CallHeaderAdd "X-Foo" " v "; CallWrite "body"].

Definition odd_header : Header :=
  Header_Add (Header_Add ∅ "bad key" "x") "X-Foo" " v ".

(** A request whose write to the poll's connection fails. *)
Definition broken : HTTPRequest := NewRequest "BROKEN" "/grob" None.

(** A poll whose header [X-Timeout] is present with an empty value. *)
Definition empty_timeout_poll : HTTPRequest :=
  req_Header_Add (NewRequest "POST" "/" None) "X-Timeout" "".

(** A transport for the client: it logs the requests and answers them from
    a script. *)
Definition transport : Type := list HTTPRequest * list (HTTPResponse + error).

Definition scripted_Do (req : HTTPRequest) (t : transport)
  : (HTTPResponse + error) * transport :=
  match snd t with
  | [] => (inr (ErrLib "EOF"), (fst t ++ [req], []))
  | x :: rest => (x, (fst t ++ [req], rest))
  end.

Definition no_content : HTTPResponse :=
  @answer sampleLib StatusNoContent (Header_Add ∅ "X-Session" "s1") "".

(** *** More observations *)

(** The steps that leave the entry of [sessionID] in the session table
    alone: no idle timer fires and no new session is made under that id. *)
Definition keeps_id (sessionID : string) (e : event) : Prop :=
  match e with
  | EvIdle _ => False
  | EvBegin uuid _ => uuid <> sessionID
  | _ => True
  end.

(** [RoundTrip] entered for each request of a list, in order, by originators
    that all wait for their reply. *)
Fixpoint submit_all (rs : list HTTPRequest) (s : Session) (ch : list reply_chan)
  : outcome (Session * list reply_chan) :=
  match rs with
  | [] => mret (s, ch)
  | r :: rs' => '(_, s1, ch1) ← RoundTrip r s ch; submit_all rs' s1 ch1
  end.

(** The requests that [n] successive receives on [Requests] take. *)
Fixpoint take_requests (n : nat) (q : request_chan) : list Request :=
  match n with
  | O => []
  | S n' =>
      match chan_recv q with
      | RecvRequest req rest => req :: take_requests n' rest
      | _ => []
      end
  end.

(** The timeouts of a server and whether its defaults were applied. *)
Definition limits (s : Server) : Duration * Duration * Duration * bool :=
  (LongPollMinTimeout s, LongPollMaxTimeout s, SessionIdleTimeout s, doInit s).

(** The requests of originators that enter [RoundTrip] one after the other
    when [c] reply channels were made before. *)
Fixpoint requests_from (c : nat) (rs : list HTTPRequest) : list Request :=
  match rs with
  | [] => []
  | r :: rs' => {| Request_HTTP := r; Request_Response := c |} :: requests_from (S c) rs'
  end.

(** *** More sample worlds *)

Section Sample_worlds.
#[local] Existing Instance sampleLib.

Definition sample_url : string := "http://localhost:8100".

(** The first poll of a client. *)
Definition first_sample_poll : HTTPRequest := poll "" "1m0s" None.

(** The world in which the first poll waits in its [select]. *)
Definition selecting_world : World :=
  match poll_begin "s1" first_sample_poll world0 with
  | Done (_, st) => st
  | _ => world0
  end.

(** The session of ["s1"] while [frob] is outstanding, and its idle timer. *)
Definition outstanding_session : Session :=
  default newSession (heap outstanding_world !! 0%nat).

Definition sample_timer : Timer :=
  {| timer_d := 10 * Minute; timer_sessionID := "s1" |}.

(** The world after [Close] on that session, and the session in it. *)
Definition closed_world : World :=
  match close_session 0 outstanding_world with
  | Done st => st
  | _ => world0
  end.

Definition closed_sample_session : Session :=
  default newSession (heap closed_world !! 0%nat).

(** The response of [frob_handler] as the server reads it, and [frob] as
    the client reads it. *)
Definition good_response : HTTPResponse :=
  match sample_ReadResponse good_body frob with
  | inl resp => resp
  | inr _ => answer 0 ∅ ""
  end.

Definition frob_decoded : HTTPRequest :=
  match sample_ReadRequest frob_wire with
  | inl r => r
  | inr _ => frob
  end.

(** Polls on ["s1"]: with the handler's response, and with a header
    [X-Timeout] that is no duration. *)
Definition good_poll : HTTPRequest := poll "s1" "1m0s" (Some good_body).
Definition bogus_timeout_poll : HTTPRequest :=
  poll "s1" "not-a-valid-time" (Some good_body).

(** What the [select] of the first poll answers when it takes [frob]. *)
Definition frob_answer : HTTPResponse :=
  answer 200
    (Header_Add (sel_header first_selecting) "Content-type"
       "application/x-http-request")
    frob_wire.


End Sample_worlds.

(** * Properties *)

(** ** Strings *)

Lemma string_app_assoc (a b c : string) : (a +:+ b) +:+ c = a +:+ b +:+ c.
Proof.
  induction a as [|x a IH]; [reflexivity|].
  change (String x ((a +:+ b) +:+ c) = String x (a +:+ b +:+ c)).
  by rewrite IH.
Qed.

Lemma string_app_empty_r (a : string) : a +:+ "" = a.
Proof.
  induction a as [|x a IH]; [reflexivity|].
  change (String x (a +:+ "") = String x a). by rewrite IH.
Qed.

Lemma string_rev_app_spec (s1 s2 : string) :
  String.rev_app s1 s2 = String.rev s1 +:+ s2.
Proof.
  revert s2. induction s1 as [|c s1 IH]; intros s2; [done|].
  unfold String.rev. simpl. rewrite (IH (String c s2)), (IH (String c "")).
  by rewrite string_app_assoc.
Qed.

Lemma string_rev_cons c s : String.rev (String c s) = String.rev s +:+ String c "".
Proof. unfold String.rev at 1. simpl. apply string_rev_app_spec. Qed.

Lemma string_rev_snoc s c : String.rev (s +:+ String c "") = String c (String.rev s).
Proof.
  induction s as [|d s IH]; [done|].
  change (String.rev (String d (s +:+ String c "")) = String c (String.rev (String d s))).
  by rewrite !string_rev_cons, IH.
Qed.

Lemma string_rev_involutive s : String.rev (String.rev s) = s.
Proof.
  induction s as [|c s IH]; [done|].
  by rewrite string_rev_cons, string_rev_snoc, IH.
Qed.

Lemma string_forallb_app f s1 s2 :
  string_forallb f (s1 +:+ s2) = string_forallb f s1 && string_forallb f s2.
Proof.
  induction s1 as [|c s1 IH]; [done|]. simpl. by rewrite IH, andb_assoc.
Qed.

Lemma string_forallb_rev f s : string_forallb f (String.rev s) = string_forallb f s.
Proof.
  induction s as [|c s IH]; [done|].
  rewrite string_rev_cons, string_forallb_app, IH. simpl.
  by rewrite andb_true_r, andb_comm.
Qed.

(** [trim_left] removes a prefix of white space and leaves no white space
    at the head. *)
Lemma trim_left_spec s :
  exists l,
    s = l +:+ trim_left s
    /\ string_forallb is_ascii_space l = true
    /\ (forall c s', trim_left s = String c s' -> is_ascii_space c = false).
Proof.
  induction s as [|c s (l & El & Hl & Hhead)].
  - by exists "".
  - simpl. destruct (is_ascii_space c) eqn:Ec.
    + exists (String c l).
      split; [change (String c s = String c (l +:+ trim_left s)); by rewrite <- El|].
      split; [simpl; by rewrite Ec|done].
    + exists "". split; [done|]. split; [done|]. by intros c' s' [= <- _].
Qed.

Lemma TrimString_spec s :
  exists l r,
    s = l +:+ TrimString s +:+ r
    /\ string_forallb is_ascii_space l = true
    /\ string_forallb is_ascii_space r = true
    /\ (forall c s', TrimString s = String c s' -> is_ascii_space c = false)
    /\ (forall c s', TrimString s = s' +:+ String c "" -> is_ascii_space c = false).
Proof.
  unfold TrimString.
  destruct (trim_left_spec s) as (l & El & Hl & Hhead).
  destruct (trim_left_spec (String.rev (trim_left s))) as (r & Er & Hr & Hlast).
  set (t := trim_left (String.rev (trim_left s))) in *.
  assert (trim_left s = String.rev t +:+ String.rev r) as Et.
  { rewrite <- (string_rev_involutive (trim_left s)), Er.
    clear. induction r as [|c r IH]; [by rewrite string_app_empty_r|].
    change (String.rev (String c (r +:+ t))
            = String.rev t +:+ String.rev (String c r)).
    by rewrite !string_rev_cons, IH, string_app_assoc. }
  exists l, (String.rev r). split; [by rewrite <- Et|].
  split; [done|]. split; [by rewrite string_forallb_rev|]. split.
  - intros c s' E. apply (Hhead c (s' +:+ String.rev r)). by rewrite Et, E.
  - intros c s' E. apply (Hlast c (String.rev s')).
    by rewrite <- (string_rev_involutive t), E, string_rev_snoc.
Qed.

(** ** The header block *)

(** The fields of one key among those of a list of distinct keys. *)
Lemma filter_fields_of_key (g : string -> list string) (l : list string) k :
  NoDup l ->
  map snd (filter (fun f : string * string => fst f = k)
             (flat_map (fun k' => map (fun v => (k', v)) (g k')) l))
  = if decide (k ∈ l) then g k else [].
Proof.
  assert (forall k' vs,
            map snd (filter (fun f : string * string => fst f = k)
                       (map (fun v => (k', v)) vs))
            = if decide (k' = k) then vs else []) as Hone.
  { intros k' vs. induction vs as [|v vs IH]; [by destruct (decide _)|].
    simpl. rewrite filter_cons. simpl.
    destruct (decide (k' = k)); simpl; by rewrite IH. }
  induction 1 as [|k' l Hnotin Hnd IH]; [done|].
  simpl. rewrite filter_app, map_app, Hone, IH.
  destruct (decide (k' = k)) as [->|Hne], (decide (k ∈ l)) as [Hin|Hnin];
    [done| | |].
  - rewrite decide_True by set_solver. apply app_nil_r.
  - by rewrite decide_True by set_solver.
  - rewrite decide_False; [done|]. by intros [?|?]%elem_of_cons.
Qed.

Lemma sorted_fields (g : string -> list string) (l : list string) :
  StronglySorted String.le l ->
  StronglySorted String.le
    (map fst (flat_map (fun k' => map (fun v => (k', v)) (g k')) l)).
Proof.
  induction 1 as [|k l Hs IH Hall]; [constructor|].
  simpl. rewrite map_app.
  assert (map fst (map (fun v => (k, v)) (g k)) = replicate (length (g k)) k) as ->.
  { induction (g k) as [|v vs IHv]; [done|]. simpl. by rewrite IHv. }
  assert (Forall (String.le k)
            (map fst (flat_map (fun k' => map (fun v => (k', v)) (g k')) l)))
    as Hrest.
  { clear IH Hs. induction Hall as [|k' l Hk Hall IHl]; [constructor|].
    simpl. rewrite map_app. apply Forall_app. split; [|done].
    induction (g k') as [|v vs IHv]; [constructor|]. by constructor. }
  induction (length (g k)) as [|n IHn]; [done|].
  simpl. constructor; [done|].
  apply Forall_app. split; [|done]. apply Forall_replicate. reflexivity.
Qed.

Lemma header_fields_of_key (h : Header) k :
  map snd (filter (fun f : string * string => fst f = k) (header_fields h))
  = if ValidHeaderFieldName k then map wire_value (default [] (h !! k)) else [].
Proof.
  unfold header_fields.
  set (keys := merge_sort String.le (map fst (map_to_list h))).
  assert (NoDup keys) as Hnd.
  { unfold keys. rewrite merge_sort_Permutation. apply NoDup_fst_map_to_list. }
  assert (forall k', k' ∈ keys <-> is_Some (h !! k')) as Hkeys.
  { intros k'. unfold keys. rewrite merge_sort_Permutation.
    rewrite list_elem_of_fmap. split.
    - intros ([k0 vs] & -> & Hin%elem_of_map_to_list). by exists vs.
    - intros [vs Hvs]. exists (k', vs). split; [done|].
      by apply elem_of_map_to_list. }
  assert (forall l : list string,
    flat_map (fun k' => map (fun v => (k', wire_value v)) (default [] (h !! k'))) l
    = flat_map (fun k' => map (fun v => (k', v))
                            (map wire_value (default [] (h !! k')))) l) as ->.
  { intros l. induction l as [|k' l IH]; [done|]. simpl. rewrite IH.
    by rewrite map_map. }
  rewrite filter_fields_of_key by by apply NoDup_filter.
  destruct (ValidHeaderFieldName k) eqn:Ev.
  - destruct (decide (k ∈ filter _ keys)) as [Hin|Hnin]; [done|].
    destruct (h !! k) as [vs|] eqn:Ek; [|done].
    exfalso. apply Hnin, list_elem_of_filter. split; [done|].
    apply Hkeys. by exists vs.
  - rewrite decide_False; [done|].
    intros [Hv _]%list_elem_of_filter. congruence.
Qed.

Lemma header_fields_sorted (h : Header) :
  StronglySorted String.le (map fst (header_fields h)).
Proof.
  unfold header_fields.
  assert (forall l : list string,
    flat_map (fun k' => map (fun v => (k', wire_value v)) (default [] (h !! k'))) l
    = flat_map (fun k' => map (fun v => (k', v))
                            (map wire_value (default [] (h !! k')))) l) as ->.
  { intros l. induction l as [|k' l IH]; [done|]. simpl. rewrite IH.
    by rewrite map_map. }
  apply sorted_fields.
  assert (forall l : list string,
            StronglySorted String.le l ->
            StronglySorted String.le
              (filter (fun k => ValidHeaderFieldName k = true) l)) as Hf.
  { induction 1 as [|k l Hs IH Hall]; [constructor|].
    rewrite filter_cons. destruct (decide _); [|done].
    constructor; [done|].
    apply Forall_forall. intros k' [_ Hin]%list_elem_of_filter.
    by eapply Forall_forall in Hall. }
  apply Hf, StronglySorted_merge_sort; apply _.
Qed.

(** ** The response writer of the client *)

Section ResponseWriter_properties.
Context `{!GoLib}.

Lemma WriteHeader_sent statusCode rw :
  headerSent (WriteHeader statusCode rw) = true.
Proof. unfold WriteHeader. by destruct (headerSent rw) eqn:E. Qed.

Lemma Write_sent b rw : headerSent (snd (Write b rw)) = true.
Proof.
  unfold Write; simpl. destruct (headerSent rw) eqn:E; [done|].
  apply WriteHeader_sent.
Qed.

Lemma WriteHeader_first statusCode rw :
  headerSent rw = false ->
  WriteHeader statusCode rw =
    {| w := w rw +:+ status_line statusCode
                 +:+ Header_Write (default ∅ (header rw)) +:+ CRLF;
       header := header rw; headerSent := true |}.
Proof. intros E. unfold WriteHeader. by rewrite E. Qed.

Lemma WriteHeader_again statusCode rw :
  headerSent rw = true -> WriteHeader statusCode rw = rw.
Proof. intros E. unfold WriteHeader. by rewrite E. Qed.

(** Once the headers are sent, calls only append the bytes of [Write]. *)
Lemma do_calls_sent cs rw :
  headerSent rw = true ->
  w (do_calls cs rw) = w rw +:+ bodies cs
  /\ headerSent (do_calls cs rw) = true.
Proof.
  revert rw. induction cs as [|c cs IH]; intros rw E; simpl.
  - by rewrite string_app_empty_r.
  - destruct c as [key value|statusCode|b]; simpl.
    + unfold ResponseWriter_Header.
      destruct (header rw) as [h|]; simpl;
        match goal with
        | |- context [do_calls cs ?r] => destruct (IH r E) as [-> ->]
        end; done.
    + rewrite WriteHeader_again by done. by apply IH.
    + unfold Write; simpl. rewrite E.
      match goal with
      | |- context [do_calls cs ?r] => destruct (IH r E) as [-> ->]
      end.
      simpl. by rewrite string_app_assoc.
Qed.

(** What a writer that has not sent its headers puts on the wire. *)
Lemma do_calls_unsent cs rw :
  headerSent rw = false ->
  w (do_calls cs rw) =
    match first_status cs with
    | None => w rw
    | Some statusCode =>
        w rw +:+ status_line statusCode
             +:+ Header_Write (default ∅ (header_at_first cs (header rw)))
             +:+ CRLF +:+ bodies cs
    end.
Proof.
  revert rw. induction cs as [|c cs IH]; intros rw E; [done|].
  change (do_calls (c :: cs) rw) with (do_calls cs (do_call c rw)).
  destruct c as [key value|statusCode|b].
  - assert (headerSent (do_call (CallHeaderAdd key value) rw) = false) as E1.
    { simpl. unfold ResponseWriter_Header. by destruct (header rw). }
    rewrite IH by done.
    assert (w (do_call (CallHeaderAdd key value) rw) = w rw) as ->.
    { simpl. unfold ResponseWriter_Header. by destruct (header rw). }
    assert (header (do_call (CallHeaderAdd key value) rw)
            = Some (Header_Add (default ∅ (header rw)) key value)) as ->.
    { simpl. unfold ResponseWriter_Header. by destruct (header rw). }
    done.
  - destruct (do_calls_sent cs (do_call (CallWriteHeader statusCode) rw)) as [-> _];
      [apply WriteHeader_sent|].
    simpl. rewrite WriteHeader_first by done. simpl.
    by rewrite !string_app_assoc.
  - destruct (do_calls_sent cs (do_call (CallWrite b) rw)) as [-> _];
      [apply Write_sent|].
    simpl. rewrite E, WriteHeader_first by done. simpl.
    by rewrite !string_app_assoc.
Qed.


(** C8, as the code has it.  Whatever calls a handler makes on a new
    response writer, nothing is written before its first [Write] or
    [WriteHeader]; from then on the bytes on the wire are the status line
    [HTTP/1.1 <code> <reason>\r\n] (the code of that first call, 200 when it
    is a [Write]), the header block, the blank line, and the bytes given to
    [Write] in their order.  The header block is one line [Key: Value\r\n]
    per field of the header map as it was at that call (the map the calls
    of [Header().Add] before it built), and the fields are these: the keys
    that are valid field names, in increasing order, each with its values in
    their order; a key that is no valid field name has no line.  A value is
    written with its line breaks replaced by spaces and without the white
    space around it. *)
Theorem ResponseWriter_wire_format :
  (forall cs h,
      w (do_calls cs {| w := ""; header := h; headerSent := false |}) =
        match first_status cs with
        | None => ""
        | Some statusCode =>
            ("HTTP/1.1 " +:+ pretty statusCode +:+ " " +:+ StatusText statusCode +:+ CRLF)
            +:+ string_concat
                  (map (fun f => fst f +:+ ": " +:+ snd f +:+ CRLF)
                       (header_fields (default ∅ (header_at_first cs h))))
            +:+ CRLF +:+ bodies cs
        end)
  /\ (forall b cs, first_status (CallWrite b :: cs) = Some 200)
  /\ (forall statusCode cs,
         first_status (CallWriteHeader statusCode :: cs) = Some statusCode)
  /\ (forall b cs h, header_at_first (CallWrite b :: cs) h = h)
  /\ (forall statusCode cs h,
         header_at_first (CallWriteHeader statusCode :: cs) h = h)
  /\ (forall (h : Header) k,
         map snd (filter (fun f : string * string => fst f = k) (header_fields h))
         = if ValidHeaderFieldName k then map wire_value (default [] (h !! k))
           else [])
  /\ (forall h : Header, StronglySorted String.le (map fst (header_fields h)))
  /\ (forall v, exists l r,
         string_map newline_to_space v = l +:+ wire_value v +:+ r
         /\ string_forallb is_ascii_space l = true
         /\ string_forallb is_ascii_space r = true
         /\ (forall c s, wire_value v = String c s -> is_ascii_space c = false)
         /\ (forall c s, wire_value v = s +:+ String c "" ->
                         is_ascii_space c = false))
  /\ (first_status [] = None
      /\ forall key value cs,
          first_status (CallHeaderAdd key value :: cs) = first_status cs)
  /\ (forall key value cs h,
         header_at_first (CallHeaderAdd key value :: cs) h
         = header_at_first cs (Some (Header_Add (default ∅ h) key value)))
  /\ (bodies [] = ""
      /\ (forall b cs, bodies (CallWrite b :: cs) = b +:+ bodies cs)
      /\ (forall key value cs, bodies (CallHeaderAdd key value :: cs) = bodies cs)
      /\ (forall statusCode cs,
             bodies (CallWriteHeader statusCode :: cs) = bodies cs)).
Proof.
  split; [|split; [done|split; [done|split; [done|split; [done|]]]]].
  - intros cs h. rewrite do_calls_unsent by done. simpl.
    destruct (first_status cs); done.
  - split; [apply header_fields_of_key|].
    split; [apply header_fields_sorted|].
    split; [intros v; apply TrimString_spec|].
    done.
Qed.

End ResponseWriter_properties.

(** ** Headers *)

Lemma Header_Get_Add_fresh (h : Header) key value :
  h !! CanonicalMIMEHeaderKey key = None ->
  Header_Get (Header_Add h key value) key = value.
Proof.
  intros E. unfold Header_Get, Header_Add.
  by rewrite lookup_insert_eq, E.
Qed.

(** [Get] finds a value added under another spelling of the key. *)
Lemma Header_Get_Add_canonical (h : Header) key key' value :
  CanonicalMIMEHeaderKey key = CanonicalMIMEHeaderKey key' ->
  h !! CanonicalMIMEHeaderKey key = None ->
  Header_Get (Header_Add h key value) key' = value.
Proof.
  intros Ek E. unfold Header_Get, Header_Add.
  by rewrite <- Ek, lookup_insert_eq, E.
Qed.

Lemma Header_Get_Add_ne (h : Header) key value key' :
  CanonicalMIMEHeaderKey key <> CanonicalMIMEHeaderKey key' ->
  Header_Get (Header_Add h key value) key' = Header_Get h key'.
Proof.
  intros E. unfold Header_Get, Header_Add.
  by rewrite lookup_insert_ne.
Qed.

Lemma Header_Add_lookup (h : Header) key value :
  Header_Add h key value !! CanonicalMIMEHeaderKey key
  = Some (default [] (h !! CanonicalMIMEHeaderKey key) ++ [value]).
Proof. unfold Header_Add. by rewrite lookup_insert_eq. Qed.

Lemma Header_present_Add (h : Header) key value :
  Header_present (Header_Add h key value) key = true.
Proof.
  unfold Header_present. rewrite Header_Add_lookup.
  by destruct (default [] (h !! CanonicalMIMEHeaderKey key)).
Qed.

(** ** The client loop *)

Section Client_properties.
Context `{!GoLib} {T : Type}.
Variable Do : HTTPRequest -> T -> (HTTPResponse + error) * T.
Variable url : string.
Variable handler : HTTPRequest -> list call.

Lemma next_poll_session sessionID :
  Header_Get (req_Header (next_poll url sessionID)) "X-Session" = sessionID.
Proof.
  unfold next_poll, req_Header_Add, NewRequest; simpl.
  apply Header_Get_Add_fresh.
  unfold Header_Add. by rewrite lookup_insert_ne.
Qed.

Lemma serve_loop_S n resp t :
  serve_loop Do url handler (S n) resp t =
    match iteration url handler resp with
    | Return err => (Some err, t)
    | Post req =>
        match Do req t with
        | (inl resp1, t1) => serve_loop Do url handler n resp1 t1
        | (inr err, t1) => (Some err, t1)
        end
    end.
Proof. reflexivity. Qed.

Lemma iteration_204 resp :
  resp_StatusCode resp = 204 ->
  iteration url handler resp
  = Post (next_poll url (Header_Get (resp_Header resp) "X-Session")).
Proof. intros E. unfold iteration. by rewrite E. Qed.

Lemma iteration_410 resp :
  resp_StatusCode resp = 410 ->
  iteration url handler resp = Return ErrSessionClosed.
Proof. intros E. unfold iteration. by rewrite E. Qed.

Lemma iteration_200 resp :
  resp_StatusCode resp = 200 ->
  iteration url handler resp
  = decode_and_serve url handler (Header_Get (resp_Header resp) "X-Session") resp.
Proof. intros E. unfold iteration. by rewrite E. Qed.

Lemma iteration_other resp :
  resp_StatusCode resp <> 204 -> resp_StatusCode resp <> 410 ->
  resp_StatusCode resp <> 200 ->
  iteration url handler resp = Return (ErrStatus (resp_Status resp)).
Proof.
  intros E1 E2 E3. unfold iteration, StatusNoContent, StatusGone, StatusOK.
  destruct (Z.eqb_spec (resp_StatusCode resp) 204); [done|].
  destruct (Z.eqb_spec (resp_StatusCode resp) 410); [done|].
  destruct (Z.eqb_spec (resp_StatusCode resp) 200); done.
Qed.

(** C6. What the loop of [ConnectAndServe] does with a poll response.  On
    status 204 it posts again: a POST to the same url with no body whose
    header [X-Session] is the id stored from the response (and the loop goes
    on with the response to that POST, or returns the transport's error).  On
    status 410 it returns [ErrSessionClosed] without posting.  On any other
    status that is not 200 it returns an error whose message is the status
    line of the response.  Only on status 200 does it decode a tunnelled
    request from the body: on 200 it reads the body with [ReadRequest] and
    returns the decoding error, or posts what the handler writes for the
    decoded request; on every other status the body of the response has no
    part in what the loop does. *)
Theorem ConnectAndServe_status_dispatch (resp : HTTPResponse) :
  let sessionID := Header_Get (resp_Header resp) "X-Session" in
  (resp_StatusCode resp = 204 ->
     iteration url handler resp = Post (next_poll url sessionID)
     /\ req_Method (next_poll url sessionID) = "POST"
     /\ req_URL (next_poll url sessionID) = url
     /\ req_Body (next_poll url sessionID) = None
     /\ Header_Get (req_Header (next_poll url sessionID)) "X-Session" = sessionID
     /\ forall n t,
          serve_loop Do url handler (S n) resp t =
            match Do (next_poll url sessionID) t with
            | (inl resp1, t1) => serve_loop Do url handler n resp1 t1
            | (inr err, t1) => (Some err, t1)
            end)
  /\ (resp_StatusCode resp = 410 ->
        iteration url handler resp = Return ErrSessionClosed
        /\ forall n t,
             serve_loop Do url handler (S n) resp t = (Some ErrSessionClosed, t))
  /\ (resp_StatusCode resp <> 204 -> resp_StatusCode resp <> 410 ->
      resp_StatusCode resp <> 200 ->
        iteration url handler resp = Return (ErrStatus (resp_Status resp))
        /\ error_message (ErrStatus (resp_Status resp)) = resp_Status resp
        /\ forall n t,
             serve_loop Do url handler (S n) resp t
             = (Some (ErrStatus (resp_Status resp)), t))
  /\ (resp_StatusCode resp = 200 ->
        iteration url handler resp = decode_and_serve url handler sessionID resp
        /\ (forall err,
               ReadRequest (resp_Body resp) = inr err ->
               iteration url handler resp = Return err
               /\ forall n t,
                    serve_loop Do url handler (S n) resp t = (Some err, t))
        /\ (forall serverReq,
               ReadRequest (resp_Body resp) = inl serverReq ->
               let post := response_poll url handler sessionID serverReq in
               iteration url handler resp = Post post
               /\ req_Body post
                  = Some (w (do_calls (handler serverReq) new_ResponseWriter))
               /\ forall n t,
                    serve_loop Do url handler (S n) resp t =
                      match Do post t with
                      | (inl resp1, t1) => serve_loop Do url handler n resp1 t1
                      | (inr err, t1) => (Some err, t1)
                      end))
  /\ (forall next_request,
        iteration url handler resp = Post next_request ->
        resp_StatusCode resp = 204 \/ resp_StatusCode resp = 200)
  /\ (resp_StatusCode resp <> 200 ->
      forall body,
        iteration url handler
          {| resp_StatusCode := resp_StatusCode resp;
             resp_Status := resp_Status resp;
             resp_Header := resp_Header resp;
             resp_Body := body |}
        = iteration url handler resp).
Proof.
  intros sessionID. split; [|split; [|split; [|split; [|split]]]].
  - intros E. rewrite iteration_204 by done. fold sessionID.
    split; [done|]. split; [done|]. split; [done|]. split; [done|].
    split; [apply next_poll_session|].
    intros n t. rewrite serve_loop_S, iteration_204 by done. done.
  - intros E. rewrite iteration_410 by done. split; [done|].
    intros n t. by rewrite serve_loop_S, iteration_410.
  - intros E1 E2 E3. rewrite iteration_other by done.
    split; [done|]. split; [done|].
    intros n t. by rewrite serve_loop_S, iteration_other.
  - intros E. rewrite iteration_200 by done. fold sessionID.
    split; [done|]. unfold decode_and_serve. split.
    + intros err Er. rewrite Er. split; [done|].
      intros n t. rewrite serve_loop_S, iteration_200 by done.
      unfold decode_and_serve. by rewrite Er.
    + intros serverReq Er. rewrite Er. split; [done|]. split; [done|].
      intros n t. rewrite serve_loop_S, iteration_200 by done.
      unfold decode_and_serve. by rewrite Er.
  - intros next_request.
    destruct (decide (resp_StatusCode resp = 204)) as [|E1]; [auto|].
    destruct (decide (resp_StatusCode resp = 200)) as [|E2]; [auto|].
    destruct (decide (resp_StatusCode resp = 410)) as [E3|E3].
    + by rewrite iteration_410.
    + by rewrite iteration_other.
  - intros E body.
    destruct (decide (resp_StatusCode resp = 204)) as [E1|E1];
      [by rewrite !iteration_204|].
    destruct (decide (resp_StatusCode resp = 410)) as [E2|E2];
      [by rewrite !iteration_410|].
    by rewrite !iteration_other.
Qed.

End Client_properties.

(** ** The poll handler: timeout resolution *)

Section Timeout_properties.
Context `{!GoLib}.

Lemma clamp_timeout_value s timeout h :
  fst (clamp_timeout s timeout h)
  = Z.max (LongPollMinTimeout s) (Z.min timeout (LongPollMaxTimeout s)).
Proof.
  unfold clamp_timeout.
  destruct (Z.ltb_spec (LongPollMaxTimeout s) timeout);
    match goal with
    | |- context [?a <? LongPollMinTimeout s] =>
        destruct (Z.ltb_spec a (LongPollMinTimeout s))
    end; simpl; lia.
Qed.

(** The header map after the two [if]s, case by case. *)
Lemma clamp_timeout_header s timeout h :
  snd (clamp_timeout s timeout h) =
    let h1 := if LongPollMaxTimeout s <? timeout
              then Header_Add h "X-Warning" (warning_high (LongPollMaxTimeout s))
              else h in
    if Z.min timeout (LongPollMaxTimeout s) <? LongPollMinTimeout s
    then Header_Add h1 "X-Warning" (warning_low (LongPollMinTimeout s))
    else h1.
Proof.
  unfold clamp_timeout.
  destruct (Z.ltb_spec (LongPollMaxTimeout s) timeout).
  - rewrite Z.min_r by lia.
    by destruct (LongPollMaxTimeout s <? LongPollMinTimeout s).
  - rewrite Z.min_l by lia.
    by destruct (timeout <? LongPollMinTimeout s).
Qed.

Lemma candidate_timeout_cases reqh :
  candidate_timeout reqh =
    if decide (Header_Get reqh "X-Timeout" = "") then Some Minute
    else ParseDuration (Header_Get reqh "X-Timeout").
Proof. reflexivity. Qed.

(** C9. For a poll whose candidate timeout is [cand] (the parsed header
    [X-Timeout], or one minute when [Header.Get] gives the empty string: the
    header is absent or empty), the wait is [cand] capped at
    [LongPollMaxTimeout] and then raised to [LongPollMinTimeout].  Hence a
    poll without the header gets a warning when one minute is outside
    [min, max]; and when [min > max] the wait is [min], with both warnings,
    the high one first, when the candidate exceeds [max]. *)
Theorem effective_timeout_cap_then_raise (s : Server) (reqh h : Header)
    (cand : Duration) :
  candidate_timeout reqh = Some cand ->
  let min := LongPollMinTimeout s in
  let max := LongPollMaxTimeout s in
  exists h',
    poll_timeout s reqh h = inr (Z.max min (Z.min cand max), h')
    /\ (Header_Get reqh "X-Timeout" = "" -> cand = Minute)
    /\ (Header_Get reqh "X-Timeout" <> "" ->
        ParseDuration (Header_Get reqh "X-Timeout") = Some cand)
    /\ (min <= cand <= max -> h' = h)
    /\ (cand < min \/ max < cand -> Header_present h' "X-Warning" = true)
    /\ (Header_Get reqh "X-Timeout" = "" -> Minute < min \/ max < Minute ->
        Header_present h' "X-Warning" = true)
    /\ (max < min -> Z.max min (Z.min cand max) = min)
    /\ (max < min -> max < cand ->
        h' = Header_Add (Header_Add h "X-Warning" (warning_high max))
               "X-Warning" (warning_low min)).
Proof.
  intros Hc min max.
  exists (snd (clamp_timeout s cand h)).
  assert (Hw : cand < min \/ max < cand ->
               Header_present (snd (clamp_timeout s cand h)) "X-Warning" = true).
  { intros Hout. rewrite clamp_timeout_header. simpl. fold min max.
    destruct (Z.ltb_spec max cand);
      destruct (Z.ltb_spec (Z.min cand max) min);
      try apply Header_present_Add; lia. }
  assert (Hp : poll_timeout s reqh h = inr (clamp_timeout s cand h)).
  { unfold poll_timeout. by rewrite Hc. }
  rewrite candidate_timeout_cases in Hc.
  split; [|split; [|split; [|split; [|split; [|split; [|split]]]]]].
  - rewrite Hp. f_equal. unfold min, max.
    rewrite <- (clamp_timeout_value s cand h).
    by destruct (clamp_timeout s cand h).
  - intros E. destruct (decide (Header_Get reqh "X-Timeout" = "")); congruence.
  - intros E. by destruct (decide (Header_Get reqh "X-Timeout" = "")).
  - intros Hin. rewrite clamp_timeout_header. simpl. fold min max.
    destruct (Z.ltb_spec max cand); [lia|].
    destruct (Z.ltb_spec (Z.min cand max) min); [lia|done].
  - exact Hw.
  - intros E Hout. apply Hw.
    destruct (decide (Header_Get reqh "X-Timeout" = "")); [|done].
    assert (cand = Minute) as -> by congruence. done.
  - lia.
  - intros Hmm Hhigh. rewrite clamp_timeout_header. simpl. fold min max.
    destruct (Z.ltb_spec max cand); [|lia].
    destruct (Z.ltb_spec (Z.min cand max) min); [done|lia].
Qed.

(** C4, as the code has it.  When [r.Header.Get("X-Timeout")] is not the
    empty string and does not parse as a duration, the poll is answered
    [400] with the header [X-Error: cannot parse duration in X-Timeout
    header].  Otherwise the candidate (the parsed value, or one minute when
    the header is absent or its first value is empty) is capped at the
    maximum and then raised to the minimum; when [min <= max] this is the
    clamp to [min, max]: a candidate above [max] gives [max] and adds the
    warning [timeout value too high, forcing to maximum <max>], a candidate
    below [min] gives [min] and adds [timeout value too low, forcing to
    minimum <min>], and a candidate in range is kept with no warning. *)
Theorem poll_timeout_clamps (s : Server) (reqh h : Header) :
  let timeoutStr := Header_Get reqh "X-Timeout" in
  let min := LongPollMinTimeout s in
  let max := LongPollMaxTimeout s in
  (timeoutStr <> "" -> ParseDuration timeoutStr = None ->
     exists resp,
       poll_timeout s reqh h = inl resp
       /\ resp_StatusCode resp = 400
       /\ resp_Header resp
          = Header_Add h "X-Error" "cannot parse duration in X-Timeout header")
  /\ (forall cand,
        (timeoutStr = "" /\ cand = Minute)
        \/ (timeoutStr <> "" /\ ParseDuration timeoutStr = Some cand) ->
        min <= max ->
        (max < cand ->
           poll_timeout s reqh h
           = inr (max, Header_Add h "X-Warning"
                         ("timeout value too high, forcing to maximum "
                          +:+ Duration_String max)))
        /\ (cand < min ->
              poll_timeout s reqh h
              = inr (min, Header_Add h "X-Warning"
                            ("timeout value too low, forcing to minimum "
                             +:+ Duration_String min)))
        /\ (min <= cand <= max -> poll_timeout s reqh h = inr (cand, h))).
Proof.
  intros timeoutStr min max. split.
  - intros Hne Hparse.
    assert (Hc : candidate_timeout reqh = None).
    { rewrite candidate_timeout_cases. fold timeoutStr.
      by destruct (decide (timeoutStr = "")). }
    unfold poll_timeout. rewrite Hc. eexists. split; [reflexivity|]. done.
  - intros cand Hcand Hmm.
    assert (Hc : candidate_timeout reqh = Some cand).
    { rewrite candidate_timeout_cases. fold timeoutStr.
      destruct Hcand as [[-> ->]|[Hne Hp]]; [done|].
      by destruct (decide (timeoutStr = "")). }
    unfold poll_timeout. rewrite Hc.
    rewrite (surjective_pairing (clamp_timeout s cand h)).
    rewrite clamp_timeout_value, clamp_timeout_header. simpl. fold min max.
    split; [|split]; intros Hcase.
    + destruct (Z.ltb_spec max cand); [|lia].
      destruct (Z.ltb_spec (Z.min cand max) min); [lia|].
      f_equal. f_equal. lia.
    + destruct (Z.ltb_spec max cand); [lia|].
      destruct (Z.ltb_spec (Z.min cand max) min); [|lia].
      f_equal. f_equal. lia.
    + destruct (Z.ltb_spec max cand); [lia|].
      destruct (Z.ltb_spec (Z.min cand max) min); [lia|].
      f_equal. f_equal. lia.
Qed.

End Timeout_properties.

(** ** The poll handler: structure *)

Section Handler_properties.
Context `{!GoLib}.

Lemma deref_Some hp p session :
  hp !! p = Some session -> deref hp p = Done session.
Proof. intros E. unfold deref. by rewrite E. Qed.

Lemma deref_Done hp p session :
  deref hp p = Done session -> hp !! p = Some session.
Proof. unfold deref. by destruct (hp !! p); intros [=->]. Qed.

Lemma Done_bind {A B} (a : A) (f : A -> outcome B) : Done a ≫= f = f a.
Proof. reflexivity. Qed.

Lemma bind_Done {A B} (m : outcome A) (f : A -> outcome B) b :
  m ≫= f = Done b -> exists a, m = Done a /\ f a = Done b.
Proof. destruct m; [eauto|done|done]. Qed.

(** What the response drain leaves: the pending slot is emptied when the
    handler goes on, and the session is untouched when it answers [400]. *)
Lemma drain_response_Done body session ch go session' ch' :
  drain_response body session ch = Done (go, session', ch') ->
  handlerMu session' = handlerMu session
  /\ Requests session' = Requests session
  /\ closed session' = closed session
  /\ closer session' = closer session
  /\ (go = true -> PendingRequest session' = None)
  /\ (go = false -> session' = session /\ is_Some (PendingRequest session)).
Proof.
  unfold drain_response.
  destruct (PendingRequest session) as [pending|] eqn:Ep.
  - destruct (ReadResponse body (Request_HTTP pending)) as [resp|err].
    + intros (ch1 & _ & (ch2 & _ & [= <- <- <-])%bind_Done)%bind_Done.
      repeat split; done.
    + intros (ch1 & _ & [= <- <- <-])%bind_Done.
      repeat split; rewrite ?Ep; done.
  - intros [= <- <- <-]. repeat split; done.
Qed.

Lemma bind_session_cases uuid r st :
  let s := doInit_Do (srv st) in
  let sessionID := Header_Get (req_Header r) "X-Session" in
  (exists p,
      sessions s !! sessionID = Some p
      /\ bind_session uuid r st
         = (sessionID, p,
            {| srv := s; heap := heap st; chans := chans st;
               connects := connects st |}))
  \/ (sessions s !! sessionID = None
      /\ bind_session uuid r st
         = (uuid, length (heap st),
            {| srv := set_sessions (<[uuid := length (heap st)]> (sessions s)) s;
               heap := heap st ++ [newSession]; chans := chans st;
               connects := if OnConnect s then connects st ++ [length (heap st)]
                           else connects st |})).
Proof.
  intros s sessionID. unfold bind_session. fold s sessionID.
  destruct (sessions s !! sessionID) as [p|]; [left; eauto|right; eauto].
Qed.

(** Binding keeps the sessions there are, and binds a new session only at
    a new pointer. *)
Lemma bind_session_heap uuid r st sessionID p st1 :
  bind_session uuid r st = (sessionID, p, st1) ->
  chans st1 = chans st
  /\ (forall q session, heap st !! q = Some session -> heap st1 !! q = Some session)
  /\ (forall q, q <> length (heap st) -> heap st1 !! q = heap st !! q)
  /\ (p = length (heap st)
      \/ sessions (doInit_Do (srv st)) !! Header_Get (req_Header r) "X-Session"
         = Some p /\ heap st1 = heap st).
Proof.
  destruct (bind_session_cases uuid r st) as [(p' & Ep & ->)|[Ep ->]];
    intros [= <- <- <-]; simpl.
  - repeat split; auto.
  - split; [done|]. split; [|split; [|by left]].
    + intros q session E. by apply lookup_app_l_Some.
    + intros q Hq. destruct (decide (q < length (heap st))%nat).
      * by rewrite lookup_app_l.
      * rewrite !lookup_ge_None_2; [done|lia|rewrite length_app; simpl; lia].
Qed.

(** Every way [poll_locked] completes. *)
Lemma poll_locked_Done sessionID p r st1 b st' :
  poll_locked sessionID p r st1 = Done (b, st') ->
  exists session go session' ch,
    heap st1 !! p = Some session
    /\ handlerMu session = false
    /\ drain_response (default "" (req_Body r))
         (set_closer (idle_timer st1 sessionID) session) (chans st1)
       = Done (go, session', ch)
    /\ srv st' = srv st1 /\ chans st' = ch /\ connects st' = connects st1
    /\ ((go = false
         /\ b = Answered (answer StatusBadRequest (Header_Add ∅ "X-Session" sessionID) "")
         /\ heap st' = <[p := session']> (heap st1))
        \/ (go = true
            /\ exists bad,
                poll_timeout (srv st1) (req_Header r) (Header_Add ∅ "X-Session" sessionID)
                = inl bad
                /\ b = Answered bad
                /\ heap st' = <[p := session']> (heap st1))
        \/ (go = true
            /\ exists timeout h_ok,
                poll_timeout (srv st1) (req_Header r) (Header_Add ∅ "X-Session" sessionID)
                = inr (timeout, h_ok)
                /\ b = Selecting {| sel_session := p; sel_timeout := timeout;
                                    sel_header := h_ok |}
                /\ heap st' = <[p := set_handlerMu true session']> (heap st1))).
Proof.
  unfold poll_locked.
  intros (session & Es%deref_Done & Hrest)%bind_Done.
  destruct (handlerMu session) eqn:Emu; [done|].
  apply bind_Done in Hrest as ([[go session'] ch] & Ed & Hrest).
  exists session, go, session', ch.
  split; [done|]. split; [done|]. split; [exact Ed|].
  destruct go.
  - destruct (poll_timeout (srv st1) (req_Header r)
                (Header_Add ∅ "X-Session" sessionID)) as [bad|[timeout h_ok]] eqn:Et;
      injection Hrest as <- <-; simpl.
    + repeat split; try done. right; left. eauto.
    + repeat split; try done. right; right. eauto 6.
  - injection Hrest as <- <-; simpl. repeat split; try done. left. eauto.
Qed.

(** Every way [poll_begin] completes. *)
Lemma poll_begin_Done uuid r st b st' :
  poll_begin uuid r st = Done (b, st') ->
  exists sessionID p st1,
    bind_session uuid r st = (sessionID, p, st1)
    /\ poll_locked sessionID p r st1 = Done (b, st').
Proof.
  unfold poll_begin.
  destruct (bind_session uuid r st) as [[sessionID p] st1] eqn:Eb. eauto.
Qed.

(** Polls answered before the [select] are answered [400]. *)
Lemma poll_locked_Answered sessionID p r st resp st' :
  poll_locked sessionID p r st = Done (Answered resp, st') ->
  resp_StatusCode resp = 400.
Proof.
  intros (session & go & session' & ch & _ & _ & _
          & _ & _ & _ & Hcase)%poll_locked_Done.
  destruct Hcase as [(_ & [= ->] & _)|[(_ & bad & Et & [= ->] & _)|(_ & ? & ? & _ & ? & _)]];
    [done| |done].
  unfold poll_timeout in Et.
  destruct (candidate_timeout (req_Header r)); [done|]. by injection Et as <-.
Qed.

(** A poll that reaches its [select] holds the lock of its session, whose
    pending slot is empty. *)
Lemma poll_locked_Selecting sessionID p r st k st' :
  poll_locked sessionID p r st = Done (Selecting k, st') ->
  sel_session k = p /\ held p (heap st').
Proof.
  intros (session & go & session' & ch & Es & _ & Ed
          & _ & _ & _ & Hcase)%poll_locked_Done.
  destruct Hcase as [(_ & [=] & _)|[(_ & bad & _ & [=] & _)|(-> & timeout & h_ok & _ & [= ->] & ->)]].
  simpl. split; [done|]. exists (set_handlerMu true session').
  apply drain_response_Done in Ed as (_ & _ & _ & _ & Hp & _).
  split; [|split; [done|by apply Hp]].
  apply list_lookup_insert_eq. by eapply lookup_lt_Some.
Qed.

(** What a poll brings to its [select]: the wait and the header map that
    the timeout resolution gave. *)
Lemma poll_locked_timeout sessionID p r st k st' :
  poll_locked sessionID p r st = Done (Selecting k, st') ->
  poll_timeout (srv st) (req_Header r) (Header_Add ∅ "X-Session" sessionID)
  = inr (sel_timeout k, sel_header k).
Proof.
  intros (session & go & session' & ch & _ & _ & _
          & _ & _ & _ & Hcase)%poll_locked_Done.
  by destruct Hcase as [(_ & [=] & _)|[(_ & bad & _ & [=] & _)|(_ & timeout & h_ok & Et & [= ->] & _)]].
Qed.

End Handler_properties.

(** ** The poll handler: the rendezvous *)

Section Rendezvous_properties.
Context `{!GoLib}.

Lemma fmap_snd_Done {A B} (m : outcome (A * B)) b :
  snd <$> m = Done b -> exists a, m = Done (a, b).
Proof. destruct m as [[a b']| |]; [|done|done]. intros [= ->]. eauto. Qed.

Lemma poll_select_timer tf k st session :
  heap st !! sel_session k = Some session ->
  select_case tf (Requests session) = SelTimer ->
  poll_select tf k st =
    Done (answer StatusNoContent (sel_header k) "",
          set_heap (<[sel_session k := set_handlerMu false session]> (heap st))
            (chans st) st).
Proof.
  intros Es Ec. unfold poll_select.
  rewrite (deref_Some _ _ _ Es), Done_bind. by rewrite Ec.
Qed.

Lemma poll_select_closed tf k st session :
  heap st !! sel_session k = Some session ->
  select_case tf (Requests session) = SelClosed ->
  poll_select tf k st =
    Done (answer StatusGone (sel_header k) "",
          set_heap (<[sel_session k := set_handlerMu false session]> (heap st))
            (chans st) st).
Proof.
  intros Es Ec. unfold poll_select.
  rewrite (deref_Some _ _ _ Es), Done_bind. by rewrite Ec.
Qed.

Lemma poll_select_request tf k st session req rest written :
  heap st !! sel_session k = Some session ->
  select_case tf (Requests session) = SelRequest req rest ->
  Request_Write (Request_HTTP req) = (written, None) ->
  poll_select tf k st =
    Done (answer StatusOK
            (Header_Add (sel_header k) "Content-type" "application/x-http-request")
            written,
          set_heap
            (<[sel_session k :=
                 set_handlerMu false
                   (set_PendingRequest (Some req) (set_Requests rest session))]>
               (heap st))
            (chans st) st).
Proof.
  intros Es Ec Ew. unfold poll_select.
  rewrite (deref_Some _ _ _ Es), Done_bind. by rewrite Ec, Ew.
Qed.

Lemma poll_select_write_error tf k st session req rest written err :
  heap st !! sel_session k = Some session ->
  select_case tf (Requests session) = SelRequest req rest ->
  Request_Write (Request_HTTP req) = (written, Some err) ->
  poll_select tf k st =
    ch1 ← chan_send (Request_Response req)
            {| Response_Err := Some err; Response_HTTP := None |} (chans st);
    mret (answer StatusOK
            (Header_Add (sel_header k) "Content-type" "application/x-http-request")
            written,
          set_heap
            (<[sel_session k := set_handlerMu false (set_Requests rest session)]>
               (heap st))
            ch1 st).
Proof.
  intros Es Ec Ew. unfold poll_select.
  rewrite (deref_Some _ _ _ Es), Done_bind. by rewrite Ec, Ew.
Qed.

(** A [select] touches the session of its handler only. *)
Lemma poll_select_heap tf k st resp st' :
  poll_select tf k st = Done (resp, st') ->
  exists session', heap st' = <[sel_session k := session']> (heap st).
Proof.
  unfold poll_select.
  intros (session & Es%deref_Done & Hrest)%bind_Done.
  destruct (select_case tf (Requests session)) as [|req rest|].
  - injection Hrest as <- <-. eauto.
  - destruct (Request_Write (Request_HTTP req)) as [written [err|]].
    + apply bind_Done in Hrest as (ch1 & _ & [= <- <-]). eauto.
    + injection Hrest as <- <-. eauto.
  - injection Hrest as <- <-. eauto.
Qed.

(** A [select] answered [204] or [410] leaves the pending slot as it was. *)
Lemma poll_select_quiet tf k st session resp st' :
  heap st !! sel_session k = Some session ->
  poll_select tf k st = Done (resp, st') ->
  resp_StatusCode resp = 204 \/ resp_StatusCode resp = 410 ->
  heap st' !! sel_session k = Some (set_handlerMu false session).
Proof.
  intros Es Hs Hcode.
  assert (Hlt : (sel_session k < length (heap st))%nat) by by eapply lookup_lt_Some.
  destruct (select_case tf (Requests session)) as [|req rest|] eqn:Ec.
  - rewrite (poll_select_timer _ _ _ _ Es Ec) in Hs. injection Hs as <- <-.
    simpl. by apply list_lookup_insert_eq.
  - destruct (Request_Write (Request_HTTP req)) as [written [err|]] eqn:Ew.
    + rewrite (poll_select_write_error _ _ _ _ _ _ _ _ Es Ec Ew) in Hs.
      apply bind_Done in Hs as (ch1 & _ & [= <- <-]).
      simpl in Hcode. unfold StatusOK in Hcode. lia.
    + rewrite (poll_select_request _ _ _ _ _ _ _ Es Ec Ew) in Hs.
      injection Hs as <- <-. simpl in Hcode. unfold StatusOK in Hcode. lia.
  - rewrite (poll_select_closed _ _ _ _ Es Ec) in Hs. injection Hs as <- <-.
    simpl. by apply list_lookup_insert_eq.
Qed.

End Rendezvous_properties.

(** ** The pending slot while a poll waits *)

Section Interference.
Context `{!GoLib}.

Lemma RoundTrip_Done r s ch res s1 ch1 :
  RoundTrip r s ch = Done (res, s1, ch1) ->
  handlerMu s1 = handlerMu s /\ PendingRequest s1 = PendingRequest s
  /\ closed s1 = closed s /\ closer s1 = closer s.
Proof.
  unfold RoundTrip. destruct (closed s) eqn:Ec.
  - by intros [= <- <- <-].
  - destruct (requests_closed (Requests s)); [done|].
    by intros [= <- <- <-].
Qed.

Lemma Close_Done s s1 :
  Close s = Done s1 ->
  closed s = false
  /\ s1 = set_Requests {| senders := []; requests_closed := true |}
            (set_closed true s).
Proof.
  unfold Close. destruct (closed s); [done|]. simpl.
  destruct (requests_closed (Requests s)); [done|].
  destruct (senders (Requests s)); [|done].
  by intros [= <-].
Qed.

Lemma held_insert p q hp s1 :
  held p hp ->
  (forall s, hp !! q = Some s ->
             handlerMu s1 = handlerMu s /\ PendingRequest s1 = PendingRequest s) ->
  held p (<[q := s1]> hp).
Proof.
  intros (session & Es & Emu & Ep) Hsame.
  destruct (decide (q = p)) as [->|Hne].
  - exists s1. destruct (Hsame _ Es) as [-> ->].
    split; [|done]. apply list_lookup_insert_eq. by eapply lookup_lt_Some.
  - exists session. by rewrite list_lookup_insert_ne.
Qed.

Lemma close_session_held p q st st' :
  close_session q st = Done st' -> held p (heap st) -> held p (heap st').
Proof.
  unfold close_session.
  intros (session & Es%deref_Done & (s1 & [_ ->]%Close_Done & [= <-])%bind_Done)%bind_Done.
  intros Hheld. simpl. apply held_insert; [done|].
  intros s Es'. by assert (s = session) as -> by congruence.
Qed.

(** No step of another goroutine changes the pending slot of a session
    whose poll handler is suspended in its [select], or releases its lock. *)
Lemma step_held p e st st' :
  other_than p e -> step e st = Done st' ->
  held p (heap st) -> held p (heap st').
Proof.
  intros Hother Hstep Hheld.
  assert (forall sessionID p' r st1 b,
            poll_locked sessionID p' r st1 = Done (b, st') ->
            held p (heap st1) -> held p (heap st')) as Hlocked.
  { intros sessionID p' r st1 b
      (session & go & session' & ch & Es & Emu & _ & _ & _ & _ & Hcase)%poll_locked_Done
      (s0 & Es0 & Emu0 & Ep0).
    assert (p' <> p) as Hne by (intros ->; congruence).
    assert (forall x, held p (<[p' := x]> (heap st1))) as Hins.
    { intros x. exists s0. rewrite list_lookup_insert_ne by done. auto. }
    destruct Hcase as [(_ & _ & ->)|[(_ & bad & _ & _ & ->)|(_ & ? & ? & _ & _ & ->)]];
      apply Hins. }
  destruct e as [q r|q|q|uuid r|sessionID q r|tf k]; simpl in Hstep.
  - apply fmap_snd_Done in Hstep as (res & Hstep). unfold submit in Hstep.
    apply bind_Done in Hstep as (session & Es%deref_Done & Hstep).
    apply bind_Done in Hstep as ([[res' s1] ch] & Hrt & [= _ <-]).
    apply RoundTrip_Done in Hrt as (Emu & Ep & _).
    simpl. apply held_insert; [done|].
    intros s Es'. by assert (s = session) as -> by congruence.
  - by eapply close_session_held.
  - apply bind_Done in Hstep as (session & _ & Hstep).
    destruct (closer session) as [t|]; [|by injection Hstep as <-].
    unfold closer_fires in Hstep.
    destruct (sessions (srv st) !! timer_sessionID t) as [p'|];
      [|by injection Hstep as <-].
    apply bind_Done in Hstep as (st1 & Hclose & [= <-]). simpl.
    by eapply close_session_held.
  - apply fmap_snd_Done in Hstep as (b & Hstep).
    apply poll_begin_Done in Hstep as (sessionID & p' & st1 & Eb & Hstep).
    apply bind_session_heap in Eb as (_ & Hkeep & _).
    eapply Hlocked; [done|].
    destruct Hheld as (s0 & Es0 & Emu0 & Ep0). exists s0. auto.
  - apply fmap_snd_Done in Hstep as (b & Hstep). by eapply Hlocked.
  - apply fmap_snd_Done in Hstep as (resp & Hstep).
    apply poll_select_heap in Hstep as (session' & ->).
    destruct Hheld as (s0 & Es0 & Emu0 & Ep0).
    exists s0. rewrite list_lookup_insert_ne by done. auto.
Qed.

Lemma run_held p es st st' :
  Forall (other_than p) es -> run es st = Done st' ->
  held p (heap st) -> held p (heap st').
Proof.
  intros Hes. revert st. induction Hes as [|e es He _ IH]; intros st Hrun Hheld.
  - by injection Hrun as <-.
  - simpl in Hrun. apply bind_Done in Hrun as (st1 & Hstep & Hrun).
    eapply IH; [done|]. by eapply step_held.
Qed.

(** C7. Whenever the poll handler answers [204] or [410], the pending slot
    of its session is empty.  Such an answer is given by the [select] only
    (a poll answered before its [select] is answered [400]); the handler,
    whatever session it was bound to, reached the [select] with the slot
    empty, and whatever the other goroutines did while it waited (submits,
    closes, idle timers, polls and selects of other handlers), the slot is
    still empty when it answers. *)
Theorem pending_empty_on_204_410 sessionID p r st0 :
  (forall resp st1,
      poll_locked sessionID p r st0 = Done (Answered resp, st1) ->
      resp_StatusCode resp = 400)
  /\ (forall k st1 es st2 timer_first resp st3,
         poll_locked sessionID p r st0 = Done (Selecting k, st1) ->
         Forall (other_than p) es ->
         run es st1 = Done st2 ->
         poll_select timer_first k st2 = Done (resp, st3) ->
         resp_StatusCode resp = 204 \/ resp_StatusCode resp = 410 ->
         sel_session k = p
         /\ PendingRequest <$> heap st3 !! p = Some None).
Proof.
  split; [apply poll_locked_Answered|].
  intros k st1 es st2 timer_first resp st3 Hb Hes Hrun Hs Hcode.
  apply poll_locked_Selecting in Hb as [Ek Hb]. split; [done|].
  destruct (run_held _ _ _ _ Hes Hrun Hb) as (session & Es & _ & Ep).
  rewrite <- Ek in Es |- *.
  rewrite (poll_select_quiet _ _ _ _ _ _ Es Hs Hcode). simpl. by rewrite Ep.
Qed.

End Interference.

(** ** The rendezvous, outcome by outcome *)

Section Rendezvous_outcomes.
Context `{!GoLib}.

Lemma clamp_timeout_no_content_type s timeout (h : Header) :
  h !! "Content-Type" = None ->
  snd (clamp_timeout s timeout h) !! "Content-Type" = None.
Proof.
  intros E. rewrite clamp_timeout_header. simpl.
  destruct (LongPollMaxTimeout s <? timeout);
    destruct (_ <? LongPollMinTimeout s);
    unfold Header_Add; rewrite ?lookup_insert_ne; done.
Qed.

(** The header map a poll brings to its [select] has no [Content-Type]. *)
Lemma poll_locked_no_content_type sessionID p r st k st' :
  poll_locked sessionID p r st = Done (Selecting k, st') ->
  sel_header k !! "Content-Type" = None.
Proof.
  intros Et%poll_locked_timeout. unfold poll_timeout in Et.
  destruct (candidate_timeout (req_Header r)) as [cand|]; [|done].
  injection Et as Et.
  replace (sel_header k)
    with (snd (clamp_timeout (srv st) cand (Header_Add ∅ "X-Session" sessionID)))
    by by rewrite Et.
  apply clamp_timeout_no_content_type.
  unfold Header_Add. by rewrite lookup_insert_ne.
Qed.

Lemma chan_send_waiting c v ch :
  ch !! c = Some make_reply_chan ->
  chan_send c v ch = Done (<[c := {| received := [v]; reply_closed := false |}]> ch).
Proof. intros E. unfold chan_send. by rewrite E. Qed.

(** C5, as the code has it.  A poll that has reached its [select] is
    answered in exactly one of these ways, according to the case of the
    [select] that runs.  The timer: [204 No Content].  [Requests] closed:
    [410 Gone].  A pending-originator received from [Requests]: [200 OK]
    with the header [Content-Type: application/x-http-request] and, as body,
    what writing the originator's request wrote; when the write succeeds
    that is the serialized request and the originator is recorded in the
    pending slot; when the write fails, the error is delivered to the
    originator's reply and the pending slot is left as it was.  In the first
    two cases the slot is left as it was. *)
Theorem rendezvous_outcomes sessionID p r st0 k st1 timer_first st session :
  poll_locked sessionID p r st0 = Done (Selecting k, st1) ->
  heap st !! sel_session k = Some session ->
  let h := Header_Add (sel_header k) "Content-type" "application/x-http-request" in
  match select_case timer_first (Requests session) with
  | SelTimer =>
      exists st',
        poll_select timer_first k st = Done (answer 204 (sel_header k) "", st')
        /\ PendingRequest <$> heap st' !! sel_session k
           = Some (PendingRequest session)
        /\ chans st' = chans st
  | SelClosed =>
      exists st',
        poll_select timer_first k st = Done (answer 410 (sel_header k) "", st')
        /\ PendingRequest <$> heap st' !! sel_session k
           = Some (PendingRequest session)
        /\ chans st' = chans st
  | SelRequest req rest =>
      Header_Get h "Content-Type" = "application/x-http-request"
      /\ match Request_Write (Request_HTTP req) with
         | (written, None) =>
             exists st',
               poll_select timer_first k st = Done (answer 200 h written, st')
               /\ PendingRequest <$> heap st' !! sel_session k = Some (Some req)
               /\ chans st' = chans st
         | (written, Some err) =>
             chans st !! Request_Response req = Some make_reply_chan ->
             exists st',
               poll_select timer_first k st = Done (answer 200 h written, st')
               /\ PendingRequest <$> heap st' !! sel_session k
                  = Some (PendingRequest session)
               /\ received_at (Request_Response req) st'
                  = [{| Response_Err := Some err; Response_HTTP := None |}]
         end
  end.
Proof.
  intros Hb Es h.
  assert (Hlt : (sel_session k < length (heap st))%nat) by by eapply lookup_lt_Some.
  destruct (select_case timer_first (Requests session)) as [|req rest|] eqn:Ec.
  - rewrite (poll_select_timer _ _ _ _ Es Ec). eexists. split; [done|]. simpl.
    by rewrite list_lookup_insert_eq.
  - split.
    { apply Header_Get_Add_canonical; [done|].
      by eapply poll_locked_no_content_type. }
    destruct (Request_Write (Request_HTTP req)) as [written [err|]] eqn:Ew.
    + intros Ech.
      rewrite (poll_select_write_error _ _ _ _ _ _ _ _ Es Ec Ew).
      rewrite (chan_send_waiting _ _ _ Ech), Done_bind.
      eexists. split; [done|]. simpl. rewrite list_lookup_insert_eq by done.
      split; [done|]. unfold received_at; simpl.
      rewrite list_lookup_insert_eq; [done|by eapply lookup_lt_Some].
    + rewrite (poll_select_request _ _ _ _ _ _ _ Es Ec Ew).
      eexists. split; [done|]. simpl. by rewrite list_lookup_insert_eq.
  - rewrite (poll_select_closed _ _ _ _ Es Ec). eexists. split; [done|]. simpl.
    by rewrite list_lookup_insert_eq.
Qed.

End Rendezvous_outcomes.

(** ** Close and RoundTrip *)

Section Session_properties.
Context `{!GoLib}.

Lemma Close_open s :
  closed s = false -> requests_closed (Requests s) = false ->
  senders (Requests s) = [] ->
  Close s = Done (set_Requests {| senders := []; requests_closed := true |}
                    (set_closed true s)).
Proof. intros E1 E2 E3. unfold Close. rewrite E1. simpl. by rewrite E2, E3. Qed.

Lemma Close_closed s : closed s = true -> Close s = Panic "close of closed channel".
Proof. intros E. unfold Close. by rewrite E. Qed.

Lemma RoundTrip_closed r s ch :
  closed s = true ->
  RoundTrip r s ch = Done (Returned None (Some ErrSessionClosed), s, ch).
Proof. intros E. unfold RoundTrip. by rewrite E. Qed.

(** C3, as the code has it.  [Close] on an open session in whose hand-off
    no [RoundTrip] is blocked fires the closed signal and closes [Requests],
    and touches nothing else.  From then on every [RoundTrip] returns
    [ErrSessionClosed] at once, leaving the session as it is; a [select]
    waiting on [Requests] observes it closed and the poll is answered [410].
    A second [Close] does not leave the session unchanged: it panics, closing
    a closed channel. *)
Theorem Close_effect (s : Session) :
  closed s = false -> requests_closed (Requests s) = false ->
  senders (Requests s) = [] ->
  exists s1,
    Close s = Done s1
    /\ closed s1 = true
    /\ requests_closed (Requests s1) = true
    /\ PendingRequest s1 = PendingRequest s
    /\ handlerMu s1 = handlerMu s
    /\ closer s1 = closer s
    /\ (forall r ch,
          RoundTrip r s1 ch = Done (Returned None (Some ErrSessionClosed), s1, ch))
    /\ select_case false (Requests s1) = SelClosed
    /\ (forall k st,
          heap st !! sel_session k = Some s1 ->
          exists st',
            poll_select false k st = Done (answer 410 (sel_header k) "", st'))
    /\ Close s1 = Panic "close of closed channel".
Proof.
  intros E1 E2 E3. eexists. split; [by apply Close_open|].
  do 5 (split; [done|]).
  split; [intros r ch; by apply RoundTrip_closed|].
  split; [done|]. split; [|done].
  intros k st Es. eexists. by eapply poll_select_closed.
Qed.

(** What a send and a close do to the replies received. *)
Lemma chan_send_at_most_once c v ch ch' :
  chan_send c v ch = Done ch' -> at_most_once ch -> at_most_once ch'.
Proof.
  unfold chan_send. destruct (ch !! c) as [rc|] eqn:Ec; [|done].
  destruct (reply_closed rc); [done|].
  destruct (received rc); [|done].
  intros [= <-] Hch c' rc' [(-> & <- & _)|[_ E]]%list_lookup_insert_Some.
  - simpl. lia.
  - by eapply Hch.
Qed.

Lemma chan_close_at_most_once c ch ch' :
  chan_close c ch = Done ch' -> at_most_once ch -> at_most_once ch'.
Proof.
  unfold chan_close. destruct (ch !! c) as [rc|] eqn:Ec; [|done].
  destruct (reply_closed rc); [done|].
  intros [= <-] Hch c' rc' [(-> & <- & _)|[_ E]]%list_lookup_insert_Some.
  - simpl. specialize (Hch _ _ Ec). destruct (received rc); simpl in *; lia.
  - by eapply Hch.
Qed.

Lemma drain_response_at_most_once body session ch go session' ch' :
  drain_response body session ch = Done (go, session', ch') ->
  at_most_once ch -> at_most_once ch'.
Proof.
  unfold drain_response.
  destruct (PendingRequest session) as [pending|]; [|by intros [= _ _ <-]].
  destruct (ReadResponse body (Request_HTTP pending)) as [resp|err].
  - intros (ch1 & Hs & (ch2 & Hc & [= _ _ <-])%bind_Done)%bind_Done Hch.
    eapply chan_close_at_most_once; [done|].
    by eapply chan_send_at_most_once.
  - intros (ch1 & Hs & [= _ _ <-])%bind_Done Hch.
    by eapply chan_send_at_most_once.
Qed.

Lemma close_session_chans q st st' :
  close_session q st = Done st' -> chans st' = chans st.
Proof.
  unfold close_session.
  by intros (session & _ & (s1 & _ & [= <-])%bind_Done)%bind_Done.
Qed.

(** In every execution, no originator receives a second reply. *)
Lemma step_at_most_once e st st' :
  step e st = Done st' -> at_most_once (chans st) -> at_most_once (chans st').
Proof.
  intros Hstep Hch.
  assert (forall sessionID p' r st1 b,
            poll_locked sessionID p' r st1 = Done (b, st') ->
            at_most_once (chans st1) -> at_most_once (chans st')) as Hlocked.
  { intros sessionID p' r st1 b
      (session & go & session' & ch & _ & _ & Hd & _ & -> & _)%poll_locked_Done.
    by eapply drain_response_at_most_once. }
  destruct e as [q r|q|q|uuid r|sessionID q r|tf k]; simpl in Hstep.
  - apply fmap_snd_Done in Hstep as (res & Hstep). unfold submit in Hstep.
    apply bind_Done in Hstep as (session & _ & Hstep).
    apply bind_Done in Hstep as ([[res' s1] ch] & Hrt & [= _ <-]). simpl.
    unfold RoundTrip in Hrt. destruct (closed session).
    + by injection Hrt as _ _ <-.
    + destruct (requests_closed (Requests session)); [done|].
      injection Hrt as _ _ <-.
      intros c rc [[_ E]|[_ <-]]%lookup_snoc_Some; [by eapply Hch|simpl; lia].
  - by rewrite (close_session_chans _ _ _ Hstep).
  - apply bind_Done in Hstep as (session & _ & Hstep).
    destruct (closer session) as [t|]; [|by injection Hstep as <-].
    unfold closer_fires in Hstep.
    destruct (sessions (srv st) !! timer_sessionID t) as [p'|];
      [|by injection Hstep as <-].
    apply bind_Done in Hstep as (st1 & Hclose & [= <-]). simpl.
    by rewrite (close_session_chans _ _ _ Hclose).
  - apply fmap_snd_Done in Hstep as (b & Hstep).
    apply poll_begin_Done in Hstep as (sessionID & p' & st1 & Eb & Hstep).
    apply bind_session_heap in Eb as (Ech & _).
    eapply Hlocked; [done|]. by rewrite Ech.
  - apply fmap_snd_Done in Hstep as (b & Hstep). by eapply Hlocked.
  - apply fmap_snd_Done in Hstep as (resp & Hstep). unfold poll_select in Hstep.
    apply bind_Done in Hstep as (session & _ & Hstep).
    destruct (select_case tf (Requests session)) as [|req rest|].
    + by injection Hstep as _ <-.
    + destruct (Request_Write (Request_HTTP req)) as [written [err|]].
      * apply bind_Done in Hstep as (ch1 & Hs & [= _ <-]). simpl.
        by eapply chan_send_at_most_once.
      * by injection Hstep as _ <-.
    + by injection Hstep as _ <-.
Qed.

Lemma run_at_most_once es st st' :
  run es st = Done st' -> at_most_once (chans st) -> at_most_once (chans st').
Proof.
  revert st. induction es as [|e es IH]; intros st Hrun Hch.
  - by injection Hrun as <-.
  - simpl in Hrun. apply bind_Done in Hrun as (st1 & Hstep & Hrun).
    eapply IH; [done|]. by eapply step_at_most_once.
Qed.

End Session_properties.

(** ** Replies *)

Section Reply_properties.
Context `{!GoLib}.

(** The drain hands exactly one reply to a pending originator that waits. *)
Lemma drain_response_delivers body session ch pending :
  PendingRequest session = Some pending ->
  ch !! Request_Response pending = Some make_reply_chan ->
  exists go session' ch',
    drain_response body session ch = Done (go, session', ch')
    /\ received <$> ch' !! Request_Response pending
       = Some [drained_reply body pending].
Proof.
  intros Ep Ec. unfold drain_response, drained_reply. rewrite Ep.
  assert (Hlt : (Request_Response pending < length ch)%nat)
    by by eapply lookup_lt_Some.
  destruct (ReadResponse body (Request_HTTP pending)) as [resp|err].
  - rewrite (chan_send_waiting _ _ _ Ec), Done_bind.
    unfold chan_close. rewrite list_lookup_insert_eq by done. simpl.
    do 3 eexists. split; [reflexivity|].
    rewrite list_lookup_insert_eq; [done|by rewrite length_insert].
  - rewrite (chan_send_waiting _ _ _ Ec), Done_bind.
    do 3 eexists. split; [reflexivity|].
    by rewrite list_lookup_insert_eq.
Qed.

(** [poll_begin] completes when the lock is free and the drain completes. *)
Lemma poll_begin_completes uuid r st sessionID p st1 session go session' ch :
  bind_session uuid r st = (sessionID, p, st1) ->
  heap st1 !! p = Some session ->
  handlerMu session = false ->
  drain_response (default "" (req_Body r))
    (set_closer (idle_timer st1 sessionID) session) (chans st1)
  = Done (go, session', ch) ->
  exists b st', poll_begin uuid r st = Done (b, st') /\ chans st' = ch.
Proof.
  intros Eb Es Emu Ed. unfold poll_begin. rewrite Eb. unfold poll_locked.
  rewrite (deref_Some _ _ _ Es), Done_bind, Emu, Ed, Done_bind.
  destruct go; [|by do 2 eexists].
  destruct (poll_timeout _ _ _) as [bad|[timeout h_ok]]; by do 2 eexists.
Qed.

Lemma RoundTrip_return_received c ch v :
  received <$> ch !! c = Some [v] ->
  RoundTrip_return c ch = Some (Response_HTTP v, Response_Err v).
Proof.
  unfold RoundTrip_return. destruct (ch !! c) as [rc|]; [|done].
  simpl. by intros [= ->].
Qed.

End Reply_properties.

(** ** Orphaned reply channels *)

Section Orphans.
Context `{!GoLib}.

Lemma chan_send_other c c' v ch ch' :
  chan_send c' v ch = Done ch' -> c' <> c -> ch' !! c = ch !! c.
Proof.
  unfold chan_send. destruct (ch !! c') as [rc|]; [|done].
  destruct (reply_closed rc); [done|]. destruct (received rc); [|done].
  intros [= <-] Hne. by rewrite list_lookup_insert_ne.
Qed.

Lemma chan_close_other c c' ch ch' :
  chan_close c' ch = Done ch' -> c' <> c -> ch' !! c = ch !! c.
Proof.
  unfold chan_close. destruct (ch !! c') as [rc|]; [|done].
  destruct (reply_closed rc); [done|].
  intros [= <-] Hne. by rewrite list_lookup_insert_ne.
Qed.

Lemma drain_response_other c body session ch go session' ch' :
  drain_response body session ch = Done (go, session', ch') ->
  (forall req, PendingRequest session = Some req -> Request_Response req <> c) ->
  ch' !! c = ch !! c.
Proof.
  unfold drain_response.
  destruct (PendingRequest session) as [pending|]; [|by intros [= _ _ <-]].
  intros Hd Hne. specialize (Hne pending eq_refl).
  destruct (ReadResponse body (Request_HTTP pending)) as [resp|err].
  - apply bind_Done in Hd as (ch1 & Hs & (ch2 & Hc & [= _ _ <-])%bind_Done).
    rewrite (chan_close_other _ _ _ _ Hc Hne).
    by rewrite (chan_send_other _ _ _ _ _ Hs Hne).
  - apply bind_Done in Hd as (ch1 & Hs & [= _ _ <-]).
    by rewrite (chan_send_other _ _ _ _ _ Hs Hne).
Qed.

Lemma drain_response_pending body session ch go session' ch' req :
  drain_response body session ch = Done (go, session', ch') ->
  PendingRequest session' = Some req -> PendingRequest session = Some req.
Proof.
  intros Hd. destruct go.
  - apply drain_response_Done in Hd as (_ & _ & _ & _ & Hn & _).
    by rewrite Hn.
  - apply drain_response_Done in Hd as (_ & _ & _ & _ & _ & Hs).
    by destruct Hs as [-> _].
Qed.

Lemma sessions_doInit_Do s : sessions (doInit_Do s) = sessions s.
Proof. unfold doInit_Do. by destruct (doInit s). Qed.

Lemma bind_session_table uuid r st sessionID p st1 :
  bind_session uuid r st = (sessionID, p, st1) ->
  sessions (srv st1) !! sessionID = Some p.
Proof.
  destruct (bind_session_cases uuid r st) as [(p' & Ep & ->)|[Ep ->]];
    intros [= <- <- <-]; simpl; [done|].
  by rewrite lookup_insert_eq.
Qed.

Lemma bind_session_orphaned c uuid r st sessionID p st1 :
  bind_session uuid r st = (sessionID, p, st1) ->
  orphaned c st -> orphaned c st1.
Proof.
  intros Eb [Hc Hclear].
  destruct (bind_session_cases uuid r st) as [(p' & Ep & Eb')|[Ep Eb']];
    rewrite Eb' in Eb; injection Eb as <- <- <-; split; simpl; try done.
  - intros q session Es. rewrite sessions_doInit_Do. by apply Hclear.
  - intros q session [[Hlt Es]|[-> <-]]%lookup_snoc_Some.
    + destruct (Hclear _ _ Es) as [Hs Hp]. split; [done|].
      intros req Er Ec id. rewrite sessions_doInit_Do.
      destruct (decide (uuid = id)) as [->|Hne].
      * rewrite lookup_insert_eq. intros [= Eq]. lia.
      * rewrite lookup_insert_ne by done. by eapply Hp.
    + split; [intros req; simpl; by intros ?%elem_of_nil|done].
Qed.

Lemma select_case_request tf q req rest :
  select_case tf q = SelRequest req rest -> senders q = req :: senders rest.
Proof.
  unfold select_case, chan_recv. destruct tf; [done|].
  destruct (senders q) as [|req' rest'].
  - by destruct (requests_closed q).
  - by intros [= <- <-].
Qed.

(** No step of any goroutine delivers to an orphaned reply channel, or
    brings it back within reach. *)
Lemma step_orphaned c e st st' :
  locks_at_once e ->
  step e st = Done st' -> orphaned c st -> orphaned c st'.
Proof.
  intros Hat Hstep Horph.
  destruct e as [q r|q|q|uuid r|sessionID q r|tf k]; simpl in Hstep; [| | | |done|].
  - (* an originator enters RoundTrip *)
    destruct Horph as [(rc & Ec & Er) Hclear].
    apply fmap_snd_Done in Hstep as (res & Hstep). unfold submit in Hstep.
    apply bind_Done in Hstep as (session & Es%deref_Done & Hstep).
    apply bind_Done in Hstep as ([[res' s1] ch] & Hrt & [= _ <-]).
    unfold RoundTrip in Hrt. destruct (closed session).
    { injection Hrt as _ <- <-. split; simpl; [eauto|].
      intros p s' [(-> & <- & _)|[_ E]]%list_lookup_insert_Some; by apply Hclear. }
    destruct (requests_closed (Requests session)); [done|].
    injection Hrt as _ <- <-. split; simpl.
    { exists rc. split; [by apply lookup_app_l_Some|done]. }
    intros p s' [(-> & <- & _)|[_ E]]%list_lookup_insert_Some; [|by apply Hclear].
    destruct (Hclear _ _ Es) as [Hs Hp]. split; [|done]. simpl.
    intros req [Hin|Hin%list_elem_of_singleton]%elem_of_app; [by apply Hs|].
    subst req. simpl. apply lookup_lt_Some in Ec. lia.
  - (* Close *)
    destruct Horph as [Hc Hclear]. unfold close_session in Hstep.
    apply bind_Done in Hstep as (session & Es%deref_Done & Hstep).
    apply bind_Done in Hstep as (s1 & [_ ->]%Close_Done & [= <-]).
    split; simpl; [done|].
    intros p s' [(-> & <- & _)|[_ E]]%list_lookup_insert_Some; [|by apply Hclear].
    destruct (Hclear _ _ Es) as [Hs Hp]. split; [|done]. simpl.
    intros req. by intros ?%elem_of_nil.
  - (* the idle timer *)
    destruct Horph as [Hc Hclear].
    apply bind_Done in Hstep as (session0 & _ & Hstep).
    destruct (closer session0) as [t|]; [|by injection Hstep as <-].
    unfold closer_fires in Hstep.
    destruct (sessions (srv st) !! timer_sessionID t) as [p'|];
      [|by injection Hstep as <-].
    apply bind_Done in Hstep as (st1 & Hclose & [= <-]).
    unfold close_session in Hclose.
    apply bind_Done in Hclose as (session & Es%deref_Done & Hclose).
    apply bind_Done in Hclose as (s1 & [_ ->]%Close_Done & [= <-]).
    split; simpl; [done|].
    assert (forall p s', heap st !! p = Some s' ->
              clear_of c (delete (timer_sessionID t) (sessions (srv st))) p s')
      as Hclear'.
    { intros p s' E. destruct (Hclear _ _ E) as [Hs Hp]. split; [done|].
      intros req Er Ec id [_ Hid]%lookup_delete_Some. by eapply Hp. }
    intros p s' [(-> & <- & _)|[_ E]]%list_lookup_insert_Some; [|by apply Hclear'].
    destruct (Hclear' _ _ Es) as [Hs Hp]. split; [|done]. simpl.
    intros req. by intros ?%elem_of_nil.
  - (* a poll up to its select *)
    apply fmap_snd_Done in Hstep as (b & Hstep).
    apply poll_begin_Done in Hstep as (sessionID & p' & st1 & Eb & Hstep).
    apply poll_locked_Done in Hstep
      as (session & go & session' & ch & Es & _ & Hd & Esrv & Ech & _ & Hheap).
    pose proof (bind_session_table _ _ _ _ _ _ Eb) as Et.
    apply (bind_session_orphaned c) in Eb as [(rc & Ec & Er) Hclear]; [|done].
    destruct (Hclear _ _ Es) as [Hs Hp].
    assert (forall req, PendingRequest session = Some req ->
                        Request_Response req <> c) as Hne.
    { intros req Ereq Ecr. by eapply (Hp req Ereq Ecr sessionID). }
    split.
    { exists rc. split; [|done]. rewrite Ech, <- Ec.
      by eapply drain_response_other. }
    rewrite Esrv.
    assert (clear_of c (sessions (srv st1)) p' session') as Hc1.
    { pose proof (drain_response_Done _ _ _ _ _ _ Hd) as (_ & Eq & _).
      split; [by rewrite Eq|].
      intros req Ereq. apply (drain_response_pending _ _ _ _ _ _ _ Hd) in Ereq.
      by apply Hp. }
    assert (forall x, clear_of c (sessions (srv st1)) p' x ->
              forall p s', <[p' := x]> (heap st1) !! p = Some s' ->
                           clear_of c (sessions (srv st1)) p s') as Hins.
    { intros x Hx p s' [(-> & <- & _)|[_ E]]%list_lookup_insert_Some;
        [done|by apply Hclear]. }
    destruct Hheap as [(_ & _ & ->)|[(_ & bad & _ & _ & ->)|(_ & ? & ? & _ & _ & ->)]];
      by apply Hins.
  - (* a select *)
    destruct Horph as [(rc & Ec & Er) Hclear].
    apply fmap_snd_Done in Hstep as (resp & Hstep). unfold poll_select in Hstep.
    apply bind_Done in Hstep as (session & Es%deref_Done & Hstep).
    destruct (Hclear _ _ Es) as [Hs Hp].
    assert (forall x, clear_of c (sessions (srv st)) (sel_session k) x ->
              forall p s', <[sel_session k := x]> (heap st) !! p = Some s' ->
                           clear_of c (sessions (srv st)) p s') as Hins.
    { intros x Hx p s' [(<- & <- & _)|[_ E]]%list_lookup_insert_Some;
        [done|by apply Hclear]. }
    destruct (select_case tf (Requests session)) as [|req rest|] eqn:Esel.
    + injection Hstep as _ <-. split; simpl; [eauto|]. by apply Hins.
    + apply select_case_request in Esel.
      assert (Request_Response req <> c) as Hreq.
      { apply Hs. rewrite Esel. by left. }
      assert (forall req', req' ∈ senders rest -> Request_Response req' <> c)
        as Hrest.
      { intros req' Hin. apply Hs. rewrite Esel. by right. }
      destruct (Request_Write (Request_HTTP req)) as [written [err|]].
      * apply bind_Done in Hstep as (ch1 & Hsend & [= _ <-]). split; simpl.
        { exists rc. by rewrite (chan_send_other _ _ _ _ _ Hsend Hreq). }
        by apply Hins.
      * injection Hstep as _ <-. split; simpl; [eauto|].
        apply Hins. split; [done|]. simpl. by intros req' [= <-].
    + injection Hstep as _ <-. split; simpl; [eauto|]. by apply Hins.
Qed.

(** The originator of an orphaned reply channel waits for ever: whatever
    the goroutines do, it has received nothing and [RoundTrip] has not
    returned. *)
Lemma orphaned_for_ever c es st st' :
  orphaned c st -> Forall locks_at_once es -> run es st = Done st' ->
  received_at c st' = [] /\ RoundTrip_return c (chans st') = None.
Proof.
  intros Horph Hes Hrun.
  assert (orphaned c st') as [(rc & Ec & Er) _].
  { revert st Horph Hrun. induction Hes as [|e es He _ IH]; intros st Horph Hrun.
    - by injection Hrun as <-.
    - simpl in Hrun. apply bind_Done in Hrun as (st1 & Hstep & Hrun).
      eapply IH; [|done]. by eapply step_orphaned. }
  unfold received_at, RoundTrip_return. by rewrite Ec; simpl; rewrite Er.
Qed.

End Orphans.

(** ** Replies and session closure *)

Section Closure_properties.
Context `{!GoLib}.

(** [poll_locked] completes when the lock is free and the drain completes. *)
Lemma poll_locked_completes sessionID p r st session go session' ch :
  heap st !! p = Some session ->
  handlerMu session = false ->
  drain_response (default "" (req_Body r))
    (set_closer (idle_timer st sessionID) session) (chans st)
  = Done (go, session', ch) ->
  exists b st', poll_locked sessionID p r st = Done (b, st') /\ chans st' = ch.
Proof.
  intros Es Emu Ed. unfold poll_locked.
  rewrite (deref_Some _ _ _ Es), Done_bind, Emu, Ed, Done_bind.
  destruct go; [|by do 2 eexists].
  destruct (poll_timeout _ _ _) as [bad|[timeout h_ok]]; by do 2 eexists.
Qed.

(** What the idle timer does to the world when it finds its session. *)
Lemma closer_fires_Done (t : Timer) st st1 p :
  sessions (srv st) !! timer_sessionID t = Some p ->
  closer_fires t st = Done st1 ->
  exists session,
    heap st !! p = Some session
    /\ st1 = {| srv := set_sessions
                         (delete (timer_sessionID t) (sessions (srv st))) (srv st);
               heap := <[p := set_Requests
                                {| senders := []; requests_closed := true |}
                                (set_closed true session)]> (heap st);
               chans := chans st;
               connects := connects st |}.
Proof.
  intros Et. unfold closer_fires. rewrite Et.
  intros (st0 & Hclose & [= <-])%bind_Done. unfold close_session in Hclose.
  apply bind_Done in Hclose as (session & Es%deref_Done & Hclose).
  apply bind_Done in Hclose as (s1 & [_ ->]%Close_Done & [= <-]).
  by exists session.
Qed.

Lemma closer_fires_chans (t : Timer) st st1 :
  closer_fires t st = Done st1 -> chans st1 = chans st.
Proof.
  destruct (sessions (srv st) !! timer_sessionID t) as [p|] eqn:Et.
  - intros (session & _ & ->)%(closer_fires_Done _ _ _ _ Et). done.
  - unfold closer_fires. rewrite Et. by intros [= <-].
Qed.

(** A poll that was bound to a session delivers to its pending originator
    when it takes the lock, also after the idle timer evicted the session. *)
Lemma stale_poll_delivers (t : Timer) st st1 sessionID p r session pending :
  sessions (srv st) !! timer_sessionID t = Some p ->
  heap st !! p = Some session ->
  handlerMu session = false ->
  PendingRequest session = Some pending ->
  chans st !! Request_Response pending = Some make_reply_chan ->
  closer_fires t st = Done st1 ->
  sessions (srv st1) !! timer_sessionID t = None
  /\ closed <$> heap st1 !! p = Some true
  /\ exists b st',
      poll_locked sessionID p r st1 = Done (b, st')
      /\ received <$> chans st' !! Request_Response pending
         = Some [drained_reply (default "" (req_Body r)) pending].
Proof.
  intros Et Es Emu Ep Ec Hf.
  destruct (closer_fires_Done _ _ _ _ Et Hf) as (session0 & Es0 & ->).
  assert (session0 = session) as -> by congruence.
  assert (Hlt : (p < length (heap st))%nat) by by eapply lookup_lt_Some.
  simpl. rewrite list_lookup_insert_eq by done.
  split; [by rewrite lookup_delete_eq|]. split; [done|].
  match goal with
  | |- context [poll_locked sessionID p r ?w] => set (st1 := w)
  end.
  assert (heap st1 !! p
          = Some (set_Requests {| senders := []; requests_closed := true |}
                    (set_closed true session))) as Es1
    by by apply list_lookup_insert_eq.
  destruct (drain_response_delivers (default "" (req_Body r))
              (set_closer (idle_timer st1 sessionID)
                 (set_Requests {| senders := []; requests_closed := true |}
                    (set_closed true session)))
              (chans st1) pending Ep Ec)
    as (go & session' & ch' & Ed & Er).
  destruct (poll_locked_completes sessionID p r st1 _ _ _ _ Es1 Emu Ed)
    as (b & st' & Hb & Ech).
  exists b, st'. split; [done|]. by rewrite Ech.
Qed.

(** The reply channel of an originator that was pending when the idle timer
    evicted its session is orphaned, when it is that originator's alone. *)
Lemma eviction_orphans (t : Timer) st st1 p session pending :
  sessions (srv st) !! timer_sessionID t = Some p ->
  (forall id, sessions (srv st) !! id = Some p -> id = timer_sessionID t) ->
  heap st !! p = Some session ->
  PendingRequest session = Some pending ->
  chans st !! Request_Response pending = Some make_reply_chan ->
  (forall q s req,
      heap st !! q = Some s -> req ∈ senders (Requests s) ->
      Request_Response req <> Request_Response pending) ->
  (forall q s req,
      heap st !! q = Some s -> q <> p -> PendingRequest s = Some req ->
      Request_Response req <> Request_Response pending) ->
  closer_fires t st = Done st1 ->
  orphaned (Request_Response pending) st1.
Proof.
  intros Et Hinj Es Ep Ec Hsend Hpend Hf.
  destruct (closer_fires_Done _ _ _ _ Et Hf) as (session0 & Es0 & ->).
  assert (session0 = session) as -> by congruence.
  split; simpl; [by exists make_reply_chan|].
  intros q s [(-> & <- & _)|[Hne Eq]]%list_lookup_insert_Some.
  - split; simpl; [intros req; by intros ?%elem_of_nil|].
    intros req _ _ id [Hid Eid]%lookup_delete_Some.
    by apply Hid, eq_sym, Hinj.
  - split; [intros req; by apply (Hsend q s)|].
    intros req Er Ereq. exfalso. by eapply (Hpend q s req).
Qed.

(** *** The sole holder of a reply channel *)

Lemma sole_holder_insert c p st st' q s s' :
  sole_holder c p st ->
  heap st !! q = Some s ->
  (forall req, PendingRequest s' = Some req -> Request_Response req = c ->
               PendingRequest s = Some req) ->
  heap st' = <[q := s']> (heap st) ->
  sole_holder c p st'.
Proof.
  intros Hsole Es Hp Eh q' s'' req. rewrite Eh.
  intros [(-> & <- & _)|[_ E]]%list_lookup_insert_Some Er Ec.
  - eapply Hsole; [done|by apply Hp|done].
  - by eapply Hsole.
Qed.

Lemma poll_locked_sole_holder c p sessionID q r st b st' :
  poll_locked sessionID q r st = Done (b, st') ->
  sole_holder c p st -> sole_holder c p st'.
Proof.
  intros (session & go & session' & ch & Es & _ & Hd & _ & _ & _ & Hheap)
           %poll_locked_Done Hsole.
  assert (forall x, PendingRequest x = PendingRequest session' ->
                    heap st' = <[q := x]> (heap st) -> sole_holder c p st') as Hup.
  { intros x Ex Eh.
    eapply (sole_holder_insert c p st st' q session x); [done|done| |done].
    intros req Er _. rewrite Ex in Er.
    by apply (drain_response_pending _ _ _ _ _ _ _ Hd) in Er. }
  destruct Hheap as [(_ & _ & Eh)|[(_ & bad & _ & _ & Eh)|(_ & ? & ? & _ & _ & Eh)]];
    (eapply Hup; [|exact Eh]; done).
Qed.

(** No step makes a second holder of an orphaned reply channel. *)
Lemma step_sole_holder c p e st st' :
  step e st = Done st' -> orphaned c st -> sole_holder c p st ->
  sole_holder c p st'.
Proof.
  intros Hstep [_ Hclear] Hsole.
  assert (forall q s s' w,
            heap st !! q = Some s -> PendingRequest s' = PendingRequest s ->
            heap w = <[q := s']> (heap st) -> sole_holder c p w) as Hsame.
  { intros q s s' w Es Ep Eh.
    eapply (sole_holder_insert c p st w q s s'); [done|done| |done].
    intros req. by rewrite Ep. }
  destruct e as [q r|q|q|uuid r|sessionID q r|tf k]; simpl in Hstep.
  - apply fmap_snd_Done in Hstep as (res & Hstep). unfold submit in Hstep.
    apply bind_Done in Hstep as (session & Es%deref_Done & Hstep).
    apply bind_Done in Hstep as ([[res' s1] ch] & Hrt & [= _ <-]).
    apply RoundTrip_Done in Hrt as (_ & Ep & _).
    by apply (Hsame q session s1).
  - unfold close_session in Hstep.
    apply bind_Done in Hstep as (session & Es%deref_Done & Hstep).
    apply bind_Done in Hstep as (s1 & [_ ->]%Close_Done & [= <-]).
    eapply (Hsame q session); [done| |reflexivity]; done.
  - apply bind_Done in Hstep as (session0 & _ & Hstep).
    destruct (closer session0) as [t|]; [|by injection Hstep as <-].
    destruct (sessions (srv st) !! timer_sessionID t) as [p'|] eqn:Et.
    + destruct (closer_fires_Done _ _ _ _ Et Hstep) as (session & Es & ->).
      eapply (Hsame p' session); [done| |reflexivity]; done.
    + unfold closer_fires in Hstep. rewrite Et in Hstep. by injection Hstep as <-.
  - apply fmap_snd_Done in Hstep as (b & Hstep).
    apply poll_begin_Done in Hstep as (sessionID & p' & st1 & Eb & Hstep).
    eapply poll_locked_sole_holder; [done|].
    destruct (bind_session_cases uuid r st) as [(p0 & _ & Eb')|[_ Eb']];
      rewrite Eb' in Eb; injection Eb as <- <- <-; [done|].
    intros q s req [[_ E]|[_ <-]]%lookup_snoc_Some; [by eapply Hsole|done].
  - apply fmap_snd_Done in Hstep as (b & Hstep).
    by eapply poll_locked_sole_holder.
  - apply fmap_snd_Done in Hstep as (resp & Hstep). unfold poll_select in Hstep.
    apply bind_Done in Hstep as (session & Es%deref_Done & Hstep).
    destruct (Hclear _ _ Es) as [Hs _].
    destruct (select_case tf (Requests session)) as [|req rest|] eqn:Esel.
    + injection Hstep as _ <-.
      eapply (Hsame (sel_session k) session); [done| |reflexivity]; done.
    + apply select_case_request in Esel.
      destruct (Request_Write (Request_HTTP req)) as [written [err|]].
      * apply bind_Done in Hstep as (ch1 & Hsend & [= _ <-]).
        eapply (Hsame (sel_session k) session); [done| |reflexivity]; done.
      * injection Hstep as _ <-.
        eapply (sole_holder_insert c p st _ (sel_session k) session);
          [done|done| |reflexivity].
        simpl. intros req' [= <-] Ec. exfalso.
        apply (Hs req); [|done]. rewrite Esel. by left.
    + injection Hstep as _ <-.
      eapply (Hsame (sel_session k) session); [done| |reflexivity]; done.
Qed.

(** A poll that takes the lock of another session than the sole holder's
    leaves an orphaned reply channel orphaned. *)
Lemma step_orphaned_elsewhere c p e st st' :
  no_stale_poll p e -> sole_holder c p st ->
  step e st = Done st' -> orphaned c st -> orphaned c st'.
Proof.
  intros Hns Hsole Hstep Horph.
  destruct e as [q r|q|q|uuid r|sessionID q r|tf k];
    try (by eapply step_orphaned; [|exact Hstep|exact Horph]).
  simpl in Hns, Hstep.
  apply fmap_snd_Done in Hstep as (b & Hstep).
  apply poll_locked_Done in Hstep
    as (session & go & session' & ch & Es & _ & Hd & Esrv & Ech & _ & Hheap).
  destruct Horph as [(rc & Ec & Er) Hclear].
  destruct (Hclear _ _ Es) as [Hs Hp].
  assert (forall req, PendingRequest session = Some req ->
                      Request_Response req <> c) as Hne.
  { intros req Ereq Ecr. apply Hns. by eapply Hsole. }
  split.
  { exists rc. split; [|done]. rewrite Ech, <- Ec.
    by eapply drain_response_other. }
  rewrite Esrv.
  assert (clear_of c (sessions (srv st)) q session') as Hc1.
  { pose proof (drain_response_Done _ _ _ _ _ _ Hd) as (_ & Eq & _).
    split; [by rewrite Eq|].
    intros req Ereq. apply (drain_response_pending _ _ _ _ _ _ _ Hd) in Ereq.
    by apply Hp. }
  assert (forall x, clear_of c (sessions (srv st)) q x ->
            forall p0 s', <[q := x]> (heap st) !! p0 = Some s' ->
                          clear_of c (sessions (srv st)) p0 s') as Hins.
  { intros x Hx p0 s' [(-> & <- & _)|[_ E]]%list_lookup_insert_Some;
      [done|by apply Hclear]. }
  destruct Hheap as [(_ & _ & ->)|[(_ & bad & _ & _ & ->)|(_ & ? & ? & _ & _ & ->)]];
    by apply Hins.
Qed.

(** The originator of an orphaned reply channel waits for ever, unless a
    poll that was bound to its session takes the lock. *)
Lemma orphaned_unless_stale c p es st st' :
  orphaned c st -> sole_holder c p st -> Forall (no_stale_poll p) es ->
  run es st = Done st' ->
  received_at c st' = [] /\ RoundTrip_return c (chans st') = None.
Proof.
  intros Horph Hsole Hes Hrun.
  assert (orphaned c st') as [(rc & Ec & Er) _].
  { revert st Horph Hsole Hrun.
    induction Hes as [|e es He _ IH]; intros st Horph Hsole Hrun.
    - by injection Hrun as <-.
    - simpl in Hrun. apply bind_Done in Hrun as (st1 & Hstep & Hrun).
      eapply IH; [| |done].
      + by eapply step_orphaned_elsewhere.
      + by eapply step_sole_holder. }
  unfold received_at, RoundTrip_return. by rewrite Ec; simpl; rewrite Er.
Qed.

(** After the eviction, the pending slot of the evicted session is the sole
    holder of its reply channel. *)
Lemma eviction_sole_holder (t : Timer) st st1 p session pending :
  sessions (srv st) !! timer_sessionID t = Some p ->
  heap st !! p = Some session ->
  (forall q s req,
      heap st !! q = Some s -> q <> p -> PendingRequest s = Some req ->
      Request_Response req <> Request_Response pending) ->
  closer_fires t st = Done st1 ->
  sole_holder (Request_Response pending) p st1.
Proof.
  intros Et Es Hpend Hf.
  destruct (closer_fires_Done _ _ _ _ Et Hf) as (session0 & Es0 & ->).
  intros q s req [(-> & _ & _)|[Hne Eq]]%list_lookup_insert_Some Er Ec; [done|].
  exfalso. by eapply (Hpend q s req).
Qed.

(** *** Well-formed worlds *)

Lemma submseteq_NoDup {A} (l k : list A) : l ⊆+ k -> NoDup k -> NoDup l.
Proof.
  intros [k' Hk]%submseteq_Permutation. rewrite Hk.
  by intros [? _]%NoDup_app.
Qed.

Lemma submseteq_Forall {A} (P : A -> Prop) (l k : list A) :
  l ⊆+ k -> Forall P k -> Forall P l.
Proof.
  intros [k' Hk]%submseteq_Permutation. rewrite Hk.
  by intros [? _]%Forall_app.
Qed.

(** Replacing a session by one that holds no other reply channels than it
    held, and [extra]. *)
Lemma refs_insert (hp : list Session) p s s' extra :
  hp !! p = Some s ->
  session_refs s' ⊆+ extra ++ session_refs s ->
  concat (session_refs <$> <[p := s']> hp)
  ⊆+ extra ++ concat (session_refs <$> hp).
Proof.
  revert p. induction hp as [|s0 hp IH]; intros [|p] Es Hsub; try done.
  - injection Es as ->. simpl. rewrite (assoc (++)). by apply submseteq_skips_r.
  - simpl. trans (session_refs s0 ++ extra ++ concat (session_refs <$> hp)).
    + by apply submseteq_skips_l, IH.
    + rewrite !(assoc (++)). apply submseteq_skips_r, Permutation_submseteq.
      apply Permutation_app_comm.
Qed.

Lemma well_formed_update st st' p s s' extra :
  well_formed st ->
  heap st !! p = Some s ->
  session_refs s' ⊆+ extra ++ session_refs s ->
  NoDup extra ->
  Forall (fun c : chan => (length (chans st) <= c < length (chans st'))%nat) extra ->
  (length (chans st) <= length (chans st'))%nat ->
  sessions (srv st') ⊆ sessions (srv st) ->
  heap st' = <[p := s']> (heap st) ->
  well_formed st'.
Proof.
  intros (Hlt & Hinj & Hnd & Hall) Es Hsub Hex Hnew Hlen Htbl Eh.
  pose proof (refs_insert _ _ _ _ _ Es Hsub) as Hrefs.
  unfold well_formed. rewrite Eh. split; [|split; [|split]].
  - intros id q Hq. rewrite length_insert.
    eapply Hlt, lookup_weaken; done.
  - intros id id' q Hq Hq'. eapply Hinj; eapply lookup_weaken; done.
  - eapply submseteq_NoDup; [done|]. apply NoDup_app. split; [done|]. split; [|done].
    intros c Hc Hc'.
    eapply Forall_forall in Hnew; [|done]. eapply Forall_forall in Hall; [|done].
    lia.
  - eapply submseteq_Forall; [done|]. apply Forall_app. split.
    + eapply Forall_impl; [done|]. simpl. lia.
    + eapply Forall_impl; [done|]. simpl. lia.
Qed.

Lemma chan_send_length c v ch ch' :
  chan_send c v ch = Done ch' -> length ch' = length ch.
Proof.
  unfold chan_send. destruct (ch !! c) as [rc|]; [|done].
  destruct (reply_closed rc); [done|]. destruct (received rc); [|done].
  intros [= <-]. apply length_insert.
Qed.

Lemma chan_close_length c ch ch' :
  chan_close c ch = Done ch' -> length ch' = length ch.
Proof.
  unfold chan_close. destruct (ch !! c) as [rc|]; [|done].
  destruct (reply_closed rc); [done|]. intros [= <-]. apply length_insert.
Qed.

Lemma drain_response_refs body session ch go session' ch' :
  drain_response body session ch = Done (go, session', ch') ->
  length ch' = length ch /\ session_refs session' ⊆+ session_refs session.
Proof.
  unfold drain_response, session_refs.
  destruct (PendingRequest session) as [pending|] eqn:Ep;
    [|intros [= _ <- <-]; by rewrite Ep].
  destruct (ReadResponse body (Request_HTTP pending)) as [resp|err].
  - intros (ch1 & Hs & (ch2 & Hc & [= _ <- <-])%bind_Done)%bind_Done.
    split.
    + by rewrite (chan_close_length _ _ _ Hc), (chan_send_length _ _ _ _ Hs).
    + simpl. apply submseteq_skips_l, submseteq_nil_l.
  - intros (ch1 & Hs & [= _ <- <-])%bind_Done.
    split; [by rewrite (chan_send_length _ _ _ _ Hs)|]. by rewrite Ep.
Qed.

Lemma bind_session_well_formed uuid r st sessionID p st1 :
  bind_session uuid r st = (sessionID, p, st1) ->
  well_formed st -> well_formed st1.
Proof.
  intros Eb (Hlt & Hinj & Hnd & Hall).
  destruct (bind_session_cases uuid r st) as [(p' & Ep & Eb')|[Ep Eb']];
    rewrite Eb' in Eb; injection Eb as <- <- <-.
  - split; [|split; [|split]]; simpl; try done.
    + intros id q. rewrite sessions_doInit_Do. apply Hlt.
    + intros id id' q. rewrite !sessions_doInit_Do. apply Hinj.
  - split; [|split; [|split]]; simpl.
    + intros id q. rewrite sessions_doInit_Do, length_app. simpl.
      intros [[_ <-]|[_ Hq%Hlt]]%lookup_insert_Some; lia.
    + intros id id' q. rewrite !sessions_doInit_Do.
      intros [[<- <-]|[Hne Hq]]%lookup_insert_Some
             [[<- Hq']|[Hne' Hq']]%lookup_insert_Some; try done.
      * apply Hlt in Hq'. lia.
      * apply Hlt in Hq. lia.
      * by eapply Hinj.
    + rewrite fmap_app, concat_app. simpl. by rewrite !app_nil_r.
    + rewrite fmap_app, concat_app. simpl. by rewrite !app_nil_r.
Qed.

Lemma poll_locked_well_formed sessionID p r st b st' :
  poll_locked sessionID p r st = Done (b, st') ->
  well_formed st -> well_formed st'.
Proof.
  intros (session & go & session' & ch & Es & _ & Hd & Esrv & Ech & _ & Hheap)
           %poll_locked_Done Hwf.
  apply drain_response_refs in Hd as [Hlen Hsub].
  assert (forall x, session_refs x = session_refs session' ->
                    heap st' = <[p := x]> (heap st) -> well_formed st') as Hup.
  { intros x Ex Eh.
    apply (well_formed_update st st' p session x []); try done.
    - by rewrite Ex.
    - constructor.
    - rewrite Ech, Hlen. lia.
    - by rewrite Esrv. }
  destruct Hheap as [(_ & _ & Eh)|[(_ & bad & _ & _ & Eh)|(_ & ? & ? & _ & _ & Eh)]];
    (eapply Hup; [|exact Eh]; done).
Qed.

Lemma step_well_formed e st st' :
  step e st = Done st' -> well_formed st -> well_formed st'.
Proof.
  intros Hstep Hwf.
  assert (forall p s s' w,
            heap st !! p = Some s ->
            session_refs s' ⊆+ session_refs s ->
            length (chans w) = length (chans st) ->
            sessions (srv w) ⊆ sessions (srv st) ->
            heap w = <[p := s']> (heap st) -> well_formed w) as Hsame.
  { intros p s s' w Es Hsub Hlen Htbl Eh.
    apply (well_formed_update st w p s s' []); try done.
    - constructor.
    - lia. }
  destruct e as [q r|q|q|uuid r|sessionID q r|tf k]; simpl in Hstep.
  - (* an originator enters RoundTrip *)
    apply fmap_snd_Done in Hstep as (res & Hstep). unfold submit in Hstep.
    apply bind_Done in Hstep as (session & Es%deref_Done & Hstep).
    apply bind_Done in Hstep as ([[res' s1] ch] & Hrt & [= _ <-]).
    unfold RoundTrip in Hrt. destruct (closed session).
    { injection Hrt as _ <- <-. by apply (Hsame q session session). }
    destruct (requests_closed (Requests session)); [done|].
    injection Hrt as _ <- <-.
    eapply (well_formed_update st _ q session _ [length (chans st)] Hwf Es);
      [| | | | |reflexivity].
    + unfold session_refs. simpl. rewrite fmap_app. simpl.
      apply Permutation_submseteq.
      rewrite <- (assoc (++)). simpl. by rewrite <- Permutation_middle.
    + apply NoDup_singleton.
    + simpl. rewrite length_app. simpl. constructor; [lia|constructor].
    + simpl. rewrite length_app. lia.
    + done.
  - (* Close *)
    unfold close_session in Hstep.
    apply bind_Done in Hstep as (session & Es%deref_Done & Hstep).
    apply bind_Done in Hstep as (s1 & [_ ->]%Close_Done & [= <-]).
    apply (Hsame q session
             (set_Requests {| senders := []; requests_closed := true |}
                (set_closed true session))); try done.
    unfold session_refs. simpl. by apply submseteq_inserts_l.
  - (* the idle timer *)
    apply bind_Done in Hstep as (session0 & _ & Hstep).
    destruct (closer session0) as [t|]; [|by injection Hstep as <-].
    destruct (sessions (srv st) !! timer_sessionID t) as [p|] eqn:Et.
    + destruct (closer_fires_Done _ _ _ _ Et Hstep) as (session & Es & ->).
      apply (Hsame p session
               (set_Requests {| senders := []; requests_closed := true |}
                  (set_closed true session))); try done.
      * unfold session_refs. simpl. by apply submseteq_inserts_l.
      * simpl. apply delete_subseteq.
    + unfold closer_fires in Hstep. rewrite Et in Hstep. by injection Hstep as <-.
  - (* a poll up to its select *)
    apply fmap_snd_Done in Hstep as (b & Hstep).
    apply poll_begin_Done in Hstep as (sessionID & p' & st1 & Eb & Hstep).
    eapply poll_locked_well_formed; [done|].
    by eapply bind_session_well_formed.
  - (* a poll that waited for the lock *)
    apply fmap_snd_Done in Hstep as (b & Hstep).
    by eapply poll_locked_well_formed.
  - (* a select *)
    apply fmap_snd_Done in Hstep as (resp & Hstep). unfold poll_select in Hstep.
    apply bind_Done in Hstep as (session & Es%deref_Done & Hstep).
    destruct (select_case tf (Requests session)) as [|req rest|] eqn:Esel.
    + injection Hstep as _ <-.
      by apply (Hsame (sel_session k) session (set_handlerMu false session)).
    + apply select_case_request in Esel.
      destruct (Request_Write (Request_HTTP req)) as [written [err|]].
      * apply bind_Done in Hstep as (ch1 & Hsend & [= _ <-]).
        apply (Hsame (sel_session k) session
                 (set_handlerMu false (set_Requests rest session))); try done.
        -- unfold session_refs. simpl. rewrite Esel. simpl.
           by apply submseteq_cons.
        -- simpl. by rewrite (chan_send_length _ _ _ _ Hsend).
      * injection Hstep as _ <-.
        apply (Hsame (sel_session k) session
                 (set_handlerMu false
                    (set_PendingRequest (Some req) (set_Requests rest session))));
          try done.
        unfold session_refs. simpl. rewrite Esel. simpl.
        rewrite <- Permutation_middle, app_nil_r.
        by apply submseteq_skip, submseteq_inserts_r.
    + injection Hstep as _ <-.
      by apply (Hsame (sel_session k) session (set_handlerMu false session)).
Qed.

Lemma run_well_formed es st st' :
  run es st = Done st' -> well_formed st -> well_formed st'.
Proof.
  revert st. induction es as [|e es IH]; intros st Hrun Hwf.
  - by injection Hrun as <-.
  - simpl in Hrun. apply bind_Done in Hrun as (st1 & Hstep & Hrun).
    eapply IH; [done|]. by eapply step_well_formed.
Qed.

(** A server that has no session yet is well formed. *)
Lemma well_formed_start st :
  heap st = [] -> sessions (srv st) = ∅ -> well_formed st.
Proof.
  intros Eh Et. unfold well_formed. rewrite Eh, Et. simpl.
  split; [by intros id p; rewrite lookup_empty|].
  split; [by intros id id' p; rewrite lookup_empty|].
  split; constructor.
Qed.

Lemma elem_of_concat_lookup {A} (ls : list (list A)) i l x :
  ls !! i = Some l -> x ∈ l -> x ∈ concat ls.
Proof.
  revert i. induction ls as [|l0 ls IH]; intros [|i] E Hx; try done; simpl.
  - injection E as ->. apply elem_of_app. by left.
  - apply elem_of_app. right. by eapply IH.
Qed.

Lemma NoDup_concat_lookup {A} (ls : list (list A)) i j l1 l2 x :
  NoDup (concat ls) ->
  ls !! i = Some l1 -> ls !! j = Some l2 -> x ∈ l1 -> x ∈ l2 -> i = j.
Proof.
  revert i j. induction ls as [|l0 ls IH]; intros [|i] [|j] Hnd E1 E2 H1 H2;
    try done; simpl in *; apply NoDup_app in Hnd as (_ & Hdis & Hnd).
  - injection E1 as ->. exfalso. eapply Hdis; [done|].
    by eapply elem_of_concat_lookup.
  - injection E2 as ->. exfalso. eapply Hdis; [done|].
    by eapply elem_of_concat_lookup.
  - f_equal. by eapply IH.
Qed.

Lemma NoDup_concat_at {A} (ls : list (list A)) i l :
  NoDup (concat ls) -> ls !! i = Some l -> NoDup l.
Proof.
  revert i. induction ls as [|l0 ls IH]; intros [|i] Hnd E; try done;
    simpl in *; apply NoDup_app in Hnd as (Hnd0 & _ & Hnd).
  - by injection E as ->.
  - by eapply IH.
Qed.

(** In a well-formed world, the reply channel of a pending request is held
    by no request blocked in [Requests] and by no other pending slot. *)
Lemma well_formed_alone st p session pending :
  well_formed st ->
  heap st !! p = Some session ->
  PendingRequest session = Some pending ->
  (forall q s req,
      heap st !! q = Some s -> req ∈ senders (Requests s) ->
      Request_Response req <> Request_Response pending)
  /\ (forall q s req,
         heap st !! q = Some s -> q <> p -> PendingRequest s = Some req ->
         Request_Response req <> Request_Response pending).
Proof.
  intros (_ & _ & Hnd & _) Es Ep.
  assert (forall q s, heap st !! q = Some s ->
                      (session_refs <$> heap st) !! q = Some (session_refs s))
    as Hat by (intros q s E; by rewrite list_lookup_fmap, E).
  assert (Request_Response pending ∈ session_refs session) as Hpend.
  { unfold session_refs. rewrite Ep. apply elem_of_app. right. by left. }
  split.
  - intros q s req Eq Hin Ec.
    assert (Request_Response pending ∈ session_refs s) as Hs.
    { unfold session_refs. apply elem_of_app. left. rewrite <- Ec.
      by apply list_elem_of_fmap_2. }
    assert (q = p) as ->
      by (eapply (NoDup_concat_lookup _ q p); eauto).
    assert (s = session) as -> by congruence.
    pose proof (NoDup_concat_at _ _ _ Hnd (Hat _ _ Es)) as Hnds.
    unfold session_refs in Hnds. rewrite Ep in Hnds.
    apply NoDup_app in Hnds as (_ & Hdis & _).
    eapply (Hdis (Request_Response pending)).
    + rewrite <- Ec. by apply list_elem_of_fmap_2.
    + by left.
  - intros q s req Eq Hne Er Ec. apply Hne.
    eapply (NoDup_concat_lookup _ q p); eauto.
    unfold session_refs. rewrite Er. apply elem_of_app. right.
    rewrite <- Ec. by left.
Qed.

(** C2, as the code has it.  A [RoundTrip] on a closed session returns
    [ErrSessionClosed] at once: no reply channel is made.  A [RoundTrip] on
    an open session makes its reply channel, hands its request to [Requests]
    and waits.  The poll that finds this originator pending and still
    waiting completes and delivers exactly one reply to it: the decoded
    response when the body of the poll decodes, the error when it does not;
    the [RoundTrip] then returns that response or that error.  In no
    execution does an originator receive a second reply.  Closing a session
    delivers nothing by itself: neither [Close] nor the idle timer touches a
    reply channel.  After the idle timer has closed and evicted the session
    of a pending originator, a poll that was bound to the session before
    still delivers the reply when it takes the lock; and when no such poll
    is in flight, the originator is never answered: in every execution of a
    server that started without sessions, whatever the goroutines do after
    the eviction, it has received nothing and its [RoundTrip] has not
    returned. *)
Theorem reply_delivered_by_drain :
  (forall r s ch,
      closed s = true ->
      RoundTrip r s ch = Done (Returned None (Some ErrSessionClosed), s, ch))
  /\ (forall r s ch,
         closed s = false -> requests_closed (Requests s) = false ->
         exists s1,
           RoundTrip r s ch
           = Done (Waiting (length ch), s1, ch ++ [make_reply_chan])
           /\ senders (Requests s1)
              = senders (Requests s)
                ++ [{| Request_HTTP := r; Request_Response := length ch |}]
           /\ RoundTrip_return (length ch) (ch ++ [make_reply_chan]) = None)
  /\ (forall uuid r st p session pending,
         sessions (doInit_Do (srv st)) !! Header_Get (req_Header r) "X-Session"
         = Some p ->
         heap st !! p = Some session ->
         handlerMu session = false ->
         PendingRequest session = Some pending ->
         chans st !! Request_Response pending = Some make_reply_chan ->
         let reply := drained_reply (default "" (req_Body r)) pending in
         exists b st',
           poll_begin uuid r st = Done (b, st')
           /\ received_at (Request_Response pending) st' = [reply]
           /\ RoundTrip_return (Request_Response pending) (chans st')
              = Some (Response_HTTP reply, Response_Err reply))
  /\ (forall es st st',
         run es st = Done st' ->
         at_most_once (chans st) -> at_most_once (chans st'))
  /\ (forall q st st', close_session q st = Done st' -> chans st' = chans st)
  /\ (forall (t : Timer) st st',
         closer_fires t st = Done st' -> chans st' = chans st)
  /\ (forall (t : Timer) st st1 sessionID p r session pending,
         sessions (srv st) !! timer_sessionID t = Some p ->
         heap st !! p = Some session ->
         handlerMu session = false ->
         PendingRequest session = Some pending ->
         chans st !! Request_Response pending = Some make_reply_chan ->
         closer_fires t st = Done st1 ->
         let reply := drained_reply (default "" (req_Body r)) pending in
         sessions (srv st1) !! timer_sessionID t = None
         /\ closed <$> heap st1 !! p = Some true
         /\ exists b st',
             poll_locked sessionID p r st1 = Done (b, st')
             /\ received_at (Request_Response pending) st' = [reply]
             /\ RoundTrip_return (Request_Response pending) (chans st')
                = Some (Response_HTTP reply, Response_Err reply))
  /\ (forall st0 es0 (t : Timer) st st1 p session pending es st2,
         heap st0 = [] -> sessions (srv st0) = ∅ ->
         run es0 st0 = Done st ->
         sessions (srv st) !! timer_sessionID t = Some p ->
         heap st !! p = Some session ->
         PendingRequest session = Some pending ->
         chans st !! Request_Response pending = Some make_reply_chan ->
         closer_fires t st = Done st1 ->
         Forall (no_stale_poll p) es ->
         run es st1 = Done st2 ->
         received_at (Request_Response pending) st2 = []
         /\ RoundTrip_return (Request_Response pending) (chans st2) = None).
Proof.
  split; [apply RoundTrip_closed|].
  split; [|split; [|split; [apply run_at_most_once|]]].
  - intros r s ch E1 E2. unfold RoundTrip. rewrite E1, E2.
    eexists. split; [reflexivity|]. split; [done|].
    unfold RoundTrip_return. by rewrite lookup_app_r, Nat.sub_diag.
  - intros uuid r st p session pending Et Es Emu Ep Ec reply.
    destruct (bind_session_cases uuid r st) as [(p' & Et' & Eb)|[Et' _]];
      [|congruence].
    assert (p' = p) as -> by congruence.
    destruct (drain_response_delivers (default "" (req_Body r))
                (set_closer (idle_timer
                   {| srv := doInit_Do (srv st); heap := heap st;
                      chans := chans st; connects := connects st |}
                   (Header_Get (req_Header r) "X-Session")) session)
                (chans st) pending Ep Ec)
      as (go & session' & ch' & Ed & Er).
    destruct (poll_begin_completes _ _ _ _ _ _ _ _ _ _ Eb Es Emu Ed)
      as (b & st' & Hb & Ech).
    exists b, st'. split; [done|]. rewrite Ech.
    split; [|by apply RoundTrip_return_received].
    unfold received_at. by rewrite Ech, Er.
  - split; [apply close_session_chans|]. split; [apply closer_fires_chans|].
    split.
    + intros t st st1 sessionID p r session pending Et Es Emu Ep Ec Hf reply.
      destruct (stale_poll_delivers t st st1 sessionID p r session pending
                  Et Es Emu Ep Ec Hf) as (Hgone & Hclosed & b & st' & Hb & Hr).
      split; [done|]. split; [done|]. exists b, st'. split; [done|].
      split; [|by apply RoundTrip_return_received].
      unfold received_at. by rewrite Hr.
    + intros st0 es0 t st st1 p session pending es st2 Eh0 Et0 Hrun0
             Et Es Ep Ec Hf.
      assert (well_formed st) as Hwf
        by (eapply run_well_formed; [done|by apply well_formed_start]).
      destruct (well_formed_alone st p session pending Hwf Es Ep) as [Hsend Hpend].
      apply orphaned_unless_stale.
      * eapply eviction_orphans; try done.
        intros id Hid. destruct Hwf as (_ & Hinj & _). by eapply Hinj.
      * by eapply eviction_sole_holder.
Qed.

End Closure_properties.

(** * The package at work *)

Section Examples.
#[local] Existing Instance sampleLib.

Example sample_ParseDuration_ex :
  sample_ParseDuration "200ms" = Some (200 * Millisecond)
  /\ sample_ParseDuration "1m0s" = Some Minute
  /\ sample_ParseDuration "not-a-valid-time" = None
  /\ sample_ParseDuration "" = None.
Proof. vm_compute. auto. Qed.

Example sample_Duration_String_ex :
  sample_Duration_String (150 * Millisecond) = "150ms"
  /\ sample_Duration_String Minute = "1m0s"
  /\ sample_Duration_String (2 * Minute) = "2m0s".
Proof. vm_compute. auto. Qed.

Example good_body_ex :
  good_body
  = "HTTP/1.1 200 OK" +:+ CRLF +:+ "X-Foo: Bar" +:+ CRLF +:+ CRLF
    +:+ "asdf asdf asdf".
Proof. vm_compute. reflexivity. Qed.

Example outstanding_world_reached :
  run outstanding_events world0 = Done outstanding_world
  /\ pending_at 0 outstanding_world = Some frob_request
  /\ received_at 0 outstanding_world = [].
Proof. vm_compute. auto. Qed.

(** The polls of the package's test of bad timeouts, on a server with
    [min = 50ms] and [max = 150ms]. *)
Example bad_timeout_values :
  (exists resp st,
      ServeHTTP "s1" true (poll "" "not-a-valid-time" None) world0 = Done (resp, st)
      /\ resp_StatusCode resp = 400)
  /\ (exists resp st,
         ServeHTTP "s1" true (poll "" "200ms" None) world0 = Done (resp, st)
         /\ resp_StatusCode resp = 204
         /\ Header_Get (resp_Header resp) "X-Warning"
            = "timeout value too high, forcing to maximum 150ms")
  /\ (exists resp st,
         ServeHTTP "s1" true (poll "" "10ms" None) world0 = Done (resp, st)
         /\ resp_StatusCode resp = 204
         /\ Header_Get (resp_Header resp) "X-Warning"
            = "timeout value too low, forcing to minimum 50ms").
Proof.
  repeat split; do 2 eexists; (split; [vm_compute; reflexivity|]);
    vm_compute; auto.
Qed.

(** C1 fails on the code.  With [frob] outstanding on session ["s1"], a poll
    whose body is no HTTP response is answered [400] and the decode error is
    delivered to the originator, but the pending slot still holds [frob].
    The session is then unusable: the next poll on it, whatever its body,
    enters the drain again and sends on the reply channel of an originator
    that has already returned; it blocks for ever, holding the lock. *)
Theorem drain_failure_leaves_pending :
  exists resp st1,
    run outstanding_events world0 = Done outstanding_world
    /\ pending_at 0 outstanding_world = Some frob_request
    /\ poll_begin "u2" (poll "s1" "1m0s" (Some garbage_body)) outstanding_world
       = Done (Answered resp, st1)
    /\ resp_StatusCode resp = 400
    /\ received_at 0 st1
       = [{| Response_Err := Some (ErrLib "malformed HTTP response");
             Response_HTTP := None |}]
    /\ pending_at 0 st1 = Some frob_request
    /\ handlerMu <$> heap st1 !! 0%nat = Some false
    /\ poll_begin "u3" (poll "s1" "1m0s" (Some good_body)) st1
       = Blocked "send without receiver"
    /\ poll_begin "u3" (poll "s1" "1m0s" None) st1
       = Blocked "send without receiver".
Proof.
  do 2 eexists. split; [vm_compute; reflexivity|].
  split; [vm_compute; reflexivity|]. split; [vm_compute; reflexivity|].
  vm_compute. auto 10.
Qed.

(** C2 fails on the code when a session is closed.  [frob] is outstanding
    on session ["s1"] and its originator waits for the reply.  The idle
    timer fires: the session is closed and evicted, and nothing is delivered.
    No poll is in flight at that moment (none that was bound to the session
    is still to take its lock), and from then on, whatever the goroutines do
    (any polls, with any session id and body, any submits, closes and
    timers), the originator has received nothing and its [RoundTrip] has not
    returned. *)
Lemma closure_delivers_nothing :
  run outstanding_events world0 = Done outstanding_world
  /\ pending_at 0 outstanding_world = Some frob_request
  /\ received_at 0 outstanding_world = []
  /\ step (EvIdle 0) outstanding_world = Done evicted_world
  /\ closed <$> heap evicted_world !! 0%nat = Some true
  /\ sessions (srv evicted_world) !! "s1" = None
  /\ received_at 0 evicted_world = []
  /\ handlerMu <$> heap evicted_world !! 0%nat = Some false
  /\ (forall es st,
        Forall locks_at_once es ->
        run es evicted_world = Done st ->
        received_at 0 st = [] /\ RoundTrip_return 0 (chans st) = None).
Proof.
  do 8 (split; [vm_compute; reflexivity|]).
  intros es st. apply orphaned_for_ever. split.
  - eexists. split; [vm_compute; reflexivity|done].
  - assert (sessions (srv evicted_world) = ∅) as Et by (vm_compute; reflexivity).
    intros [|p] session.
    + intros [= <-]. split.
      * intros req. vm_compute. by intros ?%elem_of_nil.
      * intros req _ _ id. by rewrite Et, lookup_empty.
    + vm_compute. by destruct p.
Qed.

(** But a poll that was bound to the session before the timer fired, and
    takes the lock after it, still delivers the response: the eviction does
    not take the session from a handler that holds its pointer. *)
Example stale_poll_delivers_after_eviction :
  sessions (srv evicted_world) !! "s1" = None
  /\ pending_at 0 evicted_world = Some frob_request
  /\ received_at 0 evicted_world = []
  /\ exists st,
      run [EvLocked "s1" 0 good_poll] evicted_world = Done st
      /\ received_at 0 st
         = [{| Response_Err := None; Response_HTTP := Some good_response |}].
Proof.
  do 3 (split; [vm_compute; reflexivity|]).
  eexists. split; vm_compute; reflexivity.
Qed.

(** The drain of a poll that carries the handler's response delivers it to
    the waiting originator, once; and after the idle timer evicted the
    session with no poll in flight, a new poll with the old id and a new
    originator leave the first originator without an answer. *)
Lemma reply_delivered_by_drain_witness :
  (exists b st',
    poll_begin "u2" (poll "s1" "1m0s" (Some good_body)) outstanding_world
    = Done (b, st')
    /\ received_at 0 st'
       = [drained_reply (default "" (req_Body (poll "s1" "1m0s" (Some good_body))))
            frob_request]
    /\ RoundTrip_return 0 (chans st')
       = Some (Response_HTTP
                 (drained_reply
                    (default "" (req_Body (poll "s1" "1m0s" (Some good_body))))
                    frob_request),
               Response_Err
                 (drained_reply
                    (default "" (req_Body (poll "s1" "1m0s" (Some good_body))))
                    frob_request)))
  /\ (exists st2,
        run [EvBegin "u3" good_poll; EvSubmit 1 frob] evicted_world = Done st2
        /\ received_at 0 st2 = []
        /\ RoundTrip_return 0 (chans st2) = None).
Proof.
  split.
  - destruct reply_delivered_by_drain as (_ & _ & Hdrain & _).
    refine (Hdrain "u2" (poll "s1" "1m0s" (Some good_body)) outstanding_world
              0%nat _ frob_request _ _ _ _ _);
      vm_compute; reflexivity.
  - destruct reply_delivered_by_drain as (_ & _ & _ & _ & _ & _ & _ & Hnever).
    eexists. split; [vm_compute; reflexivity|].
    apply (Hnever world0 outstanding_events sample_timer outstanding_world
             evicted_world 0%nat outstanding_session frob_request
             [EvBegin "u3" good_poll; EvSubmit 1 frob]).
    + reflexivity.
    + reflexivity.
    + vm_compute. reflexivity.
    + vm_compute. reflexivity.
    + vm_compute. reflexivity.
    + reflexivity.
    + vm_compute. reflexivity.
    + vm_compute. reflexivity.
    + repeat constructor.
    + vm_compute. reflexivity.
Defined.

(** C3 fails on the code: the second [Close] of a session panics. *)
Lemma Close_twice_panics :
  exists s1,
    Close newSession = Done s1
    /\ Close s1 = Panic "close of closed channel".
Proof. eexists. split; reflexivity. Qed.

Lemma Close_effect_witness :
  exists s1,
    Close newSession = Done s1
    /\ closed s1 = true
    /\ requests_closed (Requests s1) = true
    /\ PendingRequest s1 = PendingRequest newSession
    /\ handlerMu s1 = handlerMu newSession
    /\ closer s1 = closer newSession
    /\ (forall r ch,
          RoundTrip r s1 ch = Done (Returned None (Some ErrSessionClosed), s1, ch))
    /\ select_case false (Requests s1) = SelClosed
    /\ (forall k st,
          heap st !! sel_session k = Some s1 ->
          exists st',
            poll_select false k st = Done (answer 410 (sel_header k) "", st'))
    /\ Close s1 = Panic "close of closed channel".
Proof. exact (Close_effect newSession eq_refl eq_refl eq_refl). Defined.

(** C4 fails on the code when the header [X-Timeout] is present with an
    empty value: the header is there and the empty string is no duration,
    yet the poll is not answered [400]; it waits (one minute capped to the
    maximum) and is answered [204], with no [X-Error]. *)
Lemma empty_timeout_header_not_rejected :
  Header_present (req_Header empty_timeout_poll) "X-Timeout" = true
  /\ ParseDuration (Header_Get (req_Header empty_timeout_poll) "X-Timeout") = None
  /\ exists resp st,
       ServeHTTP "s1" true empty_timeout_poll world0 = Done (resp, st)
       /\ resp_StatusCode resp = 204
       /\ Header_present (resp_Header resp) "X-Error" = false.
Proof.
  split; [vm_compute; reflexivity|]. split; [vm_compute; reflexivity|].
  do 2 eexists. split; [vm_compute; reflexivity|]. vm_compute. auto.
Qed.

Lemma poll_timeout_clamps_witness :
  poll_timeout sample_server (req_Header (poll "" "200ms" None)) ∅
  = inr (LongPollMaxTimeout sample_server,
         Header_Add ∅ "X-Warning"
           ("timeout value too high, forcing to maximum "
            +:+ Duration_String (LongPollMaxTimeout sample_server))).
Proof.
  destruct (poll_timeout_clamps sample_server
              (req_Header (poll "" "200ms" None)) ∅) as [_ Hclamp].
  destruct (Hclamp (200 * Millisecond)) as [Hhigh _].
  - right. split; [vm_compute; congruence|vm_compute; reflexivity].
  - vm_compute. congruence.
  - apply Hhigh. vm_compute. reflexivity.
Defined.

(** C5 fails on the code when writing the request fails: the poll is
    answered [200] with the content type of a request, but the originator is
    not recorded in the pending slot (it is handed the error instead). *)
Lemma write_failure_not_pending :
  exists st resp st',
    run [EvBegin "s1" (poll "" "1m0s" None); EvSubmit 0 broken] world0 = Done st
    /\ senders <$> (Requests <$> heap st !! 0%nat)
       = Some [{| Request_HTTP := broken; Request_Response := 0 |}]
    /\ poll_select false first_selecting st = Done (resp, st')
    /\ resp_StatusCode resp = 200
    /\ Header_Get (resp_Header resp) "Content-Type" = "application/x-http-request"
    /\ pending_at 0 st' = None
    /\ received_at 0 st'
       = [{| Response_Err := Some (ErrLib "write: broken pipe");
             Response_HTTP := None |}].
Proof.
  do 3 eexists. split; [vm_compute; reflexivity|].
  split; [vm_compute; reflexivity|]. split; [vm_compute; reflexivity|].
  vm_compute. auto.
Qed.

Lemma rendezvous_outcomes_witness :
  exists st',
    poll_select false first_selecting submitted_world
    = Done (answer 200
              (Header_Add (sel_header first_selecting) "Content-type"
                 "application/x-http-request")
              frob_wire,
            st')
    /\ PendingRequest <$> heap st' !! sel_session first_selecting
       = Some (Some frob_request)
    /\ chans st' = chans submitted_world.
Proof.
  assert (Hb : exists st1,
               poll_locked "s1" 0 (poll "" "1m0s" None) bound_world
               = Done (Selecting first_selecting, st1)).
  { eexists. vm_compute. reflexivity. }
  destruct Hb as [st1 Hb].
  assert (Es : heap submitted_world !! sel_session first_selecting
               = Some submitted_session) by (vm_compute; reflexivity).
  pose proof (rendezvous_outcomes "s1" 0 (poll "" "1m0s" None) bound_world
                first_selecting st1 false submitted_world submitted_session
                Hb Es) as Hout.
  cbv zeta in Hout.
  change (select_case false (Requests submitted_session))
    with (SelRequest frob_request {| senders := []; requests_closed := false |})
    in Hout.
  destruct Hout as [_ Hout].
  assert (Ew : Request_Write (Request_HTTP frob_request) = (frob_wire, None))
    by (vm_compute; reflexivity).
  rewrite Ew in Hout. exact Hout.
Defined.

Lemma pending_empty_on_204_410_witness :
  exists st3,
    sel_session first_selecting = 0%nat
    /\ PendingRequest <$> heap st3 !! 0%nat = Some None.
Proof.
  eexists.
  eapply (proj2 (pending_empty_on_204_410 "s1" 0 (poll "" "1m0s" None) bound_world))
    with (k := first_selecting) (es := [EvBegin "s2" (poll "" "" None)])
         (timer_first := true).
  - vm_compute. reflexivity.
  - repeat constructor.
  - vm_compute. reflexivity.
  - vm_compute. reflexivity.
  - left. reflexivity.
Defined.

Lemma effective_timeout_cap_then_raise_witness :
  exists h',
    poll_timeout sample_server (req_Header (poll "" "200ms" None)) ∅
    = inr (Z.max (LongPollMinTimeout sample_server)
             (Z.min (200 * Millisecond) (LongPollMaxTimeout sample_server)), h').
Proof.
  destruct (effective_timeout_cap_then_raise sample_server
              (req_Header (poll "" "200ms" None)) ∅ (200 * Millisecond))
    as (h' & Hwait & _).
  - vm_compute. reflexivity.
  - exists h'. exact Hwait.
Defined.


(** C8 fails on the code as the specification words it.  A handler adds a
    header whose key is no field name and a header whose value has white
    space around it, then writes.  Both are in the header map, but the first
    has no line on the wire and the second is written without the white
    space: the wire is not the status line, one line [Name: Value\r\n] per
    header, the blank line and the body. *)
Lemma header_block_not_one_line_per_header :
  header (do_calls odd_calls new_ResponseWriter) = Some odd_header
  /\ odd_header !! "bad key" = Some ["x"]
  /\ odd_header !! "X-Foo" = Some [" v "]
  /\ w (do_calls odd_calls new_ResponseWriter)
     = "HTTP/1.1 200 OK" +:+ CRLF +:+ "X-Foo: v" +:+ CRLF +:+ CRLF +:+ "body"
  /\ spec_header_block odd_header
     = "X-Foo:  v " +:+ CRLF +:+ "bad key: x" +:+ CRLF
  /\ w (do_calls odd_calls new_ResponseWriter)
     <> "HTTP/1.1 200 OK" +:+ CRLF +:+ spec_header_block odd_header +:+ CRLF
        +:+ "body".
Proof.
  do 5 (split; [vm_compute; reflexivity|]).
  vm_compute. discriminate.
Qed.

(** The bytes of [frob_handler] on the wire: the default status, its header
    and its body. *)
Lemma ResponseWriter_wire_format_witness :
  w (do_calls (frob_handler frob) new_ResponseWriter)
  = "HTTP/1.1 200 OK" +:+ CRLF +:+ "X-Foo: Bar" +:+ CRLF +:+ CRLF
    +:+ "asdf asdf asdf".
Proof.
  unfold new_ResponseWriter.
  rewrite (proj1 ResponseWriter_wire_format (frob_handler frob) None).
  vm_compute. reflexivity.
Defined.

Example teapot_on_the_wire :
  w (do_calls [CallWriteHeader StatusTeapot; CallWriteHeader 200; CallWrite "tea"]
       new_ResponseWriter)
  = "HTTP/1.1 418 I'm a teapot" +:+ CRLF +:+ CRLF +:+ "tea".
Proof. vm_compute. reflexivity. Qed.

(** The client posts again after a [204], with the session id it was given;
    after a [200] that carries [frob] it decodes the request and posts what
    its handler wrote. *)
Lemma ConnectAndServe_status_dispatch_witness :
  (iteration "http://localhost:8100" frob_handler no_content
   = Post (next_poll "http://localhost:8100"
             (Header_Get (resp_Header no_content) "X-Session"))
   /\ Header_Get (resp_Header no_content) "X-Session" = "s1")
  /\ iteration "http://localhost:8100" frob_handler frob_answer
     = Post (response_poll "http://localhost:8100" frob_handler
               (Header_Get (resp_Header frob_answer) "X-Session") frob_decoded)
  /\ req_Body (response_poll "http://localhost:8100" frob_handler
                 (Header_Get (resp_Header frob_answer) "X-Session") frob_decoded)
     = Some good_body.
Proof.
  split.
  - split; [|vm_compute; reflexivity].
    apply (proj1 (ConnectAndServe_status_dispatch scripted_Do
                    "http://localhost:8100" frob_handler no_content)).
    reflexivity.
  - pose proof (ConnectAndServe_status_dispatch scripted_Do
                  "http://localhost:8100" frob_handler frob_answer) as Hd.
    cbv zeta in Hd. destruct Hd as (_ & _ & _ & Hok & _).
    destruct Hok as (_ & _ & Hdecoded); [reflexivity|].
    destruct (Hdecoded frob_decoded) as (Hpost & Hbody & _).
    + vm_compute. reflexivity.
    + split; [exact Hpost|]. rewrite Hbody. vm_compute. reflexivity.
Defined.

(** The client loop against a script: a [204], then a [410]. *)
Example ConnectAndServe_gone :
  exists log,
    ConnectAndServe scripted_Do "http://localhost:8100" frob_handler 5
      ([], [inl no_content; inl (answer StatusGone (Header_Add ∅ "X-Session" "s1") "")])
    = (Some ErrSessionClosed, (log, []))
    /\ length log = 2%nat
    /\ (fun r => Header_Get (req_Header r) "X-Session") <$> log = [""; "s1"]
    /\ req_Body <$> log = [None; None].
Proof. eexists. split; [vm_compute; reflexivity|]. vm_compute. auto. Qed.

End Examples.

(** * More of the package *)

(** ** Session binding and the answers' headers *)

Section Binding_properties.
Context `{!GoLib}.

Lemma Header_Get_X_Session_Add (h : Header) key value :
  CanonicalMIMEHeaderKey key <> "X-Session" ->
  Header_Get (Header_Add h key value) "X-Session" = Header_Get h "X-Session".
Proof. intros Hne. by apply Header_Get_Add_ne. Qed.

Lemma clamp_timeout_keeps_session s timeout (h : Header) :
  Header_Get (snd (clamp_timeout s timeout h)) "X-Session" = Header_Get h "X-Session".
Proof.
  rewrite clamp_timeout_header. simpl.
  destruct (LongPollMaxTimeout s <? timeout);
    destruct (_ <? LongPollMinTimeout s);
    rewrite ?Header_Get_X_Session_Add; done.
Qed.

Lemma poll_timeout_keeps_session s reqh (h : Header) :
  match poll_timeout s reqh h with
  | inl bad => Header_Get (resp_Header bad) "X-Session" = Header_Get h "X-Session"
  | inr (_, h_ok) => Header_Get h_ok "X-Session" = Header_Get h "X-Session"
  end.
Proof.
  unfold poll_timeout. destruct (candidate_timeout reqh) as [cand|].
  - destruct (clamp_timeout s cand h) as [t h_ok] eqn:E.
    replace h_ok with (snd (clamp_timeout s cand h)) by by rewrite E.
    apply clamp_timeout_keeps_session.
  - simpl. by rewrite Header_Get_X_Session_Add.
Qed.

Lemma poll_answers_carry_session sessionID p r st :
  (forall resp st1,
      poll_locked sessionID p r st = Done (Answered resp, st1) ->
      Header_Get (resp_Header resp) "X-Session" = sessionID)
  /\ (forall k st1 timer_first st2 resp st3,
         poll_locked sessionID p r st = Done (Selecting k, st1) ->
         poll_select timer_first k st2 = Done (resp, st3) ->
         Header_Get (resp_Header resp) "X-Session" = sessionID).
Proof.
  assert (Header_Get (Header_Add ∅ "X-Session" sessionID) "X-Session" = sessionID)
    as Hid by by apply Header_Get_Add_fresh.
  pose proof (poll_timeout_keeps_session (srv st) (req_Header r)
                (Header_Add ∅ "X-Session" sessionID)) as Hkeep.
  split.
  - intros resp st1
      (session & go & session' & ch & _ & _ & _ & _ & _ & _ & Hcase)%poll_locked_Done.
    destruct Hcase as [(_ & [= ->] & _)|[(_ & bad & Et & [= ->] & _)|(_ & ? & ? & _ & ? & _)]];
      [done| |done].
    rewrite Et in Hkeep. by rewrite Hkeep.
  - intros k st1 timer_first st2 resp st3 Et%poll_locked_timeout Hs.
    rewrite Et in Hkeep. rewrite Hid in Hkeep.
    unfold poll_select in Hs.
    apply bind_Done in Hs as (session & _ & Hs).
    destruct (select_case timer_first (Requests session)) as [|req rest|].
    + by injection Hs as <- _.
    + destruct (Request_Write (Request_HTTP req)) as [written [err|]].
      * apply bind_Done in Hs as (ch1 & _ & [= <- _]). simpl.
        by rewrite Header_Get_X_Session_Add.
      * injection Hs as <- _. simpl. by rewrite Header_Get_X_Session_Add.
    + by injection Hs as <- _.
Qed.

(** Every answer of the poll handler carries the id of the session the poll
    was bound to in its header [X-Session]: the answers [400] given before
    the [select], and the answers [204], [410] and [200] of the [select],
    whatever happened while the poll waited. *)
Theorem answers_echo_session sessionID p r st :
  (forall resp st1,
      poll_locked sessionID p r st = Done (Answered resp, st1) ->
      Header_Get (resp_Header resp) "X-Session" = sessionID)
  /\ (forall k st1 timer_first st2 resp st3,
         poll_locked sessionID p r st = Done (Selecting k, st1) ->
         poll_select timer_first k st2 = Done (resp, st3) ->
         Header_Get (resp_Header resp) "X-Session" = sessionID).
Proof. apply poll_answers_carry_session. Qed.

Lemma doInit_Do_done s : doInit (doInit_Do s) = true.
Proof. unfold doInit_Do. by destruct (doInit s) eqn:E. Qed.

Lemma doInit_Do_id s : doInit s = true -> doInit_Do s = s.
Proof. intros E. unfold doInit_Do. by rewrite E. Qed.

Lemma bind_session_srv uuid r st sessionID p st1 :
  bind_session uuid r st = (sessionID, p, st1) ->
  doInit (srv st1) = true
  /\ (forall id, id <> uuid -> sessions (srv st1) !! id = sessions (srv st) !! id).
Proof.
  destruct (bind_session_cases uuid r st) as [(p' & Ep & ->)|[Ep ->]];
    intros [= <- <- <-]; simpl.
  - split; [apply doInit_Do_done|]. intros id _. by rewrite sessions_doInit_Do.
  - split; [apply doInit_Do_done|]. intros id Hne.
    by rewrite lookup_insert_ne, sessions_doInit_Do.
Qed.

Lemma poll_locked_srv sessionID p r st b st' :
  poll_locked sessionID p r st = Done (b, st') -> srv st' = srv st.
Proof.
  by intros (session & go & session' & ch & _ & _ & _ & -> & _)%poll_locked_Done.
Qed.

Lemma poll_select_srv tf k st resp st' :
  poll_select tf k st = Done (resp, st') -> srv st' = srv st.
Proof.
  unfold poll_select. intros (session & _ & Hs)%bind_Done.
  destruct (select_case tf (Requests session)) as [|req rest|].
  - by injection Hs as _ <-.
  - destruct (Request_Write (Request_HTTP req)) as [written [err|]].
    + by apply bind_Done in Hs as (ch1 & _ & [= _ <-]).
    + by injection Hs as _ <-.
  - by injection Hs as _ <-.
Qed.

Lemma submit_srv q r st res st' :
  submit q r st = Done (res, st') -> srv st' = srv st.
Proof.
  unfold submit. intros (session & _ & Hs)%bind_Done.
  by apply bind_Done in Hs as ([[res' s1] ch] & _ & [= _ <-]).
Qed.

Lemma close_session_srv q st st' :
  close_session q st = Done st' -> srv st' = srv st.
Proof.
  unfold close_session.
  by intros (session & _ & (s1 & _ & [= <-])%bind_Done)%bind_Done.
Qed.

(** While no idle timer fires and no new session is made under the same
    id, the table keeps pointing the id to the same session. *)
Lemma step_keeps_id sessionID p e st st' :
  keeps_id sessionID e -> step e st = Done st' ->
  sessions (srv st) !! sessionID = Some p /\ doInit (srv st) = true ->
  sessions (srv st') !! sessionID = Some p /\ doInit (srv st') = true.
Proof.
  intros Hk Hstep [Et Ei].
  destruct e as [q r|q|q|uuid r|sid q r|tf k]; simpl in Hstep, Hk; [| |done| | |].
  - apply fmap_snd_Done in Hstep as (res & Hstep).
    by rewrite (submit_srv _ _ _ _ _ Hstep).
  - by rewrite (close_session_srv _ _ _ Hstep).
  - apply fmap_snd_Done in Hstep as (b & Hstep).
    apply poll_begin_Done in Hstep as (sid & p' & st1 & Eb & Hstep).
    rewrite (poll_locked_srv _ _ _ _ _ _ Hstep).
    apply bind_session_srv in Eb as [Ei' Et'].
    split; [|done]. by rewrite Et' by done.
  - apply fmap_snd_Done in Hstep as (b & Hstep).
    by rewrite (poll_locked_srv _ _ _ _ _ _ Hstep).
  - apply fmap_snd_Done in Hstep as (resp & Hstep).
    by rewrite (poll_select_srv _ _ _ _ _ Hstep).
Qed.

(** Consecutive polls on the same [X-Session] observe the same session.  A
    poll was bound to the session at [p] under the id [sessionID] (the id of
    its header, or a new one); then, after any steps in which no idle timer
    fires and no new session is made under that same id, a poll whose header
    [X-Session] is [sessionID] is bound to the session at [p] again, and its
    binding makes no session and changes nothing. *)
Theorem consecutive_polls_same_session uuid r st sessionID p st0 b st1 es st2
    uuid' r' :
  bind_session uuid r st = (sessionID, p, st0) ->
  poll_locked sessionID p r st0 = Done (b, st1) ->
  Forall (keeps_id sessionID) es ->
  run es st1 = Done st2 ->
  Header_Get (req_Header r') "X-Session" = sessionID ->
  bind_session uuid' r' st2 = (sessionID, p, st2).
Proof.
  intros Eb Hl Hes Hrun Hid.
  assert (sessions (srv st2) !! sessionID = Some p /\ doInit (srv st2) = true)
    as [Et Ei].
  { assert (sessions (srv st1) !! sessionID = Some p /\ doInit (srv st1) = true)
      as Hinv.
    { rewrite (poll_locked_srv _ _ _ _ _ _ Hl).
      split; [by eapply bind_session_table|].
      by apply bind_session_srv in Eb as [? _]. }
    clear Eb Hl. revert st1 Hrun Hinv.
    induction Hes as [|e es He _ IH]; intros st1 Hrun Hinv.
    - by injection Hrun as <-.
    - simpl in Hrun. apply bind_Done in Hrun as (st1' & Hstep & Hrun).
      eapply IH; [done|]. by eapply step_keeps_id. }
  unfold bind_session. rewrite (doInit_Do_id _ Ei), Hid, Et.
  by destruct st2.
Qed.

End Binding_properties.

(** ** The lock, the idle timer and the slot *)

Section Discipline_properties.
Context `{!GoLib}.

Lemma poll_locked_session sessionID p r st b st' :
  poll_locked sessionID p r st = Done (b, st') ->
  exists session',
    heap st' !! p
    = Some (set_handlerMu (match b with Selecting _ => true | Answered _ => false end)
              session')
    /\ handlerMu session' = false
    /\ closer session' = idle_timer st sessionID.
Proof.
  intros (session & go & session' & ch & Es & Emu & Ed & _ & _ & _ & Hcase)%poll_locked_Done.
  apply drain_response_Done in Ed as (Emu' & _ & _ & Ecl & _).
  simpl in Emu', Ecl. rewrite Emu in Emu'.
  assert (Hlt : (p < length (heap st))%nat) by by eapply lookup_lt_Some.
  assert (set_handlerMu false session' = session') as Hsame.
  { destruct session'; simpl in *. unfold set_handlerMu; simpl. congruence. }
  exists session'. split; [|split; [congruence|done]].
  destruct Hcase as [(_ & -> & ->)|[(_ & bad & _ & -> & ->)|(_ & ? & ? & _ & -> & ->)]];
    rewrite list_lookup_insert_eq by done; by rewrite ?Hsame.
Qed.

(** Every poll that completes its first phase re-arms the idle timer of its
    session, whatever it answers (also when it is answered [400]): the timer
    waits [SessionIdleTimeout] and is to close and evict the session found
    under the id the poll was bound with. *)
Theorem poll_rearms_idle_timer sessionID p r st b st' :
  poll_locked sessionID p r st = Done (b, st') ->
  closer <$> heap st' !! p
  = Some (Some {| timer_d := SessionIdleTimeout (srv st);
                  timer_sessionID := sessionID |}).
Proof.
  intros (session' & -> & _ & Ec)%poll_locked_session. simpl. by rewrite Ec.
Qed.

Lemma poll_select_session tf k st resp st' :
  poll_select tf k st = Done (resp, st') ->
  exists session',
    heap st' !! sel_session k = Some session' /\ handlerMu session' = false.
Proof.
  unfold poll_select.
  intros (session & Es%deref_Done & Hs)%bind_Done.
  assert (Hlt : (sel_session k < length (heap st))%nat) by by eapply lookup_lt_Some.
  destruct (select_case tf (Requests session)) as [|req rest|].
  - injection Hs as _ <-. simpl. rewrite list_lookup_insert_eq by done. eauto.
  - destruct (Request_Write (Request_HTTP req)) as [written [err|]].
    + apply bind_Done in Hs as (ch1 & _ & [= _ <-]). simpl.
      rewrite list_lookup_insert_eq by done. eauto.
    + injection Hs as _ <-. simpl. rewrite list_lookup_insert_eq by done. eauto.
  - injection Hs as _ <-. simpl. rewrite list_lookup_insert_eq by done. eauto.
Qed.

(** The handler lock.  A poll for a session whose lock is held does not go
    on (it waits at [handlerMu.Lock]); a poll answered before its [select]
    has released the lock when it returns; a poll suspended in its [select]
    holds it; and the [select], whatever it answers, releases it. *)
Theorem handler_lock_discipline sessionID p r st :
  (forall session,
      heap st !! p = Some session -> handlerMu session = true ->
      poll_locked sessionID p r st = Blocked "handlerMu.Lock")
  /\ (forall resp st',
         poll_locked sessionID p r st = Done (Answered resp, st') ->
         handlerMu <$> heap st' !! p = Some false)
  /\ (forall k st',
         poll_locked sessionID p r st = Done (Selecting k, st') ->
         handlerMu <$> heap st' !! p = Some true)
  /\ (forall k timer_first st2 resp st3,
         poll_select timer_first k st2 = Done (resp, st3) ->
         handlerMu <$> heap st3 !! sel_session k = Some false).
Proof.
  split; [|split; [|split]].
  - intros session Es Emu. unfold poll_locked.
    by rewrite (deref_Some _ _ _ Es), Done_bind, Emu.
  - by intros resp st' (session' & -> & _)%poll_locked_session.
  - by intros k st' (session' & -> & _)%poll_locked_session.
  - intros k tf st2 resp st3 (session' & -> & Emu)%poll_select_session.
    simpl. by rewrite Emu.
Qed.

(** Only one request is in flight.  When the [select] of a poll takes a
    request from [Requests] (the poll is answered [200]), the pending slot
    of its session was empty, whatever the other goroutines did while the
    poll waited: no outstanding originator is ever overwritten.  The request
    taken is the oldest blocked in [Requests], and after the [select] the
    slot holds that request or, when writing it failed, nothing. *)
Theorem one_request_in_flight sessionID p r st0 k st1 es st2 timer_first resp st3 :
  poll_locked sessionID p r st0 = Done (Selecting k, st1) ->
  Forall (other_than p) es ->
  run es st1 = Done st2 ->
  poll_select timer_first k st2 = Done (resp, st3) ->
  resp_StatusCode resp = 200 ->
  PendingRequest <$> heap st2 !! p = Some None
  /\ exists req rest,
      senders <$> (Requests <$> heap st2 !! p) = Some (req :: rest)
      /\ senders <$> (Requests <$> heap st3 !! p) = Some rest
      /\ (PendingRequest <$> heap st3 !! p = Some (Some req)
          \/ PendingRequest <$> heap st3 !! p = Some None).
Proof.
  intros Hb Hes Hrun Hs Hcode.
  apply poll_locked_Selecting in Hb as [Ek Hb].
  destruct (run_held _ _ _ _ Hes Hrun Hb) as (session & Es & _ & Ep).
  rewrite Es. simpl. rewrite Ep. split; [done|].
  rewrite <- Ek in Es.
  assert (Hlt : (sel_session k < length (heap st2))%nat) by by eapply lookup_lt_Some.
  destruct (select_case timer_first (Requests session)) as [|req rest|] eqn:Ec.
  - rewrite (poll_select_timer _ _ _ _ Es Ec) in Hs. by injection Hs as <- _.
  - exists req, (senders rest).
    split; [by rewrite (select_case_request _ _ _ _ Ec)|]. rewrite <- Ek.
    destruct (Request_Write (Request_HTTP req)) as [written [err|]] eqn:Ew.
    + rewrite (poll_select_write_error _ _ _ _ _ _ _ _ Es Ec Ew) in Hs.
      apply bind_Done in Hs as (ch1 & _ & [= _ <-]). simpl.
      rewrite list_lookup_insert_eq by done. simpl. rewrite Ep. auto.
    + rewrite (poll_select_request _ _ _ _ _ _ _ Es Ec Ew) in Hs.
      injection Hs as _ <-. simpl.
      rewrite list_lookup_insert_eq by done. simpl. auto.
  - rewrite (poll_select_closed _ _ _ _ Es Ec) in Hs. by injection Hs as <- _.
Qed.

(** A poll that carries the response to the pending originator and a
    header [X-Timeout] that does not parse is answered [400] with [X-Error],
    but only after the drain: the response has been delivered to the
    originator, the slot is empty and the lock is free, so nothing is lost
    and the session goes on. *)
Theorem bad_timeout_after_drain sessionID p r st session pending resp :
  heap st !! p = Some session ->
  handlerMu session = false ->
  PendingRequest session = Some pending ->
  chans st !! Request_Response pending = Some make_reply_chan ->
  ReadResponse (default "" (req_Body r)) (Request_HTTP pending) = inl resp ->
  candidate_timeout (req_Header r) = None ->
  exists st',
    poll_locked sessionID p r st
    = Done (Answered
              (answer 400
                 (Header_Add (Header_Add ∅ "X-Session" sessionID) "X-Error"
                    "cannot parse duration in X-Timeout header") ""),
            st')
    /\ received_at (Request_Response pending) st'
       = [{| Response_Err := None; Response_HTTP := Some resp |}]
    /\ PendingRequest <$> heap st' !! p = Some None
    /\ handlerMu <$> heap st' !! p = Some false.
Proof.
  intros Es Emu Ep Ec Er Et.
  assert (Hlt : (p < length (heap st))%nat) by by eapply lookup_lt_Some.
  assert (Hc : (Request_Response pending < length (chans st))%nat)
    by by eapply lookup_lt_Some.
  unfold poll_locked.
  rewrite (deref_Some _ _ _ Es), Done_bind, Emu.
  unfold drain_response. simpl. rewrite Ep, Er.
  rewrite (chan_send_waiting _ _ _ Ec), Done_bind.
  unfold chan_close. rewrite list_lookup_insert_eq by done. simpl.
  unfold poll_timeout. rewrite Et.
  eexists. split; [reflexivity|]. simpl.
  unfold received_at; simpl.
  rewrite !list_lookup_insert_eq; rewrite ?length_insert; try done.
  simpl. by rewrite Emu.
Qed.

Lemma bind_session_limits uuid r st sessionID p st1 :
  bind_session uuid r st = (sessionID, p, st1) ->
  LongPollMinTimeout (srv st1) = LongPollMinTimeout (doInit_Do (srv st))
  /\ LongPollMaxTimeout (srv st1) = LongPollMaxTimeout (doInit_Do (srv st))
  /\ SessionIdleTimeout (srv st1) = SessionIdleTimeout (doInit_Do (srv st)).
Proof.
  by destruct (bind_session_cases uuid r st) as [(p' & Ep & ->)|[Ep ->]];
    intros [= <- <- <-].
Qed.

(** The wait of every poll is within the configured bounds.  For a poll
    that reaches its [select], the duration given to [time.After] lies
    between [LongPollMinTimeout] and [LongPollMaxTimeout] as they are after
    the defaults, provided the minimum is not above the maximum; on a server
    that was given neither bound, this is between zero and two minutes. *)
Theorem wait_within_bounds uuid r st k st' :
  poll_begin uuid r st = Done (Selecting k, st') ->
  let s := doInit_Do (srv st) in
  (LongPollMinTimeout s <= LongPollMaxTimeout s ->
   LongPollMinTimeout s <= sel_timeout k <= LongPollMaxTimeout s)
  /\ (doInit (srv st) = false -> LongPollMinTimeout (srv st) = 0 ->
      LongPollMaxTimeout (srv st) = 0 ->
      0 <= sel_timeout k <= 2 * Minute).
Proof.
  intros (sessionID & p & st1 & Eb & Hl)%poll_begin_Done s.
  apply bind_session_limits in Eb as (Emin & Emax & _).
  apply poll_locked_timeout in Hl. unfold poll_timeout in Hl.
  destruct (candidate_timeout (req_Header r)) as [cand|]; [|done].
  injection Hl as Hl.
  assert (sel_timeout k
          = Z.max (LongPollMinTimeout s) (Z.min cand (LongPollMaxTimeout s))) as ->.
  { unfold s. rewrite <- Emin, <- Emax.
    rewrite <- (clamp_timeout_value (srv st1) cand
                  (Header_Add ∅ "X-Session" sessionID)).
    by rewrite Hl. }
  split; [lia|].
  intros Ei E0 E1. unfold s, doInit_Do. rewrite Ei. simpl. rewrite E0, E1. simpl.
  unfold Minute, Second, Millisecond. lia.
Qed.

End Discipline_properties.

(** ** New sessions and the idle timer *)

Section Lifecycle_properties.
Context `{!GoLib}.

Lemma OnConnect_doInit_Do s : OnConnect (doInit_Do s) = OnConnect s.
Proof. unfold doInit_Do. by destruct (doInit s). Qed.

(** A poll whose header [X-Session] is absent or names no session of the
    table always gets through its first phase (it cannot block or panic):
    it is answered [400] or reaches its [select].  It makes one new session,
    at a new pointer, entered in the table under the new id; the session is
    open, its pending slot is empty and its idle timer is armed.  The
    sessions there were, the other entries of the table and the reply
    channels are untouched, and an [OnConnect] goroutine is started for the
    new session exactly when the callback is set. *)
Theorem unknown_id_makes_session uuid r st :
  sessions (srv st) !! Header_Get (req_Header r) "X-Session" = None ->
  let p := length (heap st) in
  exists b st',
    poll_begin uuid r st = Done (b, st')
    /\ sessions (srv st') !! uuid = Some p
    /\ (forall id, id <> uuid -> sessions (srv st') !! id = sessions (srv st) !! id)
    /\ (forall q session, heap st !! q = Some session -> heap st' !! q = Some session)
    /\ length (heap st') = S p
    /\ PendingRequest <$> heap st' !! p = Some None
    /\ closed <$> heap st' !! p = Some false
    /\ is_Some (heap st' !! p ≫= closer)
    /\ chans st' = chans st
    /\ connects st'
       = (if OnConnect (srv st) then connects st ++ [p] else connects st).
Proof.
  intros Et p.
  destruct (bind_session_cases uuid r st) as [(p' & Ep & _)|[_ Eb]].
  { rewrite sessions_doInit_Do in Ep. congruence. }
  fold p in Eb.
  set (st1 := {| srv := set_sessions (<[uuid := p]> (sessions (doInit_Do (srv st))))
                          (doInit_Do (srv st));
                 heap := heap st ++ [newSession]; chans := chans st;
                 connects := if OnConnect (doInit_Do (srv st))
                             then connects st ++ [p] else connects st |}) in *.
  assert (Es : heap st1 !! p = Some newSession).
  { simpl. unfold p. by rewrite lookup_app_r, Nat.sub_diag. }
  assert (Hd : drain_response (default "" (req_Body r))
                 (set_closer (idle_timer st1 uuid) newSession) (chans st1)
               = Done (true, set_closer (idle_timer st1 uuid) newSession, chans st))
    by reflexivity.
  destruct (poll_begin_completes _ _ _ _ _ _ _ _ _ _ Eb Es eq_refl Hd)
    as (b & st' & Hb & Ech).
  exists b, st'. split; [done|].
  apply poll_begin_Done in Hb as (sid & p' & st1' & Eb' & Hl).
  rewrite Eb in Eb'. injection Eb' as <- <- <-.
  pose proof (poll_locked_srv _ _ _ _ _ _ Hl) as Esrv.
  pose proof (poll_locked_Done _ _ _ _ _ _ Hl)
    as (session & go & session' & ch & Es' & _ & Hd' & _ & _ & Econ & Hcase).
  rewrite Es in Es'. injection Es' as <-. rewrite Hd in Hd'.
  injection Hd' as <- <- <-.
  assert (exists x, heap st' = <[p := x]> (heap st ++ [newSession])
                    /\ PendingRequest x = None /\ closed x = false
                    /\ is_Some (closer x)) as (x & Eh & Ex1 & Ex2 & Ex3).
  { destruct Hcase as [([=] & _)|[(_ & bad & _ & _ & ->)|(_ & ? & ? & _ & _ & ->)]];
      eexists; (split; [reflexivity|]); simpl; eauto. }
  assert (Hp : heap st' !! p = Some x).
  { rewrite Eh. apply list_lookup_insert_eq. rewrite length_app. simpl.
    unfold p. lia. }
  rewrite Esrv, Hp, Econ. simpl.
  split; [by rewrite lookup_insert_eq|].
  split; [intros id Hne; by rewrite lookup_insert_ne, sessions_doInit_Do|].
  split.
  { intros q session Eq. rewrite Eh.
    rewrite list_lookup_insert_ne
      by (apply lookup_lt_Some in Eq; unfold p; lia).
    by apply lookup_app_l_Some. }
  split; [rewrite Eh, length_insert, length_app; simpl; unfold p; lia|].
  rewrite Ex1, Ex2, OnConnect_doInit_Do. auto.
Qed.

(** The idle timer.  When the timer of an open session that is still in the
    table fires (and no [RoundTrip] is blocked in the hand-off), the session
    is closed and its id leaves the table; the other entries, the other
    sessions, the pending slot and the reply channels are untouched.  A
    later poll with the old id is bound to a new session at another
    pointer. *)
Theorem idle_timer_evicts (t : Timer) st p session :
  sessions (srv st) !! timer_sessionID t = Some p ->
  heap st !! p = Some session ->
  closed session = false ->
  requests_closed (Requests session) = false ->
  senders (Requests session) = [] ->
  exists st',
    closer_fires t st = Done st'
    /\ sessions (srv st') !! timer_sessionID t = None
    /\ (forall id, id <> timer_sessionID t ->
                   sessions (srv st') !! id = sessions (srv st) !! id)
    /\ closed <$> heap st' !! p = Some true
    /\ requests_closed <$> (Requests <$> heap st' !! p) = Some true
    /\ PendingRequest <$> heap st' !! p = Some (PendingRequest session)
    /\ (forall q, q <> p -> heap st' !! q = heap st !! q)
    /\ chans st' = chans st
    /\ (forall uuid r,
          Header_Get (req_Header r) "X-Session" = timer_sessionID t ->
          snd (fst (bind_session uuid r st')) = length (heap st')
          /\ snd (fst (bind_session uuid r st')) <> p).
Proof.
  intros Et Es E1 E2 E3.
  assert (Hlt : (p < length (heap st))%nat) by by eapply lookup_lt_Some.
  unfold closer_fires, close_session. rewrite Et.
  rewrite (deref_Some _ _ _ Es), Done_bind, (Close_open _ E1 E2 E3), !Done_bind.
  eexists. split; [reflexivity|]. simpl.
  rewrite list_lookup_insert_eq by done. simpl.
  split; [by rewrite lookup_delete_eq|].
  split; [by intros id Hne; rewrite lookup_delete_ne|].
  do 3 (split; [done|]).
  split; [by intros q Hne; rewrite list_lookup_insert_ne|].
  split; [done|].
  intros uuid r Hid.
  match goal with
  | |- context [bind_session uuid r ?w] =>
      destruct (bind_session_cases uuid r w) as [(p' & Ep & _)|[_ ->]]
  end.
  - rewrite sessions_doInit_Do in Ep. simpl in Ep.
    by rewrite Hid, lookup_delete_eq in Ep.
  - simpl. rewrite length_insert. split; [done|lia].
Qed.

(** The idle timer, at its edges.  A timer that fires when its id is no
    longer in the table does nothing.  [Close] neither stops the idle timer
    of a session nor takes the session out of the table: when the timer of a
    session that was closed by [Close] fires, its function closes the
    session a second time and panics.  And when it fires while a [RoundTrip]
    is blocked in the hand-off on [Requests], closing [Requests] makes that
    goroutine panic. *)
Theorem idle_timer_edges (t : Timer) st :
  (sessions (srv st) !! timer_sessionID t = None -> closer_fires t st = Done st)
  /\ (forall p session st1,
         sessions (srv st) !! timer_sessionID t = Some p ->
         heap st !! p = Some session ->
         closer session = Some t ->
         close_session p st = Done st1 ->
         closer <$> heap st1 !! p = Some (Some t)
         /\ sessions (srv st1) !! timer_sessionID t = Some p
         /\ step (EvIdle p) st1 = Panic "close of closed channel")
  /\ (forall p session req rest,
         sessions (srv st) !! timer_sessionID t = Some p ->
         heap st !! p = Some session ->
         closed session = false ->
         requests_closed (Requests session) = false ->
         senders (Requests session) = req :: rest ->
         closer_fires t st = Panic "send on closed channel").
Proof.
  split; [|split].
  - intros Et. unfold closer_fires. by rewrite Et.
  - intros p session st1 Et Es Ec Hclose.
    assert (Hlt : (p < length (heap st))%nat) by by eapply lookup_lt_Some.
    pose proof (close_session_srv _ _ _ Hclose) as Esrv.
    unfold close_session in Hclose.
    rewrite (deref_Some _ _ _ Es), Done_bind in Hclose.
    apply bind_Done in Hclose as (s1 & [_ ->]%Close_Done & [= <-]).
    simpl. rewrite list_lookup_insert_eq by done. simpl. rewrite Ec.
    do 2 (split; [done|]).
    unfold deref. simpl. rewrite list_lookup_insert_eq by done.
    rewrite Done_bind. simpl. rewrite Ec.
    unfold closer_fires. simpl. rewrite Et.
    unfold close_session, deref. simpl.
    by rewrite list_lookup_insert_eq by done.
  - intros p session req rest Et Es E1 E2 E3.
    unfold closer_fires, close_session. rewrite Et.
    rewrite (deref_Some _ _ _ Es), Done_bind.
    unfold Close. rewrite E1. simpl. by rewrite E2, E3.
Qed.

(** An entry of the session table is removed by the idle timer only: after
    any other step ([RoundTrip], [Close], the phases of a poll) an id that
    was in the table is still in it. *)
Theorem table_entry_removed_by_timer_only e st st' id :
  step e st = Done st' ->
  is_Some (sessions (srv st) !! id) ->
  is_Some (sessions (srv st') !! id) \/ exists q, e = EvIdle q.
Proof.
  intros Hstep Hid.
  destruct e as [q r|q|q|uuid r|sid q r|tf k]; simpl in Hstep; [| |eauto| | |]; left.
  - apply fmap_snd_Done in Hstep as (res & Hstep).
    by rewrite (submit_srv _ _ _ _ _ Hstep).
  - by rewrite (close_session_srv _ _ _ Hstep).
  - apply fmap_snd_Done in Hstep as (b & Hstep).
    apply poll_begin_Done in Hstep as (sid & p' & st1 & Eb & Hstep).
    rewrite (poll_locked_srv _ _ _ _ _ _ Hstep).
    destruct (decide (id = uuid)) as [->|Hne].
    + destruct (bind_session_cases uuid r st) as [(p'' & Ep & Eb')|[Ep Eb']];
        rewrite Eb' in Eb; injection Eb as <- <- <-; simpl.
      * by rewrite sessions_doInit_Do.
      * by rewrite lookup_insert_eq.
    + apply bind_session_srv in Eb as [_ Et]. by rewrite Et.
  - apply fmap_snd_Done in Hstep as (b & Hstep).
    by rewrite (poll_locked_srv _ _ _ _ _ _ Hstep).
  - apply fmap_snd_Done in Hstep as (resp & Hstep).
    by rewrite (poll_select_srv _ _ _ _ _ Hstep).
Qed.

End Lifecycle_properties.

(** ** Defaults and the order of requests *)

Section Order_properties.
Context `{!GoLib}.

Lemma limits_doInit_Do_idem s : limits (doInit_Do (doInit_Do s)) = limits (doInit_Do s).
Proof. by rewrite (doInit_Do_id (doInit_Do s)) by apply doInit_Do_done. Qed.

Lemma limits_doInit_Do_congr a b :
  limits a = limits b -> limits (doInit_Do a) = limits (doInit_Do b).
Proof.
  unfold limits, doInit_Do. intros [= E1 E2 E3 E4].
  destruct (doInit b) eqn:Eb; rewrite E4; simpl.
  - rewrite E1, E2, E3. by rewrite E4, Eb.
  - by rewrite E1, E2, E3.
Qed.

Lemma bind_session_limits_eq uuid r st sessionID p st1 :
  bind_session uuid r st = (sessionID, p, st1) ->
  limits (srv st1) = limits (doInit_Do (srv st)).
Proof.
  by destruct (bind_session_cases uuid r st) as [(p' & Ep & ->)|[Ep ->]];
    intros [= <- <- <-].
Qed.

Lemma step_limits e st st' :
  step e st = Done st' ->
  limits (srv st') = limits (srv st)
  \/ limits (srv st') = limits (doInit_Do (srv st)).
Proof.
  intros Hstep.
  destruct e as [q r|q|q|uuid r|sid q r|tf k]; simpl in Hstep.
  - apply fmap_snd_Done in Hstep as (res & Hstep).
    left. by rewrite (submit_srv _ _ _ _ _ Hstep).
  - left. by rewrite (close_session_srv _ _ _ Hstep).
  - apply bind_Done in Hstep as (session0 & _ & Hstep).
    destruct (closer session0) as [t|]; [|left; by injection Hstep as <-].
    unfold closer_fires in Hstep.
    destruct (sessions (srv st) !! timer_sessionID t) as [p'|];
      [|left; by injection Hstep as <-].
    apply bind_Done in Hstep as (st1 & Hclose & [= <-]). simpl.
    left. by rewrite (close_session_srv _ _ _ Hclose).
  - apply fmap_snd_Done in Hstep as (b & Hstep).
    apply poll_begin_Done in Hstep as (sid & p' & st1 & Eb & Hstep).
    right. rewrite (poll_locked_srv _ _ _ _ _ _ Hstep).
    by eapply bind_session_limits_eq.
  - apply fmap_snd_Done in Hstep as (b & Hstep).
    left. by rewrite (poll_locked_srv _ _ _ _ _ _ Hstep).
  - apply fmap_snd_Done in Hstep as (resp & Hstep).
    left. by rewrite (poll_select_srv _ _ _ _ _ Hstep).
Qed.

(** The defaults are applied once.  In every execution the timeouts of the
    server are either as they were at the start, or as the defaults of the
    first poll made them: a maximum of two minutes and an idle timeout of ten
    minutes where the start had zero, the given values otherwise, and the
    minimum as given.  No later step changes them again; after a poll they
    are the defaulted ones. *)
Theorem defaults_applied_once es st st' :
  run es st = Done st' ->
  (limits (srv st') = limits (srv st)
   \/ limits (srv st') = limits (doInit_Do (srv st)))
  /\ (doInit (srv st) = false ->
      limits (doInit_Do (srv st))
      = (LongPollMinTimeout (srv st),
         if LongPollMaxTimeout (srv st) =? 0 then 2 * Minute
         else LongPollMaxTimeout (srv st),
         if SessionIdleTimeout (srv st) =? 0 then 10 * Minute
         else SessionIdleTimeout (srv st),
         true))
  /\ (forall uuid r b st2,
         poll_begin uuid r st' = Done (b, st2) ->
         limits (srv st2) = limits (doInit_Do (srv st))).
Proof.
  intros Hrun.
  assert (limits (srv st') = limits (srv st)
          \/ limits (srv st') = limits (doInit_Do (srv st))) as Hinv.
  { revert st Hrun. induction es as [|e es IH]; intros st Hrun.
    - injection Hrun as <-. by left.
    - simpl in Hrun. apply bind_Done in Hrun as (st1 & Hstep & Hrun).
      destruct (IH _ Hrun) as [E|E]; destruct (step_limits _ _ _ Hstep) as [E1|E1].
      + left. congruence.
      + right. congruence.
      + right. rewrite E. by apply limits_doInit_Do_congr.
      + right. rewrite E, (limits_doInit_Do_congr _ _ E1).
        apply limits_doInit_Do_idem. }
  split; [done|]. split.
  - intros Ei. unfold limits, doInit_Do. by rewrite Ei.
  - intros uuid r b st2 (sid & p & st1 & Eb & Hl)%poll_begin_Done.
    rewrite (poll_locked_srv _ _ _ _ _ _ Hl), (bind_session_limits_eq _ _ _ _ _ _ Eb).
    destruct Hinv as [E|E].
    + by apply limits_doInit_Do_congr.
    + rewrite (limits_doInit_Do_congr _ _ E). apply limits_doInit_Do_idem.
Qed.

Lemma submit_all_open rs s ch :
  closed s = false -> requests_closed (Requests s) = false ->
  exists s',
    submit_all rs s ch = Done (s', ch ++ replicate (length rs) make_reply_chan)
    /\ senders (Requests s') = senders (Requests s) ++ requests_from (length ch) rs
    /\ requests_closed (Requests s') = false
    /\ closed s' = false
    /\ PendingRequest s' = PendingRequest s
    /\ handlerMu s' = handlerMu s.
Proof.
  revert s ch. induction rs as [|r rs IH]; intros s ch E1 E2; simpl.
  - exists s. by rewrite !app_nil_r.
  - unfold RoundTrip. rewrite E1, E2, Done_bind.
    match goal with
    | |- context [submit_all rs ?s1 ?c1] =>
        destruct (IH s1 c1 E1 eq_refl) as (s' & -> & Es & Er & Ec & Ep & Emu)
    end.
    exists s'. rewrite Es, Er, Ec, Ep, Emu. simpl.
    rewrite length_app, <- !app_assoc. simpl.
    by rewrite Nat.add_1_r.
Qed.

Lemma take_requests_all l b :
  take_requests (length l) {| senders := l; requests_closed := b |} = l.
Proof.
  induction l as [|req l IH]; [done|]. simpl. unfold chan_recv; simpl.
  by rewrite IH.
Qed.

Lemma take_requests_more l b n :
  (length l <= n)%nat ->
  take_requests n {| senders := l; requests_closed := b |} = l.
Proof.
  revert n. induction l as [|req l IH]; intros n Hn.
  - destruct n; [done|]. simpl. unfold chan_recv; simpl. by destruct b.
  - destruct n; [simpl in Hn; lia|]. simpl. unfold chan_recv; simpl.
    rewrite IH; [done|simpl in Hn; lia].
Qed.

Lemma requests_from_HTTP c rs : Request_HTTP <$> requests_from c rs = rs.
Proof. revert c. induction rs as [|r rs IH]; intros c; simpl; by rewrite ?IH. Qed.

Lemma requests_from_Response c rs :
  Request_Response <$> requests_from c rs = seq c (length rs).
Proof. revert c. induction rs as [|r rs IH]; intros c; simpl; by rewrite ?IH. Qed.

(** Requests are handed over in the order of their [RoundTrip]s.  When
    originators enter [RoundTrip] one after the other on an open session
    whose [Requests] nobody waits on, every one of them is accepted and
    waits; the receives of the polls then take their requests in the same
    order, each with a reply channel of its own, made by its [RoundTrip]. *)
Theorem requests_taken_in_order rs s ch :
  closed s = false -> requests_closed (Requests s) = false ->
  senders (Requests s) = [] ->
  exists s' ch',
    submit_all rs s ch = Done (s', ch')
    /\ Request_HTTP <$> take_requests (length rs) (Requests s') = rs
    /\ Request_Response <$> take_requests (length rs) (Requests s')
       = seq (length ch) (length rs)
    /\ NoDup (Request_Response <$> take_requests (length rs) (Requests s'))
    /\ (forall c, c ∈ (Request_Response <$> take_requests (length rs) (Requests s')) ->
                  ch !! c = None /\ ch' !! c = Some make_reply_chan)
    /\ take_requests (S (length rs)) (Requests s')
       = take_requests (length rs) (Requests s').
Proof.
  intros E1 E2 E3.
  destruct (submit_all_open rs s ch E1 E2) as (s' & Hs & Es & Er & _).
  rewrite E3 in Es. simpl in Es.
  assert (Requests s' = {| senders := requests_from (length ch) rs;
                           requests_closed := false |}) as Eq.
  { destruct (Requests s'); simpl in *. congruence. }
  assert (take_requests (length rs) (Requests s') = requests_from (length ch) rs)
    as Et.
  { rewrite Eq.
    replace (length rs) with (length (requests_from (length ch) rs))
      by (rewrite <- (length_fmap Request_HTTP), requests_from_HTTP; done).
    apply take_requests_all. }
  exists s', (ch ++ replicate (length rs) make_reply_chan).
  split; [done|]. rewrite Et, requests_from_HTTP, requests_from_Response.
  split; [done|]. split; [done|]. split; [apply NoDup_seq|].
  split.
  - intros c [Hge Hlt]%elem_of_seq. split; [by apply lookup_ge_None_2|].
    rewrite lookup_app_r by done. apply lookup_replicate_2. lia.
  - rewrite Eq. apply take_requests_more.
    rewrite <- (length_fmap Request_HTTP), requests_from_HTTP. lia.
Qed.

End Order_properties.

(** ** A closed session that is still in the table *)

Section Closed_properties.
Context `{!GoLib}.

(** [Close] does not cut off the response in flight.  A session was closed
    by [Close] while an originator was pending, and is still in the table.
    The poll that carries the response delivers it to the originator and
    empties the slot as on an open session; only then does its [select] find
    [Requests] closed, and the poll is answered [410]. *)
Theorem closed_session_still_drains uuid r st p session pending resp cand :
  sessions (doInit_Do (srv st)) !! Header_Get (req_Header r) "X-Session" = Some p ->
  heap st !! p = Some session ->
  handlerMu session = false ->
  closed session = true ->
  requests_closed (Requests session) = true ->
  senders (Requests session) = [] ->
  PendingRequest session = Some pending ->
  chans st !! Request_Response pending = Some make_reply_chan ->
  ReadResponse (default "" (req_Body r)) (Request_HTTP pending) = inl resp ->
  candidate_timeout (req_Header r) = Some cand ->
  exists reply st',
    ServeHTTP uuid false r st = Done (reply, st')
    /\ resp_StatusCode reply = 410
    /\ received_at (Request_Response pending) st'
       = [{| Response_Err := None; Response_HTTP := Some resp |}]
    /\ RoundTrip_return (Request_Response pending) (chans st')
       = Some (Some resp, None)
    /\ PendingRequest <$> heap st' !! p = Some None
    /\ handlerMu <$> heap st' !! p = Some false.
Proof.
  intros Et Es Emu Ecl Erc Esd Ep Ec Er Ecand.
  assert (Hlt : (p < length (heap st))%nat) by by eapply lookup_lt_Some.
  assert (Hc : (Request_Response pending < length (chans st))%nat)
    by by eapply lookup_lt_Some.
  destruct (bind_session_cases uuid r st) as [(p' & Et' & Eb)|[Et' _]];
    [|congruence].
  assert (p' = p) as -> by congruence.
  unfold ServeHTTP, poll_begin. rewrite Eb. unfold poll_locked. simpl.
  rewrite (deref_Some _ _ _ Es), Done_bind, Emu.
  unfold drain_response. simpl. rewrite Ep, Er.
  rewrite (chan_send_waiting _ _ _ Ec), Done_bind.
  unfold chan_close. rewrite list_lookup_insert_eq by done. simpl.
  unfold poll_timeout. rewrite Ecand.
  destruct (clamp_timeout (doInit_Do (srv st)) cand
              (Header_Add ∅ "X-Session" (Header_Get (req_Header r) "X-Session")))
    as [timeout h_ok].
  simpl. unfold poll_select. simpl. unfold deref.
  rewrite list_lookup_insert_eq by done. simpl.
  unfold chan_recv. rewrite Esd, Erc. simpl.
  do 2 eexists. split; [reflexivity|]. simpl.
  unfold received_at, RoundTrip_return; simpl.
  rewrite !list_lookup_insert_eq; rewrite ?length_insert; done.
Qed.

End Closed_properties.

(** ** The client loop, further *)

Section Loop_properties.
Context `{!GoLib} {T : Type}.
Variable Do : HTTPRequest -> T -> (HTTPResponse + error) * T.
Variable url : string.
Variable handler : HTTPRequest -> list call.

Lemma response_poll_headers sessionID serverReq :
  Header_Get (req_Header (response_poll url handler sessionID serverReq)) "X-Session"
  = sessionID
  /\ Header_Get (req_Header (response_poll url handler sessionID serverReq)) "X-Timeout"
     = Duration_String Minute
  /\ Header_Get (req_Header (response_poll url handler sessionID serverReq)) "Content-Type"
     = "application/x-http-response".
Proof.
  unfold response_poll, req_Header_Add, NewRequest; simpl.
  split; [|split].
  - rewrite Header_Get_Add_ne by done. apply Header_Get_Add_fresh.
    unfold Header_Add. by rewrite lookup_insert_ne.
  - rewrite !Header_Get_Add_ne by done. by apply Header_Get_Add_fresh.
  - apply Header_Get_Add_fresh. unfold Header_Add.
    by rewrite !lookup_insert_ne.
Qed.

Lemma next_poll_headers sessionID :
  Header_Get (req_Header (next_poll url sessionID)) "X-Timeout" = Duration_String Minute
  /\ Header_present (req_Header (next_poll url sessionID)) "Content-Type" = false.
Proof.
  unfold next_poll, req_Header_Add, NewRequest; simpl. split.
  - rewrite Header_Get_Add_ne by done. by apply Header_Get_Add_fresh.
  - unfold Header_present, Header_Add. by rewrite !lookup_insert_ne.
Qed.

(** What every POST of the loop carries.  Whenever the body of the loop
    posts, the request is a POST to the url given to [ConnectAndServe] whose
    header [X-Timeout] is the poll timeout of one minute and whose header
    [X-Session] is the id of the response in hand (the client follows the id
    the server gave last).  After a [204] it has no body and no content
    type; after a [200] its content type is that of a response and its body
    is what the handler, run on the decoded request, wrote to its response
    writer. *)
Theorem loop_posts resp req :
  iteration url handler resp = Post req ->
  req_Method req = "POST"
  /\ req_URL req = url
  /\ Header_Get (req_Header req) "X-Timeout" = Duration_String Minute
  /\ Header_Get (req_Header req) "X-Session"
     = Header_Get (resp_Header resp) "X-Session"
  /\ (resp_StatusCode resp = 204 ->
      req_Body req = None
      /\ Header_present (req_Header req) "Content-Type" = false)
  /\ (resp_StatusCode resp = 200 ->
      Header_Get (req_Header req) "Content-Type" = "application/x-http-response"
      /\ exists serverReq,
          ReadRequest (resp_Body resp) = inl serverReq
          /\ req_Body req
             = Some (w (do_calls (handler serverReq) new_ResponseWriter))).
Proof.
  intros Hit.
  destruct (decide (resp_StatusCode resp = 204)) as [E204|N204].
  - rewrite (iteration_204 _ _ _ E204) in Hit. injection Hit as <-.
    destruct (next_poll_headers (Header_Get (resp_Header resp) "X-Session"))
      as [Ht Hc].
    do 2 (split; [done|]). split; [done|].
    split; [apply next_poll_session|]. split; [done|]. intros E. lia.
  - destruct (decide (resp_StatusCode resp = 200)) as [E200|N200].
    + rewrite (iteration_200 _ _ _ E200) in Hit. unfold decode_and_serve in Hit.
      destruct (ReadRequest (resp_Body resp)) as [serverReq|err]; [|done].
      injection Hit as <-.
      destruct (response_poll_headers (Header_Get (resp_Header resp) "X-Session")
                  serverReq) as (Hs & Ht & Hc).
      do 2 (split; [done|]). split; [done|]. split; [done|].
      split; [done|]. intros _. split; [done|]. by exists serverReq.
    + destruct (decide (resp_StatusCode resp = 410)) as [E410|N410].
      * by rewrite (iteration_410 _ _ _ E410) in Hit.
      * by rewrite (iteration_other _ _ _ N204 N410 N200) in Hit.
Qed.



End Loop_properties.

(** ** The tunnel, end to end *)

Section Tunnel_properties.
Context `{!GoLib}.
Variable url : string.
Variable handler : HTTPRequest -> list call.

(** The statuses of the poll handler: every answer is [200], [204], [400] or
    [410], with the status line of that code. *)
Theorem answer_statuses uuid timer_first r st resp st' :
  ServeHTTP uuid timer_first r st = Done (resp, st') ->
  (resp_StatusCode resp = 200 \/ resp_StatusCode resp = 204
   \/ resp_StatusCode resp = 400 \/ resp_StatusCode resp = 410)
  /\ resp_Status resp
     = pretty (resp_StatusCode resp) +:+ " " +:+ StatusText (resp_StatusCode resp).
Proof.
  unfold ServeHTTP. intros ([b st1] & Hb & Hs)%bind_Done.
  apply poll_begin_Done in Hb as (sid & p & st0 & _ & Hl).
  destruct b as [bad|k].
  - injection Hs as <- <-.
    apply poll_locked_Done in Hl
      as (session & go & session' & ch & _ & _ & _ & _ & _ & _ & Hcase).
    destruct Hcase as [(_ & [= ->] & _)|[(_ & bad' & Et & [= ->] & _)|(_ & ? & ? & _ & ? & _)]];
      [simpl; auto| |done].
    unfold poll_timeout in Et.
    destruct (candidate_timeout (req_Header r)); [done|].
    injection Et as <-. simpl. auto.
  - unfold poll_select in Hs. apply bind_Done in Hs as (session & _ & Hs).
    destruct (select_case timer_first (Requests session)) as [|req rest|].
    + injection Hs as <- _. simpl. auto.
    + destruct (Request_Write (Request_HTTP req)) as [written [err|]].
      * apply bind_Done in Hs as (ch1 & _ & [= <- _]). simpl. auto.
      * injection Hs as <- _. simpl. auto.
    + injection Hs as <- _. simpl. auto.
Qed.

Lemma select_case_head q req rest :
  senders q = req :: rest ->
  select_case false q
  = SelRequest req {| senders := rest; requests_closed := requests_closed q |}.
Proof. intros E. unfold select_case, chan_recv. by rewrite E. Qed.

(** The round trip through the tunnel.  A poll waits in its [select] on a
    session of the table while the request of an originator is blocked in
    [Requests]; writing that request succeeds and the client can read it
    back.  Then: the [select] answers the poll with the request; the client
    loop, given that answer, runs its handler on the decoded request and
    posts what the handler wrote; and the server's next poll, given that
    post, is bound to the same session and delivers to the originator the
    result of reading the handler's bytes as a response to its request (the
    response, or the error of the decoding). *)
Theorem tunnel_round_trip sessionID p r0 st0 k st1 st session req rest written
    serverReq uuid :
  poll_locked sessionID p r0 st0 = Done (Selecting k, st1) ->
  heap st !! p = Some session ->
  senders (Requests session) = req :: rest ->
  Request_Write (Request_HTTP req) = (written, None) ->
  ReadRequest written = inl serverReq ->
  chans st !! Request_Response req = Some make_reply_chan ->
  sessions (srv st) !! sessionID = Some p ->
  let body := w (do_calls (handler serverReq) new_ResponseWriter) in
  exists answer st2 post b st3,
    poll_select false k st = Done (answer, st2)
    /\ iteration url handler answer = Post post
    /\ req_Body post = Some body
    /\ poll_begin uuid post st2 = Done (b, st3)
    /\ received_at (Request_Response req) st3 = [drained_reply body req]
    /\ RoundTrip_return (Request_Response req) (chans st3)
       = Some (Response_HTTP (drained_reply body req),
               Response_Err (drained_reply body req)).
Proof.
  intros Hb Es Esd Ew Er Ec Et body.
  pose proof (poll_locked_Selecting _ _ _ _ _ _ Hb) as [Ek _].
  rewrite <- Ek in Es.
  assert (Hlt : (sel_session k < length (heap st))%nat) by by eapply lookup_lt_Some.
  pose proof (poll_select_request _ _ _ _ _ _ _ Es (select_case_head _ _ _ Esd) Ew)
    as Hs.
  pose proof (proj2 (poll_answers_carry_session sessionID p r0 st0)
                _ _ _ _ _ _ Hb Hs) as Hid.
  eexists _, _, _. 
  assert (iteration url handler
            (answer StatusOK
               (Header_Add (sel_header k) "Content-type" "application/x-http-request")
               written)
          = Post (response_poll url handler sessionID serverReq)) as Hit.
  { rewrite iteration_200 by done. unfold decode_and_serve.
    rewrite Hid. simpl. by rewrite Er. }
  destruct (response_poll_headers url handler sessionID serverReq) as (Hsid & _).
  match type of Hs with
  | _ = Done (_, ?w2) => set (st2 := w2) in *
  end.
  destruct (bind_session_cases uuid (response_poll url handler sessionID serverReq) st2)
    as [(p' & Et' & Eb)|[Et' _]].
  2: { rewrite Hsid, sessions_doInit_Do in Et'. simpl in Et'. congruence. }
  rewrite Hsid, sessions_doInit_Do in Et'. simpl in Et'.
  assert (p' = p) as -> by congruence.
  rewrite Hsid in Eb.
  assert (Es2 : heap st2 !! p
                = Some (set_handlerMu false
                          (set_PendingRequest (Some req)
                             (set_Requests
                                {| senders := rest;
                                   requests_closed := requests_closed (Requests session) |}
                                session)))).
  { simpl. rewrite Ek. apply list_lookup_insert_eq. by rewrite <- Ek. }
  match type of Eb with
  | _ = (_, _, ?w3) =>
      destruct (drain_response_delivers
                  (default "" (req_Body (response_poll url handler sessionID serverReq)))
                  (set_closer (idle_timer w3 sessionID)
                     (set_handlerMu false
                        (set_PendingRequest (Some req)
                           (set_Requests
                              {| senders := rest;
                                 requests_closed := requests_closed (Requests session) |}
                              session))))
                  (chans st) req eq_refl Ec)
        as (go & session' & ch' & Ed & Erec);
      destruct (poll_begin_completes _ _ _ _ _ _ _ _ _ _ Eb Es2 eq_refl Ed)
        as (b & st3 & Hpb & Ech)
  end.
  exists b, st3.
  split; [exact Hs|]. split; [exact Hit|]. split; [done|]. split; [exact Hpb|].
  split.
  - unfold received_at. by rewrite Ech, Erec.
  - rewrite Ech. by apply RoundTrip_return_received.
Qed.

End Tunnel_properties.

(** ** The response writer, further *)

Section Writer_properties.
Context `{!GoLib}.

Lemma do_calls_app cs1 cs2 rw :
  do_calls (cs1 ++ cs2) rw = do_calls cs2 (do_calls cs1 rw).
Proof. unfold do_calls. apply foldl_app. Qed.

(** Headers added after the headers were sent are lost: once a [Write] or
    [WriteHeader] has been made, a later [Header().Add] changes nothing of
    what the writer puts on the wire, whatever calls follow. *)
Theorem late_headers_dropped cs1 key value cs2 rw :
  headerSent (do_calls cs1 rw) = true ->
  w (do_calls (cs1 ++ CallHeaderAdd key value :: cs2) rw)
  = w (do_calls (cs1 ++ cs2) rw).
Proof.
  intros Hsent. rewrite !do_calls_app.
  change (do_calls (CallHeaderAdd key value :: cs2) (do_calls cs1 rw))
    with (do_calls cs2 (do_call (CallHeaderAdd key value) (do_calls cs1 rw))).
  set (rw1 := do_calls cs1 rw) in *.
  assert (headerSent (do_call (CallHeaderAdd key value) rw1) = true
          /\ w (do_call (CallHeaderAdd key value) rw1) = w rw1) as [E1 E2].
  { simpl. unfold ResponseWriter_Header. by destruct (header rw1). }
  destruct (do_calls_sent cs2 _ E1) as [-> _].
  destruct (do_calls_sent cs2 _ Hsent) as [-> _].
  by rewrite E2.
Qed.

End Writer_properties.

(** * More of the package at work *)

Section More_examples.
#[local] Existing Instance sampleLib.

Lemma answers_echo_session_witness :
  exists resp st1,
    poll_locked "s1" 0 bogus_timeout_poll outstanding_world = Done (Answered resp, st1)
    /\ Header_Get (resp_Header resp) "X-Session" = "s1".
Proof.
  do 2 eexists. split; [vm_compute; reflexivity|].
  eapply (proj1 (answers_echo_session "s1" 0 bogus_timeout_poll outstanding_world)).
  vm_compute. reflexivity.
Defined.

Lemma consecutive_polls_same_session_witness :
  bind_session "u2" good_poll outstanding_world = ("s1", 0%nat, outstanding_world).
Proof.
  apply (consecutive_polls_same_session "s1" first_sample_poll world0 "s1" 0
           bound_world (Selecting first_selecting) selecting_world
           [EvSubmit 0 frob; EvSelect false first_selecting]
           outstanding_world "u2" good_poll).
  - vm_compute. reflexivity.
  - vm_compute. reflexivity.
  - repeat constructor.
  - vm_compute. reflexivity.
  - vm_compute. reflexivity.
Defined.

Lemma unknown_id_makes_session_witness :
  exists b st',
    poll_begin "s1" first_sample_poll world0 = Done (b, st')
    /\ sessions (srv st') !! "s1" = Some (length (heap world0)).
Proof.
  destruct (unknown_id_makes_session "s1" first_sample_poll world0)
    as (b & st' & Hb & Ht & _).
  - vm_compute. reflexivity.
  - exists b, st'. split; [exact Hb|exact Ht].
Defined.

Lemma poll_rearms_idle_timer_witness :
  exists b st',
    poll_locked "s1" 0 bogus_timeout_poll outstanding_world = Done (b, st')
    /\ closer <$> heap st' !! 0%nat
       = Some (Some {| timer_d := SessionIdleTimeout (srv outstanding_world);
                       timer_sessionID := "s1" |}).
Proof.
  do 2 eexists. split; [vm_compute; reflexivity|].
  eapply (poll_rearms_idle_timer "s1" 0 bogus_timeout_poll outstanding_world).
  vm_compute. reflexivity.
Defined.

Lemma handler_lock_discipline_witness :
  poll_locked "s1" 0 good_poll selecting_world = Blocked "handlerMu.Lock".
Proof.
  eapply (proj1 (handler_lock_discipline "s1" 0 good_poll selecting_world)).
  - vm_compute. reflexivity.
  - reflexivity.
Defined.

Lemma one_request_in_flight_witness :
  PendingRequest <$> heap submitted_world !! 0%nat = Some None.
Proof.
  destruct (one_request_in_flight "s1" 0 first_sample_poll bound_world
              first_selecting selecting_world [EvSubmit 0 frob] submitted_world
              false frob_answer outstanding_world) as [Hempty _].
  - vm_compute. reflexivity.
  - repeat constructor.
  - vm_compute. reflexivity.
  - vm_compute. reflexivity.
  - reflexivity.
  - exact Hempty.
Defined.

Lemma bad_timeout_after_drain_witness :
  exists st',
    poll_locked "s1" 0 bogus_timeout_poll outstanding_world
    = Done (Answered
              (answer 400
                 (Header_Add (Header_Add ∅ "X-Session" "s1") "X-Error"
                    "cannot parse duration in X-Timeout header") ""),
            st')
    /\ received_at (Request_Response frob_request) st'
       = [{| Response_Err := None; Response_HTTP := Some good_response |}].
Proof.
  destruct (bad_timeout_after_drain "s1" 0 bogus_timeout_poll outstanding_world
              outstanding_session frob_request good_response)
    as (st' & Hb & Hr & _).
  - vm_compute. reflexivity.
  - reflexivity.
  - reflexivity.
  - vm_compute. reflexivity.
  - vm_compute. reflexivity.
  - vm_compute. reflexivity.
  - exists st'. split; [exact Hb|exact Hr].
Defined.

Lemma wait_within_bounds_witness :
  LongPollMinTimeout (doInit_Do (srv world0)) <= sel_timeout first_selecting
  <= LongPollMaxTimeout (doInit_Do (srv world0)).
Proof.
  pose proof (wait_within_bounds "s1" first_sample_poll world0 first_selecting
                selecting_world) as Hw.
  cbv zeta in Hw.
  destruct Hw as [Hw _].
  - vm_compute. reflexivity.
  - apply Hw. vm_compute. discriminate.
Defined.

Lemma idle_timer_evicts_witness :
  exists st',
    closer_fires sample_timer outstanding_world = Done st'
    /\ sessions (srv st') !! timer_sessionID sample_timer = None.
Proof.
  destruct (idle_timer_evicts sample_timer outstanding_world 0 outstanding_session)
    as (st' & Hf & Ht & _).
  - vm_compute. reflexivity.
  - vm_compute. reflexivity.
  - reflexivity.
  - reflexivity.
  - reflexivity.
  - exists st'. split; [exact Hf|exact Ht].
Defined.

Lemma idle_timer_edges_witness :
  step (EvIdle 0) closed_world = Panic "close of closed channel".
Proof.
  destruct (idle_timer_edges sample_timer outstanding_world) as (_ & Hclosed & _).
  destruct (Hclosed 0%nat outstanding_session closed_world) as (_ & _ & Hpanic).
  - vm_compute. reflexivity.
  - vm_compute. reflexivity.
  - reflexivity.
  - vm_compute. reflexivity.
  - exact Hpanic.
Defined.

Lemma table_entry_removed_by_timer_only_witness :
  is_Some (sessions (srv closed_world) !! "s1")
  \/ exists q, EvClose 0 = EvIdle q.
Proof.
  apply (table_entry_removed_by_timer_only (EvClose 0) outstanding_world
           closed_world "s1").
  - vm_compute. reflexivity.
  - exists 0%nat. vm_compute. reflexivity.
Defined.

Lemma defaults_applied_once_witness :
  limits (srv outstanding_world) = limits (srv world0)
  \/ limits (srv outstanding_world) = limits (doInit_Do (srv world0)).
Proof.
  destruct (defaults_applied_once outstanding_events world0 outstanding_world)
    as [Hl _].
  - vm_compute. reflexivity.
  - exact Hl.
Defined.

Lemma requests_taken_in_order_witness :
  exists s' ch',
    submit_all [frob; broken] newSession [] = Done (s', ch')
    /\ Request_HTTP <$> take_requests (length [frob; broken]) (Requests s')
       = [frob; broken].
Proof.
  destruct (requests_taken_in_order [frob; broken] newSession [])
    as (s' & ch' & Hs & Ho & _); [reflexivity..|].
  exists s', ch'. split; [exact Hs|exact Ho].
Defined.

Lemma closed_session_still_drains_witness :
  exists reply st',
    ServeHTTP "u2" false good_poll closed_world = Done (reply, st')
    /\ resp_StatusCode reply = 410
    /\ received_at (Request_Response frob_request) st'
       = [{| Response_Err := None; Response_HTTP := Some good_response |}].
Proof.
  destruct (closed_session_still_drains "u2" good_poll closed_world 0
              closed_sample_session frob_request good_response Minute)
    as (reply & st' & Hs & Hc & Hr & _).
  - vm_compute. reflexivity.
  - vm_compute. reflexivity.
  - reflexivity.
  - reflexivity.
  - reflexivity.
  - reflexivity.
  - reflexivity.
  - vm_compute. reflexivity.
  - vm_compute. reflexivity.
  - vm_compute. reflexivity.
  - exists reply, st'. split; [exact Hs|]. split; [exact Hc|exact Hr].
Defined.

Lemma loop_posts_witness :
  req_Method (next_poll sample_url "s1") = "POST"
  /\ req_URL (next_poll sample_url "s1") = sample_url.
Proof.
  destruct (loop_posts sample_url frob_handler no_content (next_poll sample_url "s1"))
    as (Hm & Hu & _).
  - vm_compute. reflexivity.
  - split; [exact Hm|exact Hu].
Defined.



Lemma answer_statuses_witness :
  exists resp st',
    ServeHTTP "s1" true first_sample_poll world0 = Done (resp, st')
    /\ (resp_StatusCode resp = 200 \/ resp_StatusCode resp = 204
        \/ resp_StatusCode resp = 400 \/ resp_StatusCode resp = 410).
Proof.
  do 2 eexists. split; [vm_compute; reflexivity|].
  refine (proj1 (answer_statuses "s1" true first_sample_poll world0 _ _ _)).
  vm_compute. reflexivity.
Defined.

Lemma tunnel_round_trip_witness :
  exists st3,
    received_at (Request_Response frob_request) st3
    = [drained_reply (w (do_calls (frob_handler frob_decoded) new_ResponseWriter))
         frob_request].
Proof.
  pose proof (tunnel_round_trip sample_url frob_handler "s1" 0 first_sample_poll
                bound_world first_selecting selecting_world submitted_world
                submitted_session frob_request [] frob_wire frob_decoded "u2")
    as Htrip.
  cbv zeta in Htrip.
  destruct Htrip as (reply & st2 & post & b & st3 & _ & _ & _ & _ & Hr & _).
  - vm_compute. reflexivity.
  - vm_compute. reflexivity.
  - reflexivity.
  - vm_compute. reflexivity.
  - vm_compute. reflexivity.
  - vm_compute. reflexivity.
  - vm_compute. reflexivity.
  - exists st3. exact Hr.
Defined.

Lemma late_headers_dropped_witness :
  w (do_calls ([CallWrite "a"] ++ CallHeaderAdd "X-Late" "1" :: [CallWrite "b"])
       new_ResponseWriter)
  = w (do_calls ([CallWrite "a"] ++ [CallWrite "b"]) new_ResponseWriter).
Proof. apply late_headers_dropped. reflexivity. Defined.

(** The handler's response as the originator gets it in the sample. *)
Example good_response_ex :
  resp_StatusCode good_response = 200
  /\ resp_Status good_response = "200 OK"
  /\ drained_reply good_body frob_request
     = {| Response_Err := None; Response_HTTP := Some good_response |}.
Proof. vm_compute. auto. Qed.

End More_examples.
